(** * wt: task-driven git worktree manager — branch naming, task registry
      and task lifecycle

    A shallow embedding of the packages [internal/worktree],
    [internal/config] and [internal/task].  Go strings are immutable byte
    sequences and are modelled by [string] (a sequence of 8-bit [ascii]
    values); [len] is [String.length] and [s[:n]] is [Go.slice_to].

    The parts of the Go standard library and of the external tools that the
    packages call are modelled in the modules [Go], [Yaml] and [Os]; the code
    of the repository is in the modules [config], [worktree] and [task]. *)

From Stdlib Require Import Ascii String NArith ZArith Bool List Lia.
From stdpp Require Import base option list gmap strings.

(** ** Bytes *)

Definition byte_val (c : ascii) : N := N_of_ascii c.

(** The byte is one of [a-z0-9]. *)
Definition is_lower_alnum (c : ascii) : bool :=
  let n := byte_val c in
  ((97 <=? n) && (n <=? 122) || (48 <=? n) && (n <=? 57))%N.

Definition is_upper (c : ascii) : bool :=
  let n := byte_val c in ((65 <=? n) && (n <=? 90))%N.

(** [c < utf8.RuneSelf]. *)
Definition is_ascii (c : ascii) : bool := (byte_val c <? 128)%N.

(** The table [asciiSpace] of package [strings]: tab, newline, vertical tab,
    form feed, carriage return and space. *)
Definition is_ascii_space (c : ascii) : bool :=
  let n := byte_val c in ((9 <=? n) && (n <=? 13) || (n =? 32))%N.

(** [c += 'a' - 'A'] for an upper-case byte. *)
Definition lower_byte (c : ascii) : ascii :=
  if is_upper c then ascii_of_N (byte_val c + 32) else c.

Definition is_byte (d c : ascii) : bool := Ascii.eqb c d.

(** ** The Go standard library, as far as the packages use it *)

(** The Unicode tables of the standard library are not part of the
    repository.  Package [strings] takes a byte-wise fast path on ASCII
    input and falls back to the Unicode-aware functions as soon as it meets
    a byte [>= 0x80]; those fall-backs are the fields of this record, and
    everything below is proved for every choice of them. *)
Record Unicode : Type := {
  (** [strings.Map(unicode.ToLower, s)] *)
  MapToLower : string -> string;
  (** [strings.TrimFunc(s, unicode.IsSpace)] *)
  TrimFuncIsSpace : string -> string;
  (** [strings.TrimRightFunc(s, unicode.IsSpace)] *)
  TrimRightFuncIsSpace : string -> string
}.

Module Go.

Fixpoint map_bytes (f : ascii -> ascii) (s : string) : string :=
  match s with
  | EmptyString => EmptyString
  | String c s' => String (f c) (map_bytes f s')
  end.

Fixpoint all_bytes (p : ascii -> bool) (s : string) : bool :=
  match s with
  | EmptyString => true
  | String c s' => p c && all_bytes p s'
  end.

Definition first_byte (s : string) : option ascii :=
  match s with
  | EmptyString => None
  | String c _ => Some c
  end.

Fixpoint last_byte (s : string) : option ascii :=
  match s with
  | EmptyString => None
  | String c EmptyString => Some c
  | String _ s' => last_byte s'
  end.

(** [s[:n]], for [n <= len(s)] (Go panics otherwise; every use below is
    guarded by a length test). *)
Fixpoint slice_to (n : nat) (s : string) : string :=
  match n, s with
  | S n', String c s' => String c (slice_to n' s')
  | _, _ => EmptyString
  end.

(** Drop the leading bytes that satisfy [p]. *)
Fixpoint trim_left (p : ascii -> bool) (s : string) : string :=
  match s with
  | EmptyString => EmptyString
  | String c s' => if p c then trim_left p s' else s
  end.

(** Drop the trailing bytes that satisfy [p]. *)
Fixpoint trim_right (p : ascii -> bool) (s : string) : string :=
  match s with
  | EmptyString => EmptyString
  | String c s' =>
      match trim_right p s' with
      | EmptyString => if p c then EmptyString else String c EmptyString
      | r => String c r
      end
  end.

(** [strings.TrimRight(s, cutset)] for a cutset of one ASCII byte:
    [trimRightByte]. *)
Definition TrimRight (s : string) (cutset : ascii) : string :=
  trim_right (is_byte cutset) s.

(** [strings.Trim(s, cutset)] for a cutset of one ASCII byte:
    [trimLeftByte(trimRightByte(s, c), c)]. *)
Definition Trim (s : string) (cutset : ascii) : string :=
  trim_left (is_byte cutset) (trim_right (is_byte cutset) s).

Global Arguments TrimRight s cutset%_char.
Global Arguments Trim s cutset%_char.

(** [strings.ToLower]: an all-ASCII string is lowered byte by byte (and
    returned as it is when it has no upper-case byte); any other string
    goes through the Unicode mapping. *)
Definition ToLower (U : Unicode) (s : string) : string :=
  if all_bytes is_ascii s then map_bytes lower_byte s else MapToLower U s.

(** Second loop of [strings.TrimSpace]: scan from the end over ASCII
    space; a byte [>= 0x80] hands what is left to [TrimRightFunc]. *)
Definition trim_space_stop (U : Unicode) (s : string) : string :=
  let t := trim_right is_ascii_space s in
  match last_byte t with
  | Some c => if is_ascii c then t else TrimRightFuncIsSpace U t
  | None => t
  end.

(** [strings.TrimSpace]: the first loop scans from the start over ASCII
    space; a byte [>= 0x80] hands the rest to [TrimFunc]. *)
Definition TrimSpace (U : Unicode) (s : string) : string :=
  let t := trim_left is_ascii_space s in
  match first_byte t with
  | Some c => if is_ascii c then trim_space_stop U t else TrimFuncIsSpace U t
  | None => t
  end.

(** [regexp.MustCompile(`[cls]+`).ReplaceAllString(s, repl)] for a
    replacement without [$]: every maximal run of bytes of the class is
    replaced by [repl].  The regexp engine works on runes; for a class that
    contains every byte [>= 0x80] and every rune above U+007F (as the
    negated class [[^a-z0-9]] does) the runs of runes are the runs of
    bytes.  [in_run] tells that the previous byte was in the class. *)
Fixpoint replace_runs (cls : ascii -> bool) (repl : string) (in_run : bool)
    (s : string) : string :=
  match s with
  | EmptyString => EmptyString
  | String c s' =>
      if cls c
      then (if in_run then replace_runs cls repl true s'
            else repl +:+ replace_runs cls repl true s')
      else String c (replace_runs cls repl false s')
  end.

Definition ReplaceAllString (cls : ascii -> bool) (s repl : string) : string :=
  replace_runs cls repl false s.

(** [strings.Split(s, "/")]. *)
Fixpoint split_slash (s : string) : list string :=
  match s with
  | EmptyString => [EmptyString]
  | String c s' =>
      if is_byte "/" c then EmptyString :: split_slash s'
      else match split_slash s' with
           | x :: xs => String c x :: xs
           | [] => [String c EmptyString]
           end
  end.

(** [strings.Join(elems, "/")]. *)
Fixpoint join_slash (elems : list string) : string :=
  match elems with
  | [] => EmptyString
  | [x] => x
  | x :: xs => x +:+ "/" +:+ join_slash xs
  end.

(** The loop of [filepath.Clean] over the elements of the path: empty
    elements and [.] are skipped, [..] removes the element before it, or is
    kept when a relative path has nothing left to remove, or is dropped at
    the root.  [out] is the output buffer, last element first. *)
Fixpoint clean_elems (rooted : bool) (out : list string) (elems : list string) :
    list string :=
  match elems with
  | [] => reverse out
  | e :: es =>
      if String.eqb e "" || String.eqb e "." then clean_elems rooted out es
      else if String.eqb e ".." then
        match out with
        | top :: rest =>
            if String.eqb top ".." then clean_elems rooted (e :: out) es
            else clean_elems rooted rest es
        | [] =>
            if rooted then clean_elems rooted [] es
            else clean_elems rooted [e] es
        end
      else clean_elems rooted (e :: out) es
  end.

(** [filepath.Clean] (Unix). *)
Definition Clean (path : string) : string :=
  match path with
  | EmptyString => "."
  | String c _ =>
      let rooted := is_byte "/" c in
      let body := join_slash (clean_elems rooted [] (split_slash path)) in
      if rooted then "/" +:+ body
      else if String.eqb body "" then "." else body
  end.

(** [filepath.Join]: the elements from the first non-empty one on are
    joined with the separator and the result is cleaned. *)
Fixpoint Join (elem : list string) : string :=
  match elem with
  | [] => EmptyString
  | e :: es => if String.eqb e "" then Join es else Clean (join_slash elem)
  end.

(** [filepath.Dir] (Unix): the path up to its last separator, cleaned. *)
Definition Dir (path : string) : string :=
  Clean (trim_right (fun c => negb (is_byte "/" c)) path).

(** [filepath.Base] (Unix). *)
Definition Base (path : string) : string :=
  match path with
  | EmptyString => "."
  | _ =>
      let path := trim_right (is_byte "/") path in
      match List.last (split_slash path) EmptyString with
      | EmptyString => "/"
      | e => e
      end
  end.

Definition hex_digit (n : N) : ascii :=
  ascii_of_N (if (n <? 10)%N then 48 + n else 87 + n).

(** [fmt.Sprintf("%x", b)] for a byte slice: two lower-case hexadecimal
    digits per byte. *)
Fixpoint hex (b : string) : string :=
  match b with
  | EmptyString => EmptyString
  | String c b' =>
      String (hex_digit (byte_val c / 16))
        (String (hex_digit (byte_val c mod 16)) (hex b'))
  end.

End Go.

(** ** Errors, results and the state monad of the commands *)

(** [time.Time], as the instant it denotes: nanoseconds since the zero
    [Time].  The monotonic clock reading and the location pointer are not
    part of any persisted or compared value and are left out. *)
Definition Time : Type := Z.

(** The errors the packages build; the comment gives the message. *)
Inductive error : Type :=
| ErrOs                                   (* reported by the OS or by an external command *)
| ErrNotExist                             (* an OS error for which os.IsNotExist holds *)
| ErrHomeDir (cause : error)              (* "cannot determine home directory: %w" *)
| ErrReadConfig (cause : error)           (* "failed to read config: %w" *)
| ErrParseConfig                          (* "failed to parse config: %w" *)
| ErrCreateConfigDir (cause : error)      (* "failed to create config directory: %w" *)
| ErrMarshalConfig                        (* "failed to marshal config: %w" *)
| ErrTaskNotFound (id : string)           (* "task %q not found" *)
| ErrNoTaskForWorktree (dir : string)     (* "no task found for worktree %q" *)
| ErrNotGitRepo (repoPath : string)       (* "not a git repository: %s" *)
| ErrCreateWorktree                       (* "failed to create worktree: %s\n%s" *)
| ErrRemoveWorktree                       (* "failed to remove worktree: %s\n%s" *)
| ErrDeleteBranch (branch : string)       (* "failed to delete branch %q: %s\n%s" *)
| ErrBranchExists (branch : string)       (* "branch %q already exists; use a different description or remove the existing branch" *)
| ErrCreateWorktreeDir (cause : error)    (* "failed to create worktree directory: %w" *)
| ErrTaskNotSaved (cause : error)         (* "task created but failed to save: %w" *)
| ErrFinishRemove (cause : error).        (* "failed to remove worktree: %w" *)

Inductive result (A : Type) : Type :=
| Ok (a : A)
| Err (e : error).
Arguments Ok {A} a.
Arguments Err {A} e.

Definition is_ok {A} (r : result A) : bool :=
  match r with Ok _ => true | Err _ => false end.

(** A command reads and updates a state and returns a value or an error; a
    failed command keeps the state it reached. *)
Definition M (S A : Type) : Type := S -> result A * S.

Definition ret {S A} (a : A) : M S A := fun s => (Ok a, s).

Definition fail {S A} (e : error) : M S A := fun s => (Err e, s).

Definition bind {S A B} (m : M S A) (k : A -> M S B) : M S B :=
  fun s =>
    match m s with
    | (Ok a, s') => k a s'
    | (Err e, s') => (Err e, s')
    end.

(** [if err != nil { return fmt.Errorf(".. %w", err) }] *)
Definition wrap {S A} (f : error -> error) (m : M S A) : M S A :=
  fun s =>
    match m s with
    | (Ok a, s') => (Ok a, s')
    | (Err e, s') => (Err (f e), s')
    end.

(** Run a command and hand its outcome to the caller, who decides. *)
Definition attempt {S A} (m : M S A) : M S (result A) :=
  fun s => let '(r, s') := m s in (Ok r, s').

Definition gets {S A} (f : S -> A) : M S A := fun s => (Ok (f s), s).

Definition modify {S} (f : S -> S) : M S unit := fun s => (Ok tt, f s).

Notation "'do' x <- m ; k" := (bind m (fun x => k))
  (at level 10, x name, m at level 100, k at level 200).
Notation "'run' m ; k" := (bind m (fun _ => k))
  (at level 10, m at level 100, k at level 200).

(** ** YAML documents *)

Module Yaml.

(** The documents that [yaml.Marshal] builds from the structs of package
    [config]: string and timestamp scalars, sequences, and mappings with
    string keys. *)
#[warnings="-register-all"] Inductive node : Type :=
| Str (s : string)
| Timestamp (t : Time)
| Seq (items : list node)
| Map (fields : list (string * node)).

(** The text side of [gopkg.in/yaml.v3], which is not part of the
    repository: [emit] serialises a document ([None]: the encoder reports an
    error), [parse] reads one back ([None]: the text does not parse). *)
Record Codec : Type := {
  emit : node -> option string;
  parse : string -> option node
}.

(** [`yaml:"key,omitempty"`] on a string field. *)
Definition omitempty (key value : string) : list (string * node) :=
  match value with
  | EmptyString => []
  | _ => [(key, Str value)]
  end.

(** Decoding into a string field and into a [time.Time] field.  Only the
    scalars [Marshal] builds for such a field are accepted here; yaml.v3
    also converts some foreign scalars, which no document of this program
    has. *)
Definition decode_string (n : node) : option string :=
  match n with Str s => Some s | _ => None end.

Definition decode_time (n : node) : option Time :=
  match n with Timestamp t => Some t | _ => None end.

(** Decode the fields of a mapping into a struct, in document order.
    [set key value a] stores a field, leaves [a] as it is for a key the
    struct does not have, and is [None] when the value has the wrong
    shape. *)
Fixpoint decode_fields {A} (set : string -> node -> A -> option A)
    (fields : list (string * node)) (a : A) : option A :=
  match fields with
  | [] => Some a
  | (k, v) :: rest =>
      match set k v a with
      | Some a' => decode_fields set rest a'
      | None => None
      end
  end.

(** Decode a mapping node into a struct.  yaml.v3 rejects a mapping that
    defines a key twice. *)
Definition decode_struct {A} (set : string -> node -> A -> option A)
    (n : node) (a : A) : option A :=
  match n with
  | Map fields =>
      if bool_decide (NoDup fields.*1) then decode_fields set fields a
      else None
  | _ => None
  end.

(** Decode the entries of a mapping into a Go map that already exists:
    every entry is stored, the others stay. *)
Fixpoint decode_entries {V} (dec : node -> option V)
    (fields : list (string * node)) (m : gmap string V) :
    option (gmap string V) :=
  match fields with
  | [] => Some m
  | (k, v) :: rest =>
      match dec v with
      | Some x => decode_entries dec rest (<[k := x]> m)
      | None => None
      end
  end.

Definition decode_map {V} (dec : node -> option V) (n : node)
    (m : gmap string V) : option (gmap string V) :=
  match n with
  | Map fields =>
      if bool_decide (NoDup fields.*1) then decode_entries dec fields m
      else None
  | _ => None
  end.

Fixpoint decode_items {A} (dec : node -> option A) (items : list node) :
    option (list A) :=
  match items with
  | [] => Some []
  | n :: rest =>
      match dec n, decode_items dec rest with
      | Some a, Some l => Some (a :: l)
      | _, _ => None
      end
  end.

Definition decode_seq {A} (dec : node -> option A) (n : node) :
    option (list A) :=
  match n with
  | Seq items => decode_items dec items
  | _ => None
  end.

End Yaml.

(** ** The operating system and the version-control tool *)

Module Os.

(** The calls that leave the process. *)
Inductive call : Type :=
| MkdirAll (path : string)
| ReadFile (path : string)
| WriteFile (path data : string)
| GitShowToplevel (repo : string)             (* git -C repo rev-parse --show-toplevel *)
| GitVerify (repo branch : string)            (* git -C repo rev-parse --verify branch *)
| GitWorktreeAdd (repo path branch : string)  (* git -C repo worktree add -b branch path *)
| GitWorktreeRemove (repo path : string)      (* git -C repo worktree remove path --force *)
| GitBranchDelete (repo branch : string)      (* git -C repo branch -D branch *)
| Warning (e : error).                        (* fmt.Fprintf(os.Stderr, "warning: %v\n", err) *)

(** How [os.WriteFile] ends.  It opens the file with
    [O_WRONLY|O_CREATE|O_TRUNC], writes, and closes; a failure after the
    open leaves the truncated file with the bytes written so far (in the
    words of its documentation, "a failure mid-operation can leave the file
    in a partially written state"). *)
Inductive write_fault : Type :=
| WriteOk
| OpenFails
| WriteFails (written : nat)
| CloseFails.

(** What the program cannot control: the random bytes, the clock, and
    whether a call fails for a reason outside the model (permissions, a full
    disk, a dirty repository). *)
Record Env : Type := {
  entropy : string;
  now : Time;
  fails : call -> bool;
  write_fault_at : string -> write_fault
}.

(** The resources: the home directory of the user, the regular files, the
    directories, and of the version-control tool the repositories (with the
    output of [rev-parse --show-toplevel]), their branches, and the working
    copies with the repository and branch each is bound to.  [trace] lists
    the calls made so far with their success, oldest first. *)
Record World : Type := {
  home : option string;
  files : gmap string string;
  dirs : gset string;
  toplevel : gmap string string;
  branches : gset (string * string);
  worktrees : gmap string (string * string);
  trace : list (call * bool)
}.

Definition log (c : call) (ok : bool) (w : World) : World :=
  {| home := home w; files := files w; dirs := dirs w;
     toplevel := toplevel w; branches := branches w;
     worktrees := worktrees w; trace := trace w ++ [(c, ok)] |}.

Definition set_files (f : gmap string string) (w : World) : World :=
  {| home := home w; files := f; dirs := dirs w;
     toplevel := toplevel w; branches := branches w;
     worktrees := worktrees w; trace := trace w |}.

Definition set_dirs (d : gset string) (w : World) : World :=
  {| home := home w; files := files w; dirs := d;
     toplevel := toplevel w; branches := branches w;
     worktrees := worktrees w; trace := trace w |}.

Definition set_branches (b : gset (string * string)) (w : World) : World :=
  {| home := home w; files := files w; dirs := dirs w;
     toplevel := toplevel w; branches := b;
     worktrees := worktrees w; trace := trace w |}.

Definition set_worktrees (t : gmap string (string * string)) (w : World) :
    World :=
  {| home := home w; files := files w; dirs := dirs w;
     toplevel := toplevel w; branches := branches w;
     worktrees := t; trace := trace w |}.

Section Calls.
Context (env : Env).

(** [os.UserHomeDir]: the value of [$HOME], an error when it is not set. *)
Definition UserHomeDir : M World string :=
  fun w =>
    match home w with
    | Some h => (Ok h, w)
    | None => (Err ErrOs, w)
    end.

Definition do_MkdirAll (path : string) : M World unit :=
  fun w =>
    let c := MkdirAll path in
    if fails env c then (Err ErrOs, log c false w)
    else (Ok tt, log c true (set_dirs ({[path]} ∪ dirs w) w)).

Definition do_ReadFile (path : string) : M World string :=
  fun w =>
    let c := ReadFile path in
    if fails env c then (Err ErrOs, log c false w)
    else match files w !! path with
         | Some data => (Ok data, log c true w)
         | None => (Err ErrNotExist, log c false w)
         end.

Definition do_WriteFile (path data : string) : M World unit :=
  fun w =>
    let c := WriteFile path data in
    match write_fault_at env path with
    | WriteOk => (Ok tt, log c true (set_files (<[path := data]> (files w)) w))
    | OpenFails => (Err ErrOs, log c false w)
    | WriteFails n =>
        (Err ErrOs,
         log c false (set_files (<[path := Go.slice_to n data]> (files w)) w))
    | CloseFails =>
        (Err ErrOs, log c false (set_files (<[path := data]> (files w)) w))
    end.

(** A git command: [Some] with its standard output when it exits with
    status zero.  The state conditions follow the contract of the
    WorktreeCoordinator: [worktree add -b] needs a new branch and a free
    path, [worktree remove] a working copy of the repository at the path,
    [branch -D] an existing branch. *)
Definition git (c : call) : World -> option string * World :=
  fun w =>
    if fails env c then (None, log c false w)
    else
      match c with
      | GitShowToplevel repo =>
          match toplevel w !! repo with
          | Some out => (Some out, log c true w)
          | None => (None, log c false w)
          end
      | GitVerify repo branch =>
          if bool_decide ((repo, branch) ∈ branches w)
          then (Some branch, log c true w)
          else (None, log c false w)
      | GitWorktreeAdd repo path branch =>
          if bool_decide ((repo, branch) ∈ branches w)
             || bool_decide (is_Some (worktrees w !! path))
          then (None, log c false w)
          else
            (Some EmptyString,
             log c true
               (set_worktrees (<[path := (repo, branch)]> (worktrees w))
                  (set_branches ({[(repo, branch)]} ∪ branches w)
                     (set_dirs ({[path]} ∪ dirs w) w))))
      | GitWorktreeRemove repo path =>
          match worktrees w !! path with
          | Some (repo', _) =>
              if String.eqb repo' repo
              then (Some EmptyString,
                    log c true
                      (set_worktrees (delete path (worktrees w))
                         (set_dirs (dirs w ∖ {[path]}) w)))
              else (None, log c false w)
          | None => (None, log c false w)
          end
      | GitBranchDelete repo branch =>
          if bool_decide ((repo, branch) ∈ branches w)
          then (Some EmptyString,
                log c true (set_branches (branches w ∖ {[(repo, branch)]}) w))
          else (None, log c false w)
      | _ => (None, log c false w)
      end.

Definition warn (e : error) : M World unit :=
  fun w => (Ok tt, log (Warning e) true w).

End Calls.
End Os.

(** ** Package [config]: the persisted registry *)

Module config.

Definition configDir : string := ".wt".
Definition configFile : string := "config.yaml".

Record ConnectorConfig : Type := {
  URL : string;         (* `yaml:"url,omitempty"` *)
  Email : string;       (* `yaml:"email,omitempty"` *)
  APIToken : string;    (* `yaml:"api_token,omitempty"` *)
  Project : string      (* `yaml:"project,omitempty"` *)
}.

Record Task : Type := {
  ID : string;          (* `yaml:"id"` *)
  Description : string; (* `yaml:"description"` *)
  Worktree : string;    (* `yaml:"worktree"` *)
  Branch : string;      (* `yaml:"branch"` *)
  RepoPath : string;    (* `yaml:"repo_path"` *)
  Connector : string;   (* `yaml:"connector,omitempty"` *)
  TicketKey : string;   (* `yaml:"ticket_key,omitempty"` *)
  Created : Time        (* `yaml:"created"` *)
}.

(** The mutex [mu] has no counterpart: the commands run one at a time. *)
Record Config : Type := {
  WorktreesBase : string;                    (* `yaml:"worktrees_base"` *)
  DefaultBranch : string;                    (* `yaml:"default_branch"` *)
  BranchPrefix : string;                     (* `yaml:"branch_prefix"` *)
  DefaultAgent : string;                     (* `yaml:"default_agent,omitempty"` *)
  AgentAliases : gmap string string;         (* `yaml:"agent_aliases,omitempty"` *)
  Connectors : gmap string ConnectorConfig;  (* `yaml:"connectors,omitempty"` *)
  Tasks : list Task;                         (* `yaml:"tasks,omitempty"` *)
  path : string                              (* `yaml:"-"` *)
}.

Definition set_Tasks (l : list Task) (c : Config) : Config :=
  {| WorktreesBase := WorktreesBase c; DefaultBranch := DefaultBranch c;
     BranchPrefix := BranchPrefix c; DefaultAgent := DefaultAgent c;
     AgentAliases := AgentAliases c; Connectors := Connectors c;
     Tasks := l; path := path c |}.

Definition set_path (p : string) (c : Config) : Config :=
  {| WorktreesBase := WorktreesBase c; DefaultBranch := DefaultBranch c;
     BranchPrefix := BranchPrefix c; DefaultAgent := DefaultAgent c;
     AgentAliases := AgentAliases c; Connectors := Connectors c;
     Tasks := Tasks c; path := p |}.

Definition set_Connectors (m : gmap string ConnectorConfig) (c : Config) :
    Config :=
  {| WorktreesBase := WorktreesBase c; DefaultBranch := DefaultBranch c;
     BranchPrefix := BranchPrefix c; DefaultAgent := DefaultAgent c;
     AgentAliases := AgentAliases c; Connectors := m;
     Tasks := Tasks c; path := path c |}.

(** *** What [yaml.Marshal] and [yaml.Unmarshal] do with the structs *)

Definition encode_ConnectorConfig (cc : ConnectorConfig) : Yaml.node :=
  Yaml.Map (Yaml.omitempty "url" (URL cc) ++
            Yaml.omitempty "email" (Email cc) ++
            Yaml.omitempty "api_token" (APIToken cc) ++
            Yaml.omitempty "project" (Project cc)).

Definition encode_Task (t : Task) : Yaml.node :=
  Yaml.Map ([("id", Yaml.Str (ID t));
             ("description", Yaml.Str (Description t));
             ("worktree", Yaml.Str (Worktree t));
             ("branch", Yaml.Str (Branch t));
             ("repo_path", Yaml.Str (RepoPath t))] ++
            Yaml.omitempty "connector" (Connector t) ++
            Yaml.omitempty "ticket_key" (TicketKey t) ++
            [("created", Yaml.Timestamp (Created t))]).

(** A Go map under [omitempty]: left out when it has no entry. *)
Definition encode_map {V} (key : string) (enc : V -> Yaml.node)
    (m : gmap string V) : list (string * Yaml.node) :=
  match map_to_list m with
  | [] => []
  | l => [(key, Yaml.Map (prod_map id enc <$> l))]
  end.

Definition encode_Tasks (l : list Task) : list (string * Yaml.node) :=
  match l with
  | [] => []
  | _ => [("tasks", Yaml.Seq (encode_Task <$> l))]
  end.

Definition encode_Config (c : Config) : Yaml.node :=
  Yaml.Map ([("worktrees_base", Yaml.Str (WorktreesBase c));
             ("default_branch", Yaml.Str (DefaultBranch c));
             ("branch_prefix", Yaml.Str (BranchPrefix c))] ++
            Yaml.omitempty "default_agent" (DefaultAgent c) ++
            encode_map "agent_aliases" Yaml.Str (AgentAliases c) ++
            encode_map "connectors" encode_ConnectorConfig (Connectors c) ++
            encode_Tasks (Tasks c)).

Definition set_ConnectorConfig_field (k : string) (v : Yaml.node)
    (cc : ConnectorConfig) : option ConnectorConfig :=
  if String.eqb k "url" then
    s ← Yaml.decode_string v;
    Some {| URL := s; Email := Email cc; APIToken := APIToken cc;
            Project := Project cc |}
  else if String.eqb k "email" then
    s ← Yaml.decode_string v;
    Some {| URL := URL cc; Email := s; APIToken := APIToken cc;
            Project := Project cc |}
  else if String.eqb k "api_token" then
    s ← Yaml.decode_string v;
    Some {| URL := URL cc; Email := Email cc; APIToken := s;
            Project := Project cc |}
  else if String.eqb k "project" then
    s ← Yaml.decode_string v;
    Some {| URL := URL cc; Email := Email cc; APIToken := APIToken cc;
            Project := s |}
  else Some cc.

Definition decode_ConnectorConfig (n : Yaml.node) : option ConnectorConfig :=
  Yaml.decode_struct set_ConnectorConfig_field n
    {| URL := ""; Email := ""; APIToken := ""; Project := "" |}.

Definition set_Task_field (k : string) (v : Yaml.node) (t : Task) :
    option Task :=
  if String.eqb k "id" then
    s ← Yaml.decode_string v;
    Some {| ID := s; Description := Description t; Worktree := Worktree t;
            Branch := Branch t; RepoPath := RepoPath t;
            Connector := Connector t; TicketKey := TicketKey t;
            Created := Created t |}
  else if String.eqb k "description" then
    s ← Yaml.decode_string v;
    Some {| ID := ID t; Description := s; Worktree := Worktree t;
            Branch := Branch t; RepoPath := RepoPath t;
            Connector := Connector t; TicketKey := TicketKey t;
            Created := Created t |}
  else if String.eqb k "worktree" then
    s ← Yaml.decode_string v;
    Some {| ID := ID t; Description := Description t; Worktree := s;
            Branch := Branch t; RepoPath := RepoPath t;
            Connector := Connector t; TicketKey := TicketKey t;
            Created := Created t |}
  else if String.eqb k "branch" then
    s ← Yaml.decode_string v;
    Some {| ID := ID t; Description := Description t; Worktree := Worktree t;
            Branch := s; RepoPath := RepoPath t;
            Connector := Connector t; TicketKey := TicketKey t;
            Created := Created t |}
  else if String.eqb k "repo_path" then
    s ← Yaml.decode_string v;
    Some {| ID := ID t; Description := Description t; Worktree := Worktree t;
            Branch := Branch t; RepoPath := s;
            Connector := Connector t; TicketKey := TicketKey t;
            Created := Created t |}
  else if String.eqb k "connector" then
    s ← Yaml.decode_string v;
    Some {| ID := ID t; Description := Description t; Worktree := Worktree t;
            Branch := Branch t; RepoPath := RepoPath t;
            Connector := s; TicketKey := TicketKey t;
            Created := Created t |}
  else if String.eqb k "ticket_key" then
    s ← Yaml.decode_string v;
    Some {| ID := ID t; Description := Description t; Worktree := Worktree t;
            Branch := Branch t; RepoPath := RepoPath t;
            Connector := Connector t; TicketKey := s;
            Created := Created t |}
  else if String.eqb k "created" then
    x ← Yaml.decode_time v;
    Some {| ID := ID t; Description := Description t; Worktree := Worktree t;
            Branch := Branch t; RepoPath := RepoPath t;
            Connector := Connector t; TicketKey := TicketKey t;
            Created := x |}
  else Some t.

(** A sequence item is decoded into a fresh, zero [Task]. *)
Definition decode_Task (n : Yaml.node) : option Task :=
  Yaml.decode_struct set_Task_field n
    {| ID := ""; Description := ""; Worktree := ""; Branch := "";
       RepoPath := ""; Connector := ""; TicketKey := ""; Created := 0%Z |}.

Definition set_Config_field (k : string) (v : Yaml.node) (c : Config) :
    option Config :=
  if String.eqb k "worktrees_base" then
    s ← Yaml.decode_string v;
    Some {| WorktreesBase := s; DefaultBranch := DefaultBranch c;
            BranchPrefix := BranchPrefix c; DefaultAgent := DefaultAgent c;
            AgentAliases := AgentAliases c; Connectors := Connectors c;
            Tasks := Tasks c; path := path c |}
  else if String.eqb k "default_branch" then
    s ← Yaml.decode_string v;
    Some {| WorktreesBase := WorktreesBase c; DefaultBranch := s;
            BranchPrefix := BranchPrefix c; DefaultAgent := DefaultAgent c;
            AgentAliases := AgentAliases c; Connectors := Connectors c;
            Tasks := Tasks c; path := path c |}
  else if String.eqb k "branch_prefix" then
    s ← Yaml.decode_string v;
    Some {| WorktreesBase := WorktreesBase c; DefaultBranch := DefaultBranch c;
            BranchPrefix := s; DefaultAgent := DefaultAgent c;
            AgentAliases := AgentAliases c; Connectors := Connectors c;
            Tasks := Tasks c; path := path c |}
  else if String.eqb k "default_agent" then
    s ← Yaml.decode_string v;
    Some {| WorktreesBase := WorktreesBase c; DefaultBranch := DefaultBranch c;
            BranchPrefix := BranchPrefix c; DefaultAgent := s;
            AgentAliases := AgentAliases c; Connectors := Connectors c;
            Tasks := Tasks c; path := path c |}
  else if String.eqb k "agent_aliases" then
    m ← Yaml.decode_map Yaml.decode_string v (AgentAliases c);
    Some {| WorktreesBase := WorktreesBase c; DefaultBranch := DefaultBranch c;
            BranchPrefix := BranchPrefix c; DefaultAgent := DefaultAgent c;
            AgentAliases := m; Connectors := Connectors c;
            Tasks := Tasks c; path := path c |}
  else if String.eqb k "connectors" then
    m ← Yaml.decode_map decode_ConnectorConfig v (Connectors c);
    Some (set_Connectors m c)
  else if String.eqb k "tasks" then
    l ← Yaml.decode_seq decode_Task v;
    Some (set_Tasks l c)
  else Some c.

(** Run a command on the resources from a method of [*Config]. *)
Definition in_world {A} (m : M Os.World A) : M (Config * Os.World) A :=
  fun '(c, w) => let '(r, w') := m w in (r, (c, w')).

Definition update (f : Config -> Config) : M (Config * Os.World) unit :=
  modify (fun '(c, w) => (f c, w)).

(** [for i := range c.Tasks { if c.Tasks[i].key == x { .. } }]: the first
    slot of the slice whose task has the key, with the task in it. *)
Fixpoint find_slot (key : Task -> string) (x : string) (l : list Task) :
    option (nat * Task) :=
  match l with
  | [] => None
  | t :: l' =>
      if String.eqb (key t) x then Some (0, t)
      else prod_map S id <$> find_slot key x l'
  end.

Section Methods.
Context (env : Os.Env) (Y : Yaml.Codec).

Definition Marshal (c : Config) : option string :=
  Yaml.emit Y (encode_Config c).

(** [yaml.Unmarshal(data, cfg)]: the fields named in the document are
    stored into [cfg], the others keep the value they have. *)
Definition Unmarshal (data : string) (cfg : Config) : option Config :=
  match Yaml.parse Y data with
  | Some doc => Yaml.decode_struct set_Config_field doc cfg
  | None => None
  end.

Definition DefaultConfig : M Os.World Config :=
  do h <- attempt Os.UserHomeDir;
  let home := match h with Ok h => h | Err _ => "" end in
  ret {| WorktreesBase := Go.Join [home; "worktrees"];
         DefaultBranch := "main";
         BranchPrefix := "feature";
         DefaultAgent := "";
         AgentAliases := ∅;
         Connectors := ∅;
         Tasks := [];
         path := "" |}.

Definition ConfigDir : M Os.World string :=
  do home <- wrap ErrHomeDir Os.UserHomeDir;
  ret (Go.Join [home; configDir]).

Definition Load : M Os.World Config :=
  do dir <- ConfigDir;
  let path := Go.Join [dir; configFile] in
  do cfg <- DefaultConfig;
  let cfg := set_path path cfg in
  do r <- attempt (Os.do_ReadFile env path);
  match r with
  | Err ErrNotExist => ret cfg
  | Err e => fail (ErrReadConfig e)
  | Ok data =>
      match Unmarshal data cfg with
      | None => fail ErrParseConfig
      | Some cfg => ret cfg
      end
  end.

Definition Save : M (Config * Os.World) unit :=
  do p <- gets (fun s => path (fst s));
  run (if String.eqb p ""
       then do dir <- in_world ConfigDir;
            update (set_path (Go.Join [dir; configFile]))
       else ret tt);
  do p <- gets (fun s => path (fst s));
  run wrap ErrCreateConfigDir (in_world (Os.do_MkdirAll env (Go.Dir p)));
  do c <- gets fst;
  match Marshal c with
  | None => fail ErrMarshalConfig
  | Some data => in_world (Os.do_WriteFile env p data)
  end.

Definition AddTask (t : Task) : M (Config * Os.World) unit :=
  run update (fun c => set_Tasks (Tasks c ++ [t]) c);
  Save.

Definition RemoveTask (id : string) : M (Config * Os.World) unit :=
  do tasks <- gets (fun s => Tasks (fst s));
  match find_slot ID id tasks with
  | Some (i, _) =>
      run update (set_Tasks (take i tasks ++ drop (i + 1) tasks));
      Save
  | None => fail (ErrTaskNotFound id)
  end.

(** [FindTask] returns [&c.Tasks[i]]: the slot, and here also the task the
    slot holds at that moment. *)
Definition FindTask (c : Config) (id : string) : result (nat * Task) :=
  match find_slot ID id (Tasks c) with
  | Some p => Ok p
  | None => Err (ErrTaskNotFound id)
  end.

Definition FindTaskByWorktree (c : Config) (dir : string) :
    result (nat * Task) :=
  match find_slot Worktree dir (Tasks c) with
  | Some p => Ok p
  | None => Err (ErrNoTaskForWorktree dir)
  end.

Definition SetConnector (name : string) (cc : ConnectorConfig) :
    M (Config * Os.World) unit :=
  run update (fun c => set_Connectors (<[name := cc]> (Connectors c)) c);
  Save.

End Methods.
End config.

(** ** Package [worktree]: branch names *)

Module worktree.
Section Functions.
Context (U : Unicode) (env : Os.Env).

(** The class [[^a-z0-9]]. *)
Definition re (c : ascii) : bool := negb (is_lower_alnum c).

Definition SanitizeBranchName (description : string) : string :=
  let s := Go.ToLower U (Go.TrimSpace U description) in
  let s := Go.ReplaceAllString re s "-" in
  let s := Go.Trim s "-" in
  if (60 <? String.length s)%nat
  then
    let s := Go.slice_to 60 s in
    Go.TrimRight s "-"
  else s.

Definition BranchName (prefix description : string) : string :=
  let sanitized := SanitizeBranchName description in
  if String.eqb prefix "" then sanitized
  else prefix +:+ "/" +:+ sanitized.

Definition BranchNameFromTicket (prefix ticketKey summary : string) : string :=
  let sanitized := SanitizeBranchName summary in
  let key := Go.ToLower U ticketKey in
  let name := key +:+ "-" +:+ sanitized in
  let name :=
    if (60 <? String.length name)%nat
    then Go.TrimRight (Go.slice_to 60 name) "-"
    else name in
  if String.eqb prefix "" then name
  else prefix +:+ "/" +:+ name.

(** [cmd.Output()], [cmd.CombinedOutput()] or [cmd.Run()] of a git command,
    with the error the function makes of a failure. *)
Definition git_or (e : error) (c : Os.call) : M Os.World string :=
  fun w =>
    match Os.git env c w with
    | (Some out, w') => (Ok out, w')
    | (None, w') => (Err e, w')
    end.

Definition RepoName (repoPath : string) : M Os.World string :=
  do out <- git_or (ErrNotGitRepo repoPath) (Os.GitShowToplevel repoPath);
  ret (Go.Base (Go.TrimSpace U out)).

Definition Create (repoPath worktreePath branch : string) : M Os.World unit :=
  run git_or ErrCreateWorktree (Os.GitWorktreeAdd repoPath worktreePath branch);
  ret tt.

Definition Remove (repoPath worktreePath : string) : M Os.World unit :=
  run git_or ErrRemoveWorktree (Os.GitWorktreeRemove repoPath worktreePath);
  ret tt.

Definition DeleteBranch (repoPath branch : string) : M Os.World unit :=
  run git_or (ErrDeleteBranch branch) (Os.GitBranchDelete repoPath branch);
  ret tt.

Definition BranchExists (repoPath branch : string) : M Os.World bool :=
  do r <- attempt (git_or ErrOs (Os.GitVerify repoPath branch));
  ret (is_ok r).

End Functions.
End worktree.

(** ** Package [task]: the lifecycle of a task *)

Module task.

Record StartOptions : Type := {
  Description : string;
  RepoPath : string;
  Connector : string;
  TicketKey : string;
  TicketTitle : string
}.

(** [b := make([]byte, n); rand.Read(b)]: the bytes the source of
    randomness delivers; a slot it does not fill stays zero. *)
Fixpoint random_bytes (n : nat) (e : string) : string :=
  match n with
  | 0 => EmptyString
  | S n' =>
      match e with
      | EmptyString => String zero (random_bytes n' EmptyString)
      | String c e' => String c (random_bytes n' e')
      end
  end.

(** The slice after [append(tasks[:i], tasks[i+1:]...)] shares its array
    with the slice before: slot [i] now holds the task that followed, and
    the last slot keeps its old content.  This is what a pointer to slot [i]
    taken before the removal shows afterwards. *)
Definition slot_after_removal (tasks : list config.Task) (i : nat)
    (t : config.Task) : config.Task :=
  match tasks !! (i + 1) with
  | Some t' => t'
  | None => t
  end.

Section Manager.
Context (U : Unicode) (env : Os.Env) (Y : Yaml.Codec).

Definition generateID : string :=
  "wt-" +:+ Go.hex (random_bytes 4 (Os.entropy env)).

Definition Start (opts : StartOptions) : M (config.Config * Os.World) config.Task :=
  do repoName <- config.in_world (worktree.RepoName U env (RepoPath opts));
  let id := generateID in
  do prefix <- gets (fun s => config.BranchPrefix (fst s));
  let branch :=
    if negb (String.eqb (TicketKey opts) "")
    then
      let title := TicketTitle opts in
      let title := if String.eqb title "" then Description opts else title in
      worktree.BranchNameFromTicket U prefix (TicketKey opts) title
    else worktree.BranchName U prefix (Description opts) in
  do taken <- config.in_world (worktree.BranchExists env (RepoPath opts) branch);
  if taken : bool then fail (ErrBranchExists branch)
  else
    do base <- gets (fun s => config.WorktreesBase (fst s));
    let wtPath :=
      Go.Join [base; repoName; worktree.SanitizeBranchName U (Description opts)] in
    run wrap ErrCreateWorktreeDir
          (config.in_world (Os.do_MkdirAll env (Go.Dir wtPath)));
    run config.in_world (worktree.Create env (RepoPath opts) wtPath branch);
    let task :=
      {| config.ID := id;
         config.Description := Description opts;
         config.Worktree := wtPath;
         config.Branch := branch;
         config.RepoPath := RepoPath opts;
         config.Connector := Connector opts;
         config.TicketKey := TicketKey opts;
         config.Created := Os.now env |} in
    run wrap ErrTaskNotSaved (config.AddTask env Y task);
    ret task.

Definition Finish (id : string) : M (config.Config * Os.World) config.Task :=
  do c <- gets fst;
  match config.FindTask c id with
  | Err e => fail e
  | Ok (i, t) =>
      run wrap ErrFinishRemove
            (config.in_world
               (worktree.Remove env (config.RepoPath t) (config.Worktree t)));
      do r <- attempt
                (config.in_world
                   (worktree.DeleteBranch env (config.RepoPath t)
                      (config.Branch t)));
      run match r with
          | Err e => config.in_world (Os.warn e)
          | Ok _ => ret tt
          end;
      run config.RemoveTask env Y id;
      ret (slot_after_removal (config.Tasks c) i t)
  end.

Definition Remove (id : string) : M (config.Config * Os.World) config.Task :=
  do c <- gets fst;
  match config.FindTask c id with
  | Err e => fail e
  | Ok (i, t) =>
      run wrap ErrFinishRemove
            (config.in_world
               (worktree.Remove env (config.RepoPath t) (config.Worktree t)));
      run config.RemoveTask env Y id;
      ret (slot_after_removal (config.Tasks c) i t)
  end.

End Manager.
End task.

(** ** Vocabulary of the specification *)

Abbreviation hyphen := (is_byte "-").

(** A slug: bytes of [a-z0-9] and single hyphens between them.
    [slug_from h s] says that [s] continues a slug whose previous byte was a
    hyphen ([h = true]) or was not. *)
Fixpoint slug_from (after_hyphen : bool) (s : string) : Prop :=
  match s with
  | EmptyString => True
  | String c s' =>
      if is_byte "-" c then after_hyphen = false /\ slug_from true s'
      else is_lower_alnum c = true /\ slug_from false s'
  end.

(** Instance of the Unicode fall-backs used to run the model on ASCII
    input, where they are never reached. *)
Definition ascii_only : Unicode :=
  {| MapToLower := fun s => s;
     TrimFuncIsSpace := fun s => s;
     TrimRightFuncIsSpace := fun s => s |}.

(** The 60-byte cap of NameSanitizer: truncate, then drop the hyphens that
    the truncation left at the end. *)
Definition cap60 (s : string) : string :=
  if (String.length s <=? 60)%nat then s
  else Go.trim_right (is_byte "-") (Go.slice_to 60 s).

(** [prefix + "/"] in front of a name, when the prefix is not empty. *)
Definition with_prefix (prefix name : string) : string :=
  match prefix with
  | EmptyString => name
  | _ => prefix +:+ "/" +:+ name
  end.

(** [fromTicket] in the words of BranchNamer: the composition
    [sanitize(ticketKey) + "-" + sanitize(summary)], capped, prefixed. *)
Definition fromTicket_spec (U : Unicode) (prefix ticketKey summary : string) :
    string :=
  with_prefix prefix
    (cap60 (worktree.SanitizeBranchName U ticketKey +:+ "-" +:+
            worktree.SanitizeBranchName U summary)).

(** The registry file of the user whose home directory is [h]. *)
Definition registry_file (h : string) : string :=
  Go.Join [Go.Join [h; config.configDir]; config.configFile].

(** The registry in memory and the resources after a command. *)
Definition config_after {A} (x : result A * (config.Config * Os.World)) :
    config.Config := fst (snd x).

Definition world_after {A} (x : result A * (config.Config * Os.World)) :
    Os.World := snd (snd x).

Definition is_some {A} (o : option A) : bool :=
  match o with Some _ => true | None => false end.

(** The calls made between two states of the resources. *)
Definition new_calls (w w' : Os.World) : list (Os.call * bool) :=
  drop (length (Os.trace w)) (Os.trace w').

(** The calls to the file system. *)
Definition is_fs_call (c : Os.call) : bool :=
  match c with
  | Os.MkdirAll _ | Os.ReadFile _ | Os.WriteFile _ _ => true
  | _ => false
  end.

(** Two states of the resources that differ at most in the trace. *)
Definition same_resources (w w' : Os.World) : Prop :=
  Os.home w' = Os.home w /\ Os.files w' = Os.files w /\
  Os.dirs w' = Os.dirs w /\ Os.toplevel w' = Os.toplevel w /\
  Os.branches w' = Os.branches w /\ Os.worktrees w' = Os.worktrees w.

(** The branch name [Start] computes for a request: from the ticket when
    the request has a ticket key (with the ticket title, or the description
    when the title is empty), from the description otherwise. *)
Definition computed_branch (U : Unicode) (prefix : string)
    (opts : task.StartOptions) : string :=
  match task.TicketKey opts with
  | EmptyString => worktree.BranchName U prefix (task.Description opts)
  | key =>
      worktree.BranchNameFromTicket U prefix key
        (match task.TicketTitle opts with
         | EmptyString => task.Description opts
         | title => title
         end)
  end.

(** The environment in which every deletion of a branch fails, and nothing
    else changes. *)
Definition failing_branch_delete (env : Os.Env) : Os.Env :=
  {| Os.entropy := Os.entropy env;
     Os.now := Os.now env;
     Os.fails := fun c =>
       match c with
       | Os.GitBranchDelete _ _ => true
       | _ => Os.fails env c
       end;
     Os.write_fault_at := Os.write_fault_at env |}.

(** No two tasks share an id, and no two tasks share a worktree path. *)
Definition registry_unique (c : config.Config) : Prop :=
  NoDup (config.ID <$> config.Tasks c) /\
  NoDup (config.Worktree <$> config.Tasks c).

(** ** A reference codec and a reference environment for the examples *)

(** A self-delimiting text format for documents.  It stands in for the
    YAML syntax where an example has to run; the theorems are stated for an
    arbitrary codec. *)
Module TextCodec.

Fixpoint emit_string (s : string) (k : string) : string :=
  match s with
  | EmptyString => String "0" k
  | String c s' => String "1" (String c (emit_string s' k))
  end.

Fixpoint emit_pos (p : positive) (k : string) : string :=
  match p with
  | xH => String "." k
  | xO p' => String "0" (emit_pos p' k)
  | xI p' => String "1" (emit_pos p' k)
  end.

Definition emit_Z (z : Z) (k : string) : string :=
  match z with
  | Z0 => String "z" k
  | Zpos p => String "+" (emit_pos p k)
  | Zneg p => String "-" (emit_pos p k)
  end.

Fixpoint emit_node (n : Yaml.node) (k : string) : string :=
  match n with
  | Yaml.Str s => String "S" (emit_string s k)
  | Yaml.Timestamp t => String "T" (emit_Z t k)
  | Yaml.Seq l =>
      String "L"
        ((fix items (l : list Yaml.node) : string :=
            match l with
            | [] => String "0" k
            | x :: l' => String "1" (emit_node x (items l'))
            end) l)
  | Yaml.Map kv =>
      String "M"
        ((fix fields (kv : list (string * Yaml.node)) : string :=
            match kv with
            | [] => String "0" k
            | (key, v) :: kv' =>
                String "1" (emit_string key (emit_node v (fields kv')))
            end) kv)
  end.

Fixpoint parse_string (s : string) : option (string * string) :=
  match s with
  | String "0" r => Some (EmptyString, r)
  | String "1" (String c r) =>
      '(x, r') ← parse_string r; Some (String c x, r')
  | _ => None
  end.

Fixpoint parse_pos (s : string) : option (positive * string) :=
  match s with
  | String "." r => Some (xH, r)
  | String "0" r => '(p, r') ← parse_pos r; Some (xO p, r')
  | String "1" r => '(p, r') ← parse_pos r; Some (xI p, r')
  | _ => None
  end.

Definition parse_Z (s : string) : option (Z * string) :=
  match s with
  | String "z" r => Some (Z0, r)
  | String "+" r => '(p, r') ← parse_pos r; Some (Zpos p, r')
  | String "-" r => '(p, r') ← parse_pos r; Some (Zneg p, r')
  | _ => None
  end.

Fixpoint parse_node (fuel : nat) (s : string) : option (Yaml.node * string) :=
  match fuel with
  | 0 => None
  | S f =>
      match s with
      | String "S" r => '(x, r') ← parse_string r; Some (Yaml.Str x, r')
      | String "T" r => '(t, r') ← parse_Z r; Some (Yaml.Timestamp t, r')
      | String "L" r => '(l, r') ← parse_items f r; Some (Yaml.Seq l, r')
      | String "M" r => '(kv, r') ← parse_fields f r; Some (Yaml.Map kv, r')
      | _ => None
      end
  end
with parse_items (fuel : nat) (s : string) :
    option (list Yaml.node * string) :=
  match fuel with
  | 0 => None
  | S f =>
      match s with
      | String "0" r => Some ([], r)
      | String "1" r =>
          '(x, r1) ← parse_node f r;
          '(xs, r2) ← parse_items f r1;
          Some (x :: xs, r2)
      | _ => None
      end
  end
with parse_fields (fuel : nat) (s : string) :
    option (list (string * Yaml.node) * string) :=
  match fuel with
  | 0 => None
  | S f =>
      match s with
      | String "0" r => Some ([], r)
      | String "1" r =>
          '(key, r1) ← parse_string r;
          '(v, r2) ← parse_node f r1;
          '(kv, r3) ← parse_fields f r2;
          Some ((key, v) :: kv, r3)
      | _ => None
      end
  end.

Definition codec : Yaml.Codec :=
  {| Yaml.emit := fun n => Some (emit_node n EmptyString);
     Yaml.parse := fun s =>
       match parse_node (S (String.length s)) s with
       | Some (n, EmptyString) => Some n
       | _ => None
       end |}.

End TextCodec.

(** An environment in which nothing fails, and the resources of a user
    with one repository. *)
Module Sample.

Definition env : Os.Env :=
  {| Os.entropy := "wxyz";
     Os.now := 63900000000000000000%Z;
     Os.fails := fun _ => false;
     Os.write_fault_at := fun _ => Os.WriteOk |}.

Definition world : Os.World :=
  {| Os.home := Some "/home/dev";
     Os.files := ∅;
     Os.dirs := ∅;
     Os.toplevel := {[ "/src/app" := "/src/app" +:+ String "010" "" ]};
     Os.branches := {[ ("/src/app", "main") ]};
     Os.worktrees := ∅;
     Os.trace := [] |}.

Definition cfg : config.Config :=
  {| config.WorktreesBase := "/home/dev/worktrees";
     config.DefaultBranch := "main";
     config.BranchPrefix := "feature";
     config.DefaultAgent := "";
     config.AgentAliases := ∅;
     config.Connectors := ∅;
     config.Tasks := [];
     config.path := "" |}.

Definition task1 : config.Task :=
  {| config.ID := "wt-7778797a";
     config.Description := "add user authentication";
     config.Worktree := "/home/dev/worktrees/app/add-user-authentication";
     config.Branch := "feature/add-user-authentication";
     config.RepoPath := "/src/app";
     config.Connector := "";
     config.TicketKey := "";
     config.Created := 63900000000000000000%Z |}.

(** The text of a registry in the reference codec. *)
Definition stored (c : config.Config) : string :=
  TextCodec.emit_node (config.encode_Config c) EmptyString.

(** The disk gives up after [n] bytes of every write. *)
Definition env_disk_full (n : nat) : Os.Env :=
  {| Os.entropy := Os.entropy env;
     Os.now := Os.now env;
     Os.fails := fun _ => false;
     Os.write_fault_at := fun _ => Os.WriteFails n |}.

Definition opts1 : task.StartOptions :=
  {| task.Description := "add user authentication";
     task.RepoPath := "/src/app";
     task.Connector := "";
     task.TicketKey := "";
     task.TicketTitle := "" |}.

(** A ticket whose summary has no letter and no digit. *)
Definition opts_ticket : task.StartOptions :=
  {| task.Description := "???";
     task.RepoPath := "/src/app";
     task.Connector := "jira";
     task.TicketKey := "PROJ-1";
     task.TicketTitle := "???" |}.

(** The resources after the task of [opts1] has been started. *)
Definition world1 : Os.World :=
  Os.set_worktrees
    {[ "/home/dev/worktrees/app/add-user-authentication" :=
         ("/src/app", "feature/add-user-authentication") ]}
    (Os.set_branches
       {[ ("/src/app", "main");
          ("/src/app", "feature/add-user-authentication") ]}
       world).

(** The registry and the resources after the task of [opts1] has been
    started. *)
Definition cfg1 : config.Config := config.set_Tasks [task1] cfg.

Definition task2 : config.Task :=
  {| config.ID := "wt-00c0ffee";
     config.Description := "fix crash on startup";
     config.Worktree := "/home/dev/worktrees/app/fix-crash-on-startup";
     config.Branch := "feature/fix-crash-on-startup";
     config.RepoPath := "/src/app";
     config.Connector := "";
     config.TicketKey := "";
     config.Created := 63900000000000000001%Z |}.

(** Two tasks, registered in this order, with their working copies. *)
Definition cfg2 : config.Config := config.set_Tasks [task1; task2] cfg.

Definition world2 : Os.World :=
  Os.set_worktrees
    (<[ "/home/dev/worktrees/app/fix-crash-on-startup" :=
          ("/src/app", "feature/fix-crash-on-startup") ]>
       (Os.worktrees world1))
    (Os.set_branches
       ({[ ("/src/app", "feature/fix-crash-on-startup") ]} ∪ Os.branches world1)
       world1).

Definition start (opts : task.StartOptions) :
    M (config.Config * Os.World) config.Task :=
  task.Start ascii_only env TextCodec.codec opts.

End Sample.

(** ** More of the packages: listings, agents and the command line *)

(** Package [strings], as far as the functions below use it, for a
    separator of one byte. *)
Module Str.

(** [strings.Split(s, sep)]: the substrings between the separators; a
    string without separator, the empty one too, gives one element. *)
Fixpoint Split (s : string) (sep : ascii) : list string :=
  match s with
  | EmptyString => [EmptyString]
  | String c s' =>
      if is_byte sep c then EmptyString :: Split s' sep
      else match Split s' sep with
           | x :: xs => String c x :: xs
           | [] => [String c EmptyString]
           end
  end.

(** [strings.HasPrefix(s, prefix)]. *)
Fixpoint HasPrefix (s prefix : string) {struct prefix} : bool :=
  match prefix, s with
  | EmptyString, _ => true
  | String a prefix', String b s' => Ascii.eqb a b && HasPrefix s' prefix'
  | String _ _, EmptyString => false
  end.

(** [s[n:]], for [n <= len(s)]. *)
Fixpoint slice_from (n : nat) (s : string) : string :=
  match n, s with
  | S n', String _ s' => slice_from n' s'
  | _, _ => s
  end.

(** [strings.TrimPrefix(s, prefix)]. *)
Definition TrimPrefix (s prefix : string) : string :=
  if HasPrefix s prefix then slice_from (String.length prefix) s else s.

Global Arguments Split s sep%_char.

End Str.

(** Package [worktree], continued: what it reads from the version-control
    tool. *)
Module worktree_info.

Record WorktreeInfo : Type := {
  Path : string;
  HEAD : string;
  Branch : string;
  Bare : bool
}.

(** [WorktreeInfo{}] *)
Definition zero : WorktreeInfo :=
  {| Path := ""; HEAD := ""; Branch := ""; Bare := false |}.

Definition set_Path (v : string) (i : WorktreeInfo) : WorktreeInfo :=
  {| Path := v; HEAD := HEAD i; Branch := Branch i; Bare := Bare i |}.

Definition set_HEAD (v : string) (i : WorktreeInfo) : WorktreeInfo :=
  {| Path := Path i; HEAD := v; Branch := Branch i; Bare := Bare i |}.

Definition set_Branch (v : string) (i : WorktreeInfo) : WorktreeInfo :=
  {| Path := Path i; HEAD := HEAD i; Branch := v; Bare := Bare i |}.

Definition set_Bare (v : bool) (i : WorktreeInfo) : WorktreeInfo :=
  {| Path := Path i; HEAD := HEAD i; Branch := Branch i; Bare := v |}.

(** The output of the two read-only git commands, [Some] with the standard
    output when the command exits with status zero. *)
Record Git : Type := {
  (** [git -C repo worktree list --porcelain] *)
  worktree_list : string -> option string;
  (** [git -C repo symbolic-ref refs/remotes/origin/HEAD] *)
  symbolic_ref : string -> option string
}.

Section Functions.
Context (U : Unicode) (G : Git).

(** The variables of the loop of [parseWorktreeList]: the records
    collected so far and the record being read. *)
Definition parser : Type := (list WorktreeInfo * WorktreeInfo)%type.

(** [if current.Path != "" { worktrees = append(worktrees, current) }] *)
Definition flush (st : parser) : list WorktreeInfo :=
  let '(worktrees, current) := st in
  if negb (String.eqb (Path current) "") then worktrees ++ [current]
  else worktrees.

(** One turn of the loop of [parseWorktreeList]. *)
Definition parse_line (st : parser) (line : string) : parser :=
  let '(worktrees, current) := st in
  let line := Go.TrimSpace U line in
  if String.eqb line "" then
    if negb (String.eqb (Path current) "")
    then (worktrees ++ [current], zero)
    else (worktrees, current)
  else if Str.HasPrefix line "worktree " then
    (worktrees, set_Path (Str.TrimPrefix line "worktree ") current)
  else if Str.HasPrefix line "HEAD " then
    (worktrees, set_HEAD (Str.TrimPrefix line "HEAD ") current)
  else if Str.HasPrefix line "branch " then
    (worktrees, set_Branch (Str.TrimPrefix line "branch ") current)
  else if String.eqb line "bare" then
    (worktrees, set_Bare true current)
  else (worktrees, current).

Definition parseWorktreeList (output : string) : list WorktreeInfo :=
  flush (foldl parse_line ([], zero) (Str.Split output "010")).

(** [List]; [None] is the error "failed to list worktrees". *)
Definition List (repoPath : string) : option (list WorktreeInfo) :=
  match worktree_list G repoPath with
  | None => None
  | Some out => Some (parseWorktreeList out)
  end.

(** [parts[len(parts)-1]]; [strings.Split] never returns an empty slice. *)
Definition DefaultBranch (repoPath : string) : string :=
  match symbolic_ref G repoPath with
  | None => "main"
  | Some out =>
      let ref := Go.TrimSpace U out in
      let parts := Str.Split ref "/" in
      List.last parts EmptyString
  end.

End Functions.
End worktree_info.

(** ** Package [agent]: the command line of the agent *)

Module agent.

(** A string as [range] reads it and as [strings.Builder.WriteRune] writes
    it: the runes of a string (a byte that is not part of a valid UTF-8
    sequence reads as U+FFFD), and the UTF-8 bytes of a rune. *)
Record Runes : Type := {
  decode : string -> list N;
  WriteRune : N -> string
}.

(** The variables of the loop of [ParseAgentArgs]. *)
Record scanner : Type := {
  args : list string;
  current : string;
  inQuote : bool;
  quoteChar : N
}.

Definition start : scanner :=
  {| args := []; current := ""; inQuote := false; quoteChar := 0 |}.

(** [if current.Len() > 0 { args = append(args, current.String()) }] *)
Definition flush (st : scanner) : list string :=
  if (0 <? String.length (current st))%nat then args st ++ [current st]
  else args st.

Section Functions.
Context (R : Runes).

(** One turn of the loop: the [switch] on the rune. *)
Definition scan_rune (st : scanner) (r : N) : scanner :=
  if ((r =? 34) || (r =? 39))%N && negb (inQuote st) then
    {| args := args st; current := current st;
       inQuote := true; quoteChar := r |}
  else if (r =? quoteChar st)%N && inQuote st then
    {| args := args st; current := current st;
       inQuote := false; quoteChar := 0 |}
  else if (r =? 32)%N && negb (inQuote st) then
    if (0 <? String.length (current st))%nat
    then {| args := args st ++ [current st]; current := "";
            inQuote := inQuote st; quoteChar := quoteChar st |}
    else st
  else
    {| args := args st; current := current st +:+ WriteRune R r;
       inQuote := inQuote st; quoteChar := quoteChar st |}.

Definition ParseAgentArgs (argsStr : string) : list string :=
  if String.eqb argsStr "" then []
  else flush (foldl scan_rune start (decode R argsStr)).

End Functions.

End agent.

(** ** Package [cli]: the helpers of the commands *)

Module cli.

(** [truncate]; [None] is the panic of [s[:max-3]] on a negative bound.
    The bound is within the string whenever it is reached, since then
    [max < len(s)]. *)
Definition truncate (s : string) (max : Z) : option string :=
  if (Z.of_nat (String.length s) <=? max)%Z then Some s
  else if (max - 3 <? 0)%Z then None
  else Some (Go.slice_to (Z.to_nat (max - 3)) s +:+ "...").

End cli.

(** ** Vocabulary of the properties *)

(** The bytes of a branch-name slug: [a-z0-9] and the hyphen. *)
Definition is_slug_byte (c : ascii) : bool :=
  is_lower_alnum c || is_byte "-" c.

(** No two hyphens in a row. *)
Fixpoint no_double_hyphen (s : string) : bool :=
  match s with
  | String a (String b _ as s') =>
      negb (is_byte "-" a && is_byte "-" b) && no_double_hyphen s'
  | _ => true
  end.

(** The byte is one of [0-9a-f]. *)
Definition is_hex_digit (c : ascii) : bool :=
  let n := byte_val c in
  ((48 <=? n) && (n <=? 57) || (97 <=? n) && (n <=? 102))%N.

Definition newline : ascii := "010"%char.

Definition dquote : ascii := "034"%char.

(** The lines, each with a newline after it. *)
Fixpoint unlines (lines : list string) : string :=
  match lines with
  | [] => EmptyString
  | l :: ls => l +:+ String newline (unlines ls)
  end.

(** The lines [parseWorktreeList] acts upon, once trimmed. *)
Definition known_line (line : string) : bool :=
  String.eqb line "" || Str.HasPrefix line "worktree "
  || Str.HasPrefix line "HEAD " || Str.HasPrefix line "branch "
  || String.eqb line "bare".

Definition no_newline (s : string) : bool :=
  Go.all_bytes (fun c => negb (is_byte newline c)) s.

Definition no_slash (s : string) : bool :=
  Go.all_bytes (fun c => negb (is_byte "/" c)) s.

(** A value that survives the reading of its line: no newline in it, and
    a last byte that is ASCII and not white space. *)
Definition line_value (s : string) : Prop :=
  no_newline s = true /\
  exists c, Go.last_byte s = Some c /\
    is_ascii c = true /\ is_ascii_space c = false.

(** The block of a working copy in the format of
    [git worktree list --porcelain]: the path, then the attributes that
    are set, then an empty line. *)
Definition porcelain_block (i : worktree_info.WorktreeInfo) : list string :=
  ["worktree " +:+ worktree_info.Path i]
  ++ (if String.eqb (worktree_info.HEAD i) "" then []
      else ["HEAD " +:+ worktree_info.HEAD i])
  ++ (if String.eqb (worktree_info.Branch i) "" then []
      else ["branch " +:+ worktree_info.Branch i])
  ++ (if worktree_info.Bare i then ["bare"] else [])
  ++ [""].

Definition porcelain (l : list worktree_info.WorktreeInfo) : string :=
  unlines (concat (porcelain_block <$> l)).

(** A record whose fields survive the reading. *)
Definition listed (i : worktree_info.WorktreeInfo) : Prop :=
  line_value (worktree_info.Path i) /\
  (worktree_info.HEAD i = "" \/ line_value (worktree_info.HEAD i)) /\
  (worktree_info.Branch i = "" \/ line_value (worktree_info.Branch i)).

(** Strings of ASCII bytes, read rune by rune. *)
Definition ascii_runes : agent.Runes :=
  {| agent.decode := fun s => byte_val <$> list_ascii_of_string s;
     agent.WriteRune := fun r => String (ascii_of_N r) EmptyString |}.

(** The runes the scanner of [ParseAgentArgs] treats specially. *)
Definition is_quote (r : N) : bool := ((r =? 34) || (r =? 39))%N.

Definition is_separator (r : N) : bool := (r =? 32)%N.

(** The text of a sequence of runes. *)
Definition text (R : agent.Runes) (rs : list N) : string :=
  foldr (fun r s => agent.WriteRune R r +:+ s) EmptyString rs.

(** What [range] and [WriteRune] do on every string: the empty string has
    no rune, and a rune is written as one byte at least. *)
Definition reads_utf8 (R : agent.Runes) : Prop :=
  agent.decode R "" = [] /\ forall r, agent.WriteRune R r <> "".

(** An argument as it is written on the command line of the agent: as it
    is, or between two quotes of the same kind. *)
Inductive word : Type :=
| Plain (w : list N)
| Quoted (q : N) (w : list N).

Definition written (x : word) : list N :=
  match x with
  | Plain w => w
  | Quoted q w => q :: w ++ [q]
  end.

Definition content (x : word) : list N :=
  match x with
  | Plain w => w
  | Quoted _ w => w
  end.

(** A plain word has no quote and no space; a quoted word is between two
    quotes, double or single, and does not contain that quote. *)
Definition well_written (x : word) : Prop :=
  match x with
  | Plain w => Forall (fun r => is_quote r = false /\ is_separator r = false) w
  | Quoted q w => is_quote q = true /\ q ∉ w
  end.

Definition has_runes (w : list N) : bool :=
  match w with [] => false | _ => true end.

(** The runes that the scanner, inside or outside quotes, adds to the
    argument it is reading. *)
Definition literal (st : agent.scanner) (r : N) : Prop :=
  if agent.inQuote st then r <> agent.quoteChar st
  else is_quote r = false /\ is_separator r = false.

(** The words with one space between them. *)
Fixpoint spaced (words : list (list N)) : list N :=
  match words with
  | [] => []
  | [w] => w
  | w :: ws => w ++ 32%N :: spaced ws
  end.

(** * Properties *)



(** ** Bytes *)

Ltac byte_cases :=
  unfold is_lower_alnum, is_upper, is_ascii, is_ascii_space in *;
  cbv zeta in *;
  repeat match goal with
  | |- context [N.leb ?a ?b] => destruct (N.leb_spec a b)
  | |- context [N.ltb ?a ?b] => destruct (N.ltb_spec a b)
  | |- context [N.eqb ?a ?b] => destruct (N.eqb_spec a b)
  | H : context [N.leb ?a ?b] |- _ => destruct (N.leb_spec a b)
  | H : context [N.ltb ?a ?b] |- _ => destruct (N.ltb_spec a b)
  | H : context [N.eqb ?a ?b] |- _ => destruct (N.eqb_spec a b)
  end;
  simpl in *; try congruence; try lia.

Lemma is_byte_true d c : is_byte d c = true <-> c = d.
Proof. unfold is_byte. apply Ascii.eqb_eq. Qed.

Lemma is_byte_false d c : is_byte d c = false <-> c <> d.
Proof. unfold is_byte. apply Ascii.eqb_neq. Qed.

Lemma lower_alnum_ascii c : is_lower_alnum c = true -> is_ascii c = true.
Proof. intros H. byte_cases. Qed.

Lemma lower_alnum_not_space c :
  is_lower_alnum c = true -> is_ascii_space c = false.
Proof. intros H. byte_cases. Qed.

Lemma lower_alnum_not_upper c : is_lower_alnum c = true -> is_upper c = false.
Proof. intros H. byte_cases. Qed.

Lemma lower_alnum_not_hyphen c : is_lower_alnum c = true -> c <> "-"%char.
Proof. intros H ->. discriminate H. Qed.

Lemma lower_byte_alnum c : is_lower_alnum c = true -> lower_byte c = c.
Proof. intros H. unfold lower_byte. by rewrite lower_alnum_not_upper. Qed.

(** ** Strings *)

Lemma last_byte_cons a b r :
  Go.last_byte (String a (String b r)) = Go.last_byte (String b r).
Proof. reflexivity. Qed.

Lemma length_slice_to n s : String.length (Go.slice_to n s) <= n.
Proof.
  revert s; induction n as [|n IH]; intros [|c s]; simpl; try lia.
  specialize (IH s). lia.
Qed.

Lemma first_byte_slice_to n s :
  Go.first_byte (Go.slice_to (S n) s) = Go.first_byte s.
Proof. by destruct s. Qed.

Section Trimming.
Variable p : ascii -> bool.

Lemma length_trim_right s :
  String.length (Go.trim_right p s) <= String.length s.
Proof.
  induction s as [|c s IH]; simpl; [lia|].
  destruct (Go.trim_right p s); [destruct (p c)|]; simpl in *; lia.
Qed.

Lemma trim_right_last s c :
  Go.last_byte (Go.trim_right p s) = Some c -> p c = false.
Proof.
  induction s as [|a s IH]; simpl; [done|].
  destruct (Go.trim_right p s) as [|b r] eqn:E.
  - destruct (p a) eqn:Ea; simpl; [done|]. by intros [= <-].
  - by rewrite last_byte_cons.
Qed.

Lemma trim_left_first s c :
  Go.first_byte (Go.trim_left p s) = Some c -> p c = false.
Proof.
  induction s as [|a s IH]; simpl; [done|].
  destruct (p a) eqn:Ea; [done|]. simpl. by intros [= <-].
Qed.

Lemma trim_right_first s :
  Go.trim_right p s = "" \/
  Go.first_byte (Go.trim_right p s) = Go.first_byte s.
Proof.
  destruct s as [|a s]; simpl; [by left|].
  destruct (Go.trim_right p s); [destruct (p a)|]; auto.
Qed.

Lemma trim_left_last s :
  Go.trim_left p s = "" \/
  Go.last_byte (Go.trim_left p s) = Go.last_byte s.
Proof.
  induction s as [|a s IH]; simpl; [by left|].
  destruct (p a) eqn:Ea; [|by right].
  destruct IH as [IH|IH]; [by left|].
  destruct s as [|b s]; [by left|]. right. by rewrite IH.
Qed.

Lemma trim_right_id s :
  (forall c, Go.last_byte s = Some c -> p c = false) ->
  Go.trim_right p s = s.
Proof.
  induction s as [|a s IH]; simpl; [done|]. intros H.
  destruct s as [|b s].
  - simpl. by rewrite (H a eq_refl).
  - rewrite IH; [done|]. intros c Hc. by apply H.
Qed.

Lemma trim_left_id s :
  (forall c, Go.first_byte s = Some c -> p c = false) ->
  Go.trim_left p s = s.
Proof.
  destruct s as [|a s]; simpl; [done|]. intros H. by rewrite (H a eq_refl).
Qed.

End Trimming.

(** ** Slugs *)

Lemma hyphen_not_alnum c : hyphen c = true -> is_lower_alnum c = false.
Proof. by intros ->%is_byte_true. Qed.

Lemma alnum_not_hyphen c : is_lower_alnum c = true -> hyphen c = false.
Proof. intros H. by apply is_byte_false, lower_alnum_not_hyphen. Qed.

Lemma slug_weaken h s : slug_from true s -> slug_from h s.
Proof.
  destruct s as [|c s]; simpl; [done|].
  destruct (hyphen c); intros [? ?]; [done|auto].
Qed.

Lemma slug_first s : slug_from true s -> Go.first_byte s <> Some "-"%char.
Proof.
  destruct s as [|c s]; simpl; [done|]. intros H [= ->]. simpl in H. by destruct H.
Qed.

Lemma slug_last h s d :
  slug_from h s -> Go.last_byte s = Some d ->
  d = "-"%char \/ is_lower_alnum d = true.
Proof.
  revert h; induction s as [|c s IH]; intros h; [done|].
  destruct s as [|b s].
  - intros H [= <-]. cbn [slug_from] in H.
    destruct (hyphen c) eqn:E; [left; by apply is_byte_true|right; apply H].
  - rewrite last_byte_cons. cbn [slug_from].
    destruct (hyphen c); intros [_ H] Hd; eauto.
Qed.

Lemma replace_runs_slug h s :
  slug_from h (Go.replace_runs worktree.re "-" h s).
Proof.
  revert h; induction s as [|c s IH]; intros h; simpl; [done|].
  unfold worktree.re at 1. destruct (is_lower_alnum c) eqn:E; simpl.
  - rewrite alnum_not_hyphen by done. auto.
  - destruct h; [apply IH|]. simpl. auto.
Qed.

Lemma slug_trim_left h s :
  slug_from h s -> slug_from true (Go.trim_left hyphen s).
Proof.
  revert h; induction s as [|c s IH]; intros h; simpl; [done|].
  destruct (hyphen c) eqn:E.
  - intros [_ H]. eauto.
  - simpl. by rewrite E.
Qed.

Lemma slug_trim_right h s :
  slug_from h s -> slug_from h (Go.trim_right hyphen s).
Proof.
  revert h; induction s as [|c s IH]; intros h; simpl; [done|].
  destruct (hyphen c) eqn:E.
  - intros [-> H%IH]. destruct (Go.trim_right hyphen s) eqn:Et; [done|].
    simpl. rewrite E. auto.
  - intros [Hc H%IH]. destruct (Go.trim_right hyphen s) eqn:Et;
      simpl; rewrite E; auto.
Qed.

Lemma slug_slice_to h n s :
  slug_from h s -> slug_from h (Go.slice_to n s).
Proof.
  revert h s; induction n as [|n IH]; intros h [|c s]; simpl; try done.
  destruct (hyphen c); intros [? ?]; auto.
Qed.

Lemma slug_all_ascii h s : slug_from h s -> Go.all_bytes is_ascii s = true.
Proof.
  revert h; induction s as [|c s IH]; intros h; simpl; [done|].
  destruct (hyphen c) eqn:E.
  - apply is_byte_true in E as ->. intros [_ H]. simpl. eauto.
  - intros [Hc H]. rewrite (lower_alnum_ascii _ Hc). simpl. eauto.
Qed.

Lemma slug_lower h s : slug_from h s -> Go.map_bytes lower_byte s = s.
Proof.
  revert h; induction s as [|c s IH]; intros h; simpl; [done|].
  destruct (hyphen c) eqn:E.
  - apply is_byte_true in E as ->. intros [_ H]. f_equal. eauto.
  - intros [Hc H]. rewrite (lower_byte_alnum _ Hc). f_equal. eauto.
Qed.

Lemma slug_replace_runs h s :
  slug_from h s -> Go.replace_runs worktree.re "-" h s = s.
Proof.
  revert h; induction s as [|c s IH]; intros h; simpl; [done|].
  unfold worktree.re at 1. destruct (hyphen c) eqn:E.
  - rewrite (hyphen_not_alnum _ E). apply is_byte_true in E as ->.
    intros [-> H]. simpl. f_equal. eauto.
  - intros [Hc H]. rewrite Hc. simpl. f_equal. eauto.
Qed.

Section Sanitize.
Context (U : Unicode).

Lemma ToLower_slug h s : slug_from h s -> Go.ToLower U s = s.
Proof.
  intros H. unfold Go.ToLower.
  by rewrite (slug_all_ascii _ _ H), (slug_lower _ _ H).
Qed.

Lemma TrimSpace_slug s :
  slug_from true s -> Go.last_byte s <> Some "-"%char -> Go.TrimSpace U s = s.
Proof.
  intros Hs Hl. unfold Go.TrimSpace.
  assert (Hlast : forall d, Go.last_byte s = Some d -> is_lower_alnum d = true).
  { intros d Hd. destruct (slug_last _ _ _ Hs Hd) as [->|]; [done|done]. }
  destruct s as [|c s]; [done|].
  assert (Hc : is_lower_alnum c = true).
  { simpl in Hs. destruct (hyphen c); by destruct Hs. }
  cbn [Go.trim_left]. rewrite (lower_alnum_not_space _ Hc).
  cbn [Go.first_byte]. rewrite (lower_alnum_ascii _ Hc).
  unfold Go.trim_space_stop. rewrite trim_right_id.
  - destruct (Go.last_byte (String c s)) as [d|] eqn:Ed; [|done].
    by rewrite (lower_alnum_ascii _ (Hlast d eq_refl)).
  - intros d Hd. by apply lower_alnum_not_space, Hlast.
Qed.

(** What [SanitizeBranchName] returns is a slug of at most 60 bytes that
    neither starts nor ends with a hyphen. *)
Lemma SanitizeBranchName_slug x :
  let r := worktree.SanitizeBranchName U x in
  slug_from true r /\ Go.last_byte r <> Some "-"%char /\ String.length r <= 60.
Proof.
  unfold worktree.SanitizeBranchName, Go.ReplaceAllString, Go.Trim, Go.TrimRight.
  set (s1 := Go.ToLower U (Go.TrimSpace U x)).
  set (s2 := Go.replace_runs worktree.re "-" false s1).
  set (t := Go.trim_right hyphen s2).
  set (u := Go.trim_left hyphen t). cbv zeta.
  assert (Hs2 : slug_from false s2) by apply replace_runs_slug.
  assert (Ht : slug_from false t) by by apply slug_trim_right.
  assert (Hu : slug_from true u) by by eapply slug_trim_left.
  assert (Hno : forall s, Go.last_byte (Go.trim_right hyphen s) <> Some "-"%char).
  { intros s Hs. by apply trim_right_last in Hs. }
  destruct (Nat.ltb_spec 60 (String.length u)) as [Hlen|Hlen].
  - split_and!.
    + by apply slug_trim_right, slug_slice_to.
    + apply Hno.
    + etrans; [apply length_trim_right|apply length_slice_to].
  - split_and!; [done| |done].
    destruct (trim_left_last hyphen t) as [E|E]; fold u in E.
    + by rewrite E.
    + rewrite E. apply Hno.
Qed.

(** A slug of at most 60 bytes without a hyphen at either end is left as it
    is. *)
Lemma SanitizeBranchName_fixed r :
  slug_from true r -> Go.last_byte r <> Some "-"%char ->
  String.length r <= 60 ->
  worktree.SanitizeBranchName U r = r.
Proof.
  intros Hs Hl Hlen. unfold worktree.SanitizeBranchName.
  rewrite (TrimSpace_slug _ Hs Hl), (ToLower_slug _ _ Hs).
  unfold Go.ReplaceAllString. rewrite (slug_replace_runs false r) by by apply slug_weaken.
  unfold Go.Trim. rewrite trim_right_id.
  2:{ intros c Hc. apply is_byte_false. intros ->. done. }
  rewrite trim_left_id.
  2:{ intros c Hc. apply is_byte_false. intros ->. by apply slug_first in Hs. }
  cbv zeta. destruct (Nat.ltb_spec 60 (String.length r)); [lia|done].
Qed.

End Sanitize.

(** ** NameSanitizer and BranchNamer *)

Example sanitize_test_table :
  worktree.SanitizeBranchName ascii_only "add user authentication"
    = "add-user-authentication" /\
  worktree.SanitizeBranchName ascii_only "Fix Bug #123: Login Fails!"
    = "fix-bug-123-login-fails" /\
  worktree.SanitizeBranchName ascii_only "  spaces everywhere  "
    = "spaces-everywhere" /\
  worktree.SanitizeBranchName ascii_only "UPPERCASE-Mixed" = "uppercase-mixed" /\
  worktree.SanitizeBranchName ascii_only "special@chars&here"
    = "special-chars-here" /\
  worktree.SanitizeBranchName ascii_only
    "a-very-long-description-that-exceeds-the-sixty-character-limit-by-quite-a-bit"
    = "a-very-long-description-that-exceeds-the-sixty-character-lim" /\
  worktree.SanitizeBranchName ascii_only "---leading-trailing---"
    = "leading-trailing" /\
  worktree.SanitizeBranchName ascii_only "simple" = "simple".
Proof. repeat split. Qed.

Example branch_name_test_table :
  worktree.BranchName ascii_only "feature" "add login" = "feature/add-login" /\
  worktree.BranchName ascii_only "" "add login" = "add-login" /\
  worktree.BranchNameFromTicket ascii_only "" "BUG-456" "fix crash on startup"
    = "bug-456-fix-crash-on-startup".
Proof. repeat split. Qed.

(** C7. For every input string, the result of [SanitizeBranchName] is at most
    60 characters long (its bytes are ASCII, one per character), and it
    neither starts nor ends with a hyphen (the empty result has no first and
    no last byte). *)
Theorem SanitizeBranchName_bounded (U : Unicode) (x : string) :
  let r := worktree.SanitizeBranchName U x in
  String.length r <= 60 /\
  Go.all_bytes is_ascii r = true /\
  Go.first_byte r <> Some "-"%char /\
  Go.last_byte r <> Some "-"%char.
Proof.
  destruct (SanitizeBranchName_slug U x) as (Hs & Hl & Hlen).
  cbv zeta. split_and!; [done| | |done].
  - by eapply slug_all_ascii.
  - by apply slug_first.
Qed.

(** C8. [SanitizeBranchName] is idempotent. *)
Theorem SanitizeBranchName_idempotent (U : Unicode) (x : string) :
  worktree.SanitizeBranchName U (worktree.SanitizeBranchName U x)
  = worktree.SanitizeBranchName U x.
Proof.
  destruct (SanitizeBranchName_slug U x) as (Hs & Hl & Hlen).
  by apply SanitizeBranchName_fixed.
Qed.

Lemma with_prefix_eqb prefix name :
  (if String.eqb prefix "" then name else prefix +:+ "/" +:+ name)
  = with_prefix prefix name.
Proof. by destruct prefix. Qed.

Lemma cap60_ltb s :
  (if (60 <? String.length s)%nat
   then Go.TrimRight (Go.slice_to 60 s) "-" else s) = cap60 s.
Proof.
  unfold cap60, Go.TrimRight.
  destruct (Nat.ltb_spec 60 (String.length s)), (Nat.leb_spec (String.length s) 60);
    done || lia.
Qed.

(** C1, as the code has it.  The ticket key is lower-cased, not sanitized:
    for every prefix, ticket key and summary, [BranchNameFromTicket] returns
    [ToLower(ticketKey) + "-" + sanitize(summary)], capped to 60 bytes with
    the trailing hyphens trimmed after the cap, with [prefix + "/"] in front
    exactly when the prefix is not empty; and
    [fromTicket("feature", "PROJ-123", "Implement OAuth Flow")] is
    ["feature/proj-123-implement-oauth-flow"]. *)
Theorem BranchNameFromTicket_composition (U : Unicode)
    (prefix ticketKey summary : string) :
  worktree.BranchNameFromTicket U prefix ticketKey summary
  = with_prefix prefix
      (cap60 (Go.ToLower U ticketKey +:+ "-" +:+
              worktree.SanitizeBranchName U summary)) /\
  worktree.BranchNameFromTicket U "feature" "PROJ-123" "Implement OAuth Flow"
  = "feature/proj-123-implement-oauth-flow".
Proof.
  split; [|reflexivity].
  unfold worktree.BranchNameFromTicket. cbv zeta.
  by rewrite cap60_ltb, with_prefix_eqb.
Qed.

(** On a ticket key that lower-casing already turns into a slug, as the keys
    of the form [PROJ-123] are, the ticket key may as well be sanitized. *)
Lemma BranchNameFromTicket_slug_key (U : Unicode)
    (prefix ticketKey summary : string) :
  worktree.SanitizeBranchName U ticketKey = Go.ToLower U ticketKey ->
  worktree.BranchNameFromTicket U prefix ticketKey summary
  = fromTicket_spec U prefix ticketKey summary.
Proof.
  intros Hkey. unfold fromTicket_spec. rewrite Hkey.
  unfold worktree.BranchNameFromTicket. cbv zeta.
  by rewrite cap60_ltb, with_prefix_eqb.
Qed.

(** C1 as the specification words it fails on a ticket key with a byte
    outside [A-Za-z0-9-]: the code keeps the underscore, the composition
    with [sanitize(ticketKey)] turns it into a hyphen. *)
Lemma BranchNameFromTicket_not_sanitized_key :
  worktree.BranchNameFromTicket ascii_only "feature" "MY_PROJ-7" "Fix login"
    = "feature/my_proj-7-fix-login" /\
  fromTicket_spec ascii_only "feature" "MY_PROJ-7" "Fix login"
    = "feature/my-proj-7-fix-login" /\
  worktree.BranchNameFromTicket ascii_only "feature" "MY_PROJ-7" "Fix login"
    <> fromTicket_spec ascii_only "feature" "MY_PROJ-7" "Fix login".
Proof. repeat split. discriminate. Qed.

(** ** The registry *)

Ltac unfold_monad :=
  unfold config.update, config.in_world in *;
  unfold bind, ret, fail, wrap, attempt, gets, modify in *.

Lemma set_path_id c : config.set_path (config.path c) c = c.
Proof. by destruct c. Qed.

Lemma encode_Config_set_path p c :
  config.encode_Config (config.set_path p c) = config.encode_Config c.
Proof. done. Qed.

Lemma string_eqb_empty s : String.eqb s "" = true <-> s = "".
Proof. apply String.eqb_eq. Qed.

Section Registry.
Context (env : Os.Env) (Y : Yaml.Codec).

(** [Save] step by step: the path it settles on, then the outcome of
    each call. *)
Lemma Save_unfold c w :
  config.Save env Y (c, w) =
  match (if String.eqb (config.path c) ""
         then match Os.home w with
              | Some h => Ok (config.set_path (registry_file h) c)
              | None => Err (ErrHomeDir ErrOs)
              end
         else Ok c) with
  | Err e => (Err e, (c, w))
  | Ok c1 =>
      let p := config.path c1 in
      let mk := Os.MkdirAll (Go.Dir p) in
      if Os.fails env mk
      then (Err (ErrCreateConfigDir ErrOs), (c1, Os.log mk false w))
      else
        let w1 := Os.log mk true (Os.set_dirs ({[Go.Dir p]} ∪ Os.dirs w) w) in
        match config.Marshal Y c with
        | None => (Err ErrMarshalConfig, (c1, w1))
        | Some data =>
            let '(r, w2) := Os.do_WriteFile env p data w1 in (r, (c1, w2))
        end
  end.
Proof.
  unfold config.Save, config.ConfigDir, Os.UserHomeDir, Os.do_MkdirAll,
    config.Marshal, registry_file.
  unfold_monad. cbn [fst snd].
  destruct (String.eqb (config.path c) "") eqn:Ep.
  - destruct (Os.home w) as [h|]; [|done]. cbn [fst snd].
    destruct (Os.fails env _); [done|]. cbn [fst snd].
    rewrite encode_Config_set_path. by destruct (Yaml.emit Y _).
  - destruct (Os.fails env _); [done|]. cbn [fst snd].
    by destruct (Yaml.emit Y _).
Qed.

Lemma slice_to_length s : Go.slice_to (String.length s) s = s.
Proof. induction s as [|a s IH]; simpl; by f_equal. Qed.

Lemma Save_config c w :
  exists p, config_after (config.Save env Y (c, w)) = config.set_path p c.
Proof.
  unfold config_after. rewrite Save_unfold.
  destruct (String.eqb (config.path c) "").
  - destruct (Os.home w) as [h|]; [|exists (config.path c); by rewrite set_path_id].
    exists (registry_file h). cbv zeta.
    repeat case_match; simplify_eq/=; done.
  - exists (config.path c). rewrite set_path_id. cbv zeta.
    repeat case_match; simplify_eq/=; done.
Qed.

Lemma Save_tasks c w :
  config.Tasks (config_after (config.Save env Y (c, w))) = config.Tasks c.
Proof. by destruct (Save_config c w) as [p ->]. Qed.

Lemma AddTask_unfold t c w :
  config.AddTask env Y t (c, w)
  = config.Save env Y (config.set_Tasks (config.Tasks c ++ [t]) c, w).
Proof. done. Qed.

Lemma RemoveTask_unfold id c w :
  config.RemoveTask env Y id (c, w)
  = match config.find_slot config.ID id (config.Tasks c) with
    | Some (i, _) =>
        config.Save env Y
          (config.set_Tasks
             (take i (config.Tasks c) ++ drop (i + 1) (config.Tasks c)) c, w)
    | None => (Err (ErrTaskNotFound id), (c, w))
    end.
Proof.
  unfold config.RemoveTask. unfold_monad. cbn [fst snd].
  by repeat case_match.
Qed.

Lemma AddTask_tasks t c w :
  config.Tasks (config_after (config.AddTask env Y t (c, w))) = config.Tasks c ++ [t].
Proof. by rewrite AddTask_unfold, Save_tasks. Qed.

Lemma RemoveTask_tasks id c w :
  config.Tasks (config_after (config.RemoveTask env Y id (c, w)))
  = match config.find_slot config.ID id (config.Tasks c) with
    | Some (i, _) => delete i (config.Tasks c)
    | None => config.Tasks c
    end.
Proof.
  rewrite RemoveTask_unfold.
  destruct (config.find_slot _ _ _) as [[i t]|]; [|done].
  by rewrite Save_tasks, Nat.add_1_r, delete_take_drop.
Qed.

End Registry.

Lemma NoDup_snoc_iff {A} (l : list A) (x : A) :
  NoDup (l ++ [x]) <-> NoDup l /\ x ∉ l.
Proof.
  rewrite NoDup_app. split.
  - intros (Hl & Hx & _). split; [done|]. intros Hin. apply (Hx x Hin). by left.
  - intros [Hl Hx]. split_and!; [done| |apply NoDup_singleton].
    intros y Hy ->%list_elem_of_singleton. done.
Qed.

Lemma NoDup_fmap_delete {A B} (f : A -> B) (l : list A) (i : nat) :
  NoDup (f <$> l) -> NoDup (f <$> delete i l).
Proof.
  intros H. rewrite list_fmap_delete.
  eapply sublist_NoDup; [exact H|apply sublist_delete].
Qed.

(** C2, as the code has it.  [Save] rewrites the registry file in place.  A
    save that succeeds leaves the full new state in the file.  A save that
    fails before the file is written (home directory, directory creation,
    marshalling; these are the errors other than the one of
    [os.WriteFile]) leaves the files untouched.  A save that fails in
    [os.WriteFile] leaves the files untouched (the open failed) or leaves in
    the registry file a prefix of the new state, from nothing to all of
    it. *)
Theorem Save_file_outcome (env : Os.Env) (Y : Yaml.Codec)
    (c : config.Config) (w : Os.World) :
  let '(r, (c', w')) := config.Save env Y (c, w) in
  match r with
  | Ok _ =>
      exists data, config.Marshal Y c = Some data /\
        Os.files w' = <[config.path c' := data]> (Os.files w)
  | Err e =>
      (e <> ErrOs -> Os.files w' = Os.files w) /\
      (Os.files w' = Os.files w \/
       exists data n, config.Marshal Y c = Some data /\
         Os.files w' = <[config.path c' := Go.slice_to n data]> (Os.files w))
  end.
Proof.
  rewrite Save_unfold.
  destruct (if String.eqb (config.path c) "" then _ else _) as [c1|e];
    [|by auto].
  cbv zeta. destruct (Os.fails env _); [by auto|].
  destruct (config.Marshal Y c) as [data|]; [|by auto].
  unfold Os.do_WriteFile. cbv zeta.
  destruct (Os.write_fault_at env _) as [| |n|]; cbn.
  - by exists data.
  - by auto.
  - split; [done|]. right. by exists data, n.
  - split; [done|]. right. exists data, (String.length data).
    by rewrite slice_to_length.
Qed.

(** C2 as the specification words it fails: with a registry file on disk
    and a disk that accepts no more bytes, the failed save of a registry
    with one task leaves an empty file, which is neither the old state nor
    the new one. *)
Lemma Save_failure_truncates_registry_file :
  let p := "/home/dev/.wt/config.yaml" in
  let old := Sample.stored Sample.cfg in
  let c := config.set_Tasks [Sample.task1] Sample.cfg in
  let w := Os.set_files {[ p := old ]} Sample.world in
  let '(r, (_, w')) :=
    config.Save (Sample.env_disk_full 0) TextCodec.codec (c, w) in
  r = Err ErrOs /\
  Os.files w !! p = Some old /\
  Os.files w' !! p = Some "" /\
  Os.files w' !! p <> Os.files w !! p /\
  Os.files w' !! p <> config.Marshal TextCodec.codec c.
Proof. vm_compute. by split_and!. Qed.

(** C3, as the code has it.  The registry does not check for duplicates:
    [AddTask] appends the task whatever the slice holds.  On a registry
    without duplicates, adding a task gives a registry without duplicates
    exactly when neither the id nor the worktree path of the task is already
    there; removing a task and saving keep the registry without
    duplicates. *)
Theorem registry_unique_add_remove (env : Os.Env) (Y : Yaml.Codec)
    (c : config.Config) (w : Os.World) (Hc : registry_unique c) :
  (forall t,
     registry_unique (config_after (config.AddTask env Y t (c, w))) <->
     ((config.ID t ∉ config.ID <$> config.Tasks c) /\
      (config.Worktree t ∉ config.Worktree <$> config.Tasks c))) /\
  (forall id, registry_unique (config_after (config.RemoveTask env Y id (c, w)))) /\
  registry_unique (config_after (config.Save env Y (c, w))).
Proof.
  destruct Hc as [Hid Hwt]. unfold registry_unique. split; [|split].
  - intros t. rewrite AddTask_tasks, !fmap_app. cbn [fmap list_fmap].
    rewrite !NoDup_snoc_iff. tauto.
  - intros id. rewrite RemoveTask_tasks.
    destruct (config.find_slot _ _ _) as [[i t]|]; [|done].
    split; by apply NoDup_fmap_delete.
  - by rewrite Save_tasks.
Qed.

Lemma registry_unique_add_remove_witness :
  registry_unique Sample.cfg /\
  registry_unique
    (config_after
       (config.AddTask Sample.env TextCodec.codec Sample.task1
          (Sample.cfg, Sample.world))).
Proof.
  assert (H : registry_unique Sample.cfg) by (split; apply NoDup_nil_2).
  split; [done|].
  destruct (registry_unique_add_remove Sample.env TextCodec.codec
              Sample.cfg Sample.world H) as [Hadd _].
  apply Hadd. split; apply not_elem_of_nil.
Defined.

(** C3 as the specification words it fails: adding a task that is already
    registered succeeds and leaves two tasks with one id and one worktree
    path. *)
Lemma AddTask_accepts_duplicate :
  let c := config.set_Tasks [Sample.task1] Sample.cfg in
  let '(r, (c', _)) :=
    config.AddTask Sample.env TextCodec.codec Sample.task1 (c, Sample.world) in
  registry_unique c /\
  r = Ok tt /\
  config.Tasks c' = [Sample.task1; Sample.task1] /\
  ~ registry_unique c'.
Proof.
  cbv zeta. set (x := config.AddTask _ _ _ _). vm_compute in x. subst x.
  cbv beta iota. split; [|split; [|split]]; try done.
  - split; apply NoDup_singleton.
  - intros [H _]. apply NoDup_cons in H as [H _]. apply H. by left.
Qed.

(** ** The persisted format *)

Lemma decode_fields_app {A} (set : string -> Yaml.node -> A -> option A)
    (l1 l2 : list (string * Yaml.node)) (a : A) :
  Yaml.decode_fields set (l1 ++ l2) a
  = Yaml.decode_fields set l1 a ≫= Yaml.decode_fields set l2.
Proof.
  revert a; induction l1 as [|[k v] l1 IH]; intros a; simpl; [done|].
  destruct (set k v a); simpl; auto.
Qed.

Lemma decode_Task_encode t : config.decode_Task (config.encode_Task t) = Some t.
Proof. by destruct t as [? ? ? ? ? [|] [|] ?]. Qed.

Lemma decode_ConnectorConfig_encode cc :
  config.decode_ConnectorConfig (config.encode_ConnectorConfig cc) = Some cc.
Proof. by destruct cc as [[|] [|] [|] [|]]. Qed.

Lemma decode_items_encode l :
  Yaml.decode_items config.decode_Task (config.encode_Task <$> l) = Some l.
Proof.
  induction l as [|t l IH]; [done|]. cbn [fmap list_fmap Yaml.decode_items].
  fold (fmap (M:=list) config.encode_Task l).
  by rewrite decode_Task_encode, IH.
Qed.

Lemma decode_entries_encode {V} (dec : Yaml.node -> option V)
    (enc : V -> Yaml.node) (l : list (string * V)) (m : gmap string V) :
  (forall v, dec (enc v) = Some v) ->
  NoDup l.*1 ->
  Yaml.decode_entries dec (prod_map id enc <$> l) m = Some (list_to_map l ∪ m).
Proof.
  intros Hde. revert m; induction l as [|[k v] l IH]; intros m Hnd.
  - cbn. by rewrite (left_id_L ∅ (∪)).
  - apply NoDup_cons in Hnd as [Hk Hnd]. cbn. rewrite Hde, IH by done.
    f_equal. rewrite <-insert_union_r, insert_union_l; [done|].
    by apply not_elem_of_list_to_map_1.
Qed.

Lemma fst_prod_map_id {V W} (enc : V -> W) (l : list (string * V)) :
  (prod_map id enc <$> l).*1 = l.*1.
Proof. induction l as [|[k v] l IH]; [done|]. cbn. by f_equal. Qed.

Lemma decode_map_encode {V} (dec : Yaml.node -> option V)
    (enc : V -> Yaml.node) (m : gmap string V) :
  (forall v, dec (enc v) = Some v) ->
  Yaml.decode_map dec (Yaml.Map (prod_map id enc <$> map_to_list m)) ∅
  = Some m.
Proof.
  intros Hde. unfold Yaml.decode_map.
  rewrite fst_prod_map_id, bool_decide_eq_true_2 by apply NoDup_fst_map_to_list.
  rewrite decode_entries_encode by (done || apply NoDup_fst_map_to_list).
  by rewrite list_to_map_to_list, (right_id_L ∅ (∪)).
Qed.

Lemma omitempty_keys key v : (Yaml.omitempty key v).*1 `sublist_of` [key].
Proof. destruct v; cbn; [apply sublist_nil_l|done]. Qed.

Lemma encode_map_keys {V} key (enc : V -> Yaml.node) m :
  (config.encode_map key enc m).*1 `sublist_of` [key].
Proof.
  unfold config.encode_map. destruct (map_to_list m); cbn;
    [apply sublist_nil_l|done].
Qed.

Lemma encode_Tasks_keys l : (config.encode_Tasks l).*1 `sublist_of` ["tasks"].
Proof. destruct l; cbn; [apply sublist_nil_l|done]. Qed.

Lemma encode_Config_keys c fields :
  config.encode_Config c = Yaml.Map fields -> NoDup fields.*1.
Proof.
  intros [= <-].
  eapply (sublist_NoDup _
    (["worktrees_base"; "default_branch"; "branch_prefix"] ++
     ["default_agent"] ++ ["agent_aliases"] ++ ["connectors"] ++ ["tasks"])).
  - apply (bool_decide_unpack _). by vm_compute.
  - rewrite !fmap_cons, !fmap_app. cbn [fst app].
    do 3 apply sublist_skip.
    change ["default_agent"; "agent_aliases"; "connectors"; "tasks"]
      with (["default_agent"] ++ ["agent_aliases"] ++ ["connectors"] ++ ["tasks"]).
    repeat apply sublist_app;
      auto using omitempty_keys, encode_map_keys, encode_Tasks_keys.
Qed.

(** Decoding the document of a registry into a configuration with the
    defaults of [DefaultConfig] in its [omitempty] fields gives the registry
    back; only [path], which is not persisted, is that of the target. *)
Lemma decode_Config_encode c d :
  config.DefaultAgent d = "" ->
  config.AgentAliases d = ∅ ->
  config.Connectors d = ∅ ->
  config.Tasks d = [] ->
  Yaml.decode_struct config.set_Config_field (config.encode_Config c) d
  = Some (config.set_path (config.path d) c).
Proof.
  intros Hda Haa Hcn Hts.
  pose proof (encode_Config_keys c _ eq_refl) as Hk.
  unfold config.encode_Config in *. cbn [Yaml.decode_struct].
  rewrite bool_decide_eq_true_2 by exact Hk. clear Hk.
  destruct c as [wb db bp da aa cn ts p], d as [wb' db' bp' da' aa' cn' ts' p'].
  cbn in Hda, Haa, Hcn, Hts. subst da' aa' cn' ts'.
  cbn [config.WorktreesBase config.DefaultBranch config.BranchPrefix
       config.DefaultAgent config.AgentAliases config.Connectors config.Tasks
       config.path].
  cbn -[Yaml.omitempty config.encode_map config.encode_Tasks].
  assert (Hagent :
    Yaml.decode_fields config.set_Config_field (Yaml.omitempty "default_agent" da)
      (config.Build_Config wb db bp "" ∅ ∅ [] p')
    = Some (config.Build_Config wb db bp da ∅ ∅ [] p')) by by destruct da.
  rewrite decode_fields_app, Hagent. cbn [mbind option_bind]. clear Hagent.
  assert (Haliases :
    Yaml.decode_fields config.set_Config_field
      (config.encode_map "agent_aliases" Yaml.Str aa)
      (config.Build_Config wb db bp da ∅ ∅ [] p')
    = Some (config.Build_Config wb db bp da aa ∅ [] p')).
  { unfold config.encode_map. destruct (map_to_list aa) as [|x l] eqn:E.
    - by apply map_to_list_empty_iff in E as ->.
    - rewrite <-E. cbn -[Yaml.decode_map].
      by rewrite (decode_map_encode Yaml.decode_string Yaml.Str). }
  rewrite decode_fields_app, Haliases. cbn [mbind option_bind]. clear Haliases.
  assert (Hconn :
    Yaml.decode_fields config.set_Config_field
      (config.encode_map "connectors" config.encode_ConnectorConfig cn)
      (config.Build_Config wb db bp da aa ∅ [] p')
    = Some (config.Build_Config wb db bp da aa cn [] p')).
  { unfold config.encode_map. destruct (map_to_list cn) as [|x l] eqn:E.
    - by apply map_to_list_empty_iff in E as ->.
    - rewrite <-E. cbn -[Yaml.decode_map].
      by rewrite (decode_map_encode config.decode_ConnectorConfig
                    config.encode_ConnectorConfig)
        by apply decode_ConnectorConfig_encode. }
  rewrite decode_fields_app, Hconn. cbn [mbind option_bind]. clear Hconn.
  destruct ts as [|t ts]; [done|].
  unfold config.encode_Tasks. cbn -[Yaml.decode_items fmap].
  by rewrite decode_items_encode.
Qed.

Section Persistence.
Context (env : Os.Env) (Y : Yaml.Codec).

Lemma Save_ok c w c1 w1 :
  config.Save env Y (c, w) = (Ok tt, (c1, w1)) ->
  exists data,
    config.Marshal Y c = Some data /\
    Os.files w1 = <[config.path c1 := data]> (Os.files w) /\
    Os.home w1 = Os.home w /\
    c1 = config.set_path (config.path c1) c /\
    (if String.eqb (config.path c) ""
     then exists h, Os.home w = Some h /\ config.path c1 = registry_file h
     else config.path c1 = config.path c).
Proof.
  rewrite Save_unfold.
  destruct (String.eqb (config.path c) "") eqn:Ep.
  - destruct (Os.home w) as [h|] eqn:Eh; [|done]. cbv zeta.
    destruct (Os.fails env _); [done|].
    destruct (config.Marshal Y c) as [data|]; [|done].
    unfold Os.do_WriteFile. cbv zeta.
    destruct (Os.write_fault_at env _); [|done..].
    intros [= <- <-]. exists data. cbn. split_and!; try done. by exists h.
  - cbv zeta. destruct (Os.fails env _); [done|].
    destruct (config.Marshal Y c) as [data|]; [|done].
    unfold Os.do_WriteFile. cbv zeta.
    destruct (Os.write_fault_at env _); [|done..].
    intros [= <- <-]. exists data. cbn. split_and!; try done.
    by rewrite set_path_id.
Qed.

Lemma Load_reads w h data c :
  Os.home w = Some h ->
  Os.fails env (Os.ReadFile (registry_file h)) = false ->
  Os.files w !! registry_file h = Some data ->
  Yaml.parse Y data = Some (config.encode_Config c) ->
  config.Load env Y w
  = (Ok (config.set_path (registry_file h) c),
     Os.log (Os.ReadFile (registry_file h)) true w).
Proof.
  intros Hh Hf Hd Hp.
  unfold config.Load, config.ConfigDir, config.DefaultConfig, Os.UserHomeDir,
    Os.do_ReadFile, config.Unmarshal.
  unfold_monad. rewrite Hh. cbn [fst snd]. rewrite Hh. cbn [fst snd].
  fold (registry_file h). rewrite Hf, Hd. cbn [fst snd]. rewrite Hp.
  by rewrite decode_Config_encode.
Qed.

End Persistence.

(** C9.  For every registry [c] with N task records: when saving it
    succeeds, the text codec gives back the document it was handed, and the
    file can be read, loading returns a registry with exactly the same N
    tasks, field by field (and the same settings).  The registry is one that
    [Load] or [DefaultConfig] made: its [path] is empty or the registry file
    of the user. *)
Theorem Save_Load_roundtrip (env : Os.Env) (Y : Yaml.Codec)
    (c c1 : config.Config) (w w1 : Os.World) (h data : string) :
  Os.home w = Some h ->
  config.path c = "" \/ config.path c = registry_file h ->
  config.Save env Y (c, w) = (Ok tt, (c1, w1)) ->
  config.Marshal Y c = Some data ->
  Yaml.parse Y data = Some (config.encode_Config c) ->
  Os.fails env (Os.ReadFile (registry_file h)) = false ->
  exists c2 w2,
    config.Load env Y w1 = (Ok c2, w2) /\
    config.Tasks c2 = config.Tasks c /\
    length (config.Tasks c2) = length (config.Tasks c) /\
    c2 = c1.
Proof.
  intros Hh Hpath Hsave Hm Hp Hread.
  destruct (Save_ok env Y c w c1 w1 Hsave) as (data' & Hm' & Hfiles & Hh1 & Hc1 & Hp1).
  assert (data' = data) as -> by congruence.
  assert (Hpc1 : config.path c1 = registry_file h).
  { destruct (String.eqb (config.path c) "") eqn:E.
    - destruct Hp1 as (h' & Hh' & ->). congruence.
    - apply String.eqb_neq in E. destruct Hpath; congruence. }
  eexists _, _. split.
  - apply (Load_reads env Y w1 h data c); [congruence|done| |done].
    by rewrite Hfiles, Hpc1, lookup_insert_eq.
  - split_and!; [done|done|]. rewrite Hc1. by rewrite Hpc1.
Qed.

Lemma Save_Load_roundtrip_witness :
  let c := config.set_Tasks [Sample.task1] Sample.cfg in
  let saved := config.Save Sample.env TextCodec.codec (c, Sample.world) in
  exists c2 w2,
    config.Load Sample.env TextCodec.codec (world_after saved) = (Ok c2, w2) /\
    config.Tasks c2 = [Sample.task1] /\
    length (config.Tasks c2) = 1 /\
    c2 = config_after saved.
Proof.
  apply (Save_Load_roundtrip Sample.env TextCodec.codec
           (config.set_Tasks [Sample.task1] Sample.cfg) _ Sample.world _
           "/home/dev"
           (Sample.stored (config.set_Tasks [Sample.task1] Sample.cfg))).
  - reflexivity.
  - left. reflexivity.
  - vm_compute. reflexivity.
  - reflexivity.
  - vm_compute. reflexivity.
  - reflexivity.
Defined.

(** ** The lifecycle *)

(** Case analysis on the membership of a call in an explicit trace. *)
Ltac in_trace H :=
  repeat match type of H with
  | _ ∈ _ :: _ =>
      apply elem_of_cons in H as [H|H];
      [try discriminate H; try (injection H as -> -> -> ->)|]
  | _ ∈ [] => by apply elem_of_nil in H
  end.

Section Lifecycle.
Context (U : Unicode) (env : Os.Env) (Y : Yaml.Codec).

Lemma computed_branch_eq prefix opts :
  (if negb (String.eqb (task.TicketKey opts) "")
   then
     worktree.BranchNameFromTicket U prefix (task.TicketKey opts)
       (if String.eqb (task.TicketTitle opts) ""
        then task.Description opts else task.TicketTitle opts)
   else worktree.BranchName U prefix (task.Description opts))
  = computed_branch U prefix opts.
Proof.
  unfold computed_branch.
  destruct (task.TicketKey opts); [done|]. by destruct (task.TicketTitle opts).
Qed.

(** [Start] step by step. *)
Lemma Start_unfold opts c w :
  task.Start U env Y opts (c, w) =
  let repo := task.RepoPath opts in
  match Os.git env (Os.GitShowToplevel repo) w with
  | (None, w1) => (Err (ErrNotGitRepo repo), (c, w1))
  | (Some out, w1) =>
      let name := Go.Base (Go.TrimSpace U out) in
      let branch := computed_branch U (config.BranchPrefix c) opts in
      match Os.git env (Os.GitVerify repo branch) w1 with
      | (Some _, w2) => (Err (ErrBranchExists branch), (c, w2))
      | (None, w2) =>
          let wtPath :=
            Go.Join [config.WorktreesBase c; name;
                     worktree.SanitizeBranchName U (task.Description opts)] in
          match Os.do_MkdirAll env (Go.Dir wtPath) w2 with
          | (Err e, w3) => (Err (ErrCreateWorktreeDir e), (c, w3))
          | (Ok _, w3) =>
              match Os.git env (Os.GitWorktreeAdd repo wtPath branch) w3 with
              | (None, w4) => (Err ErrCreateWorktree, (c, w4))
              | (Some _, w4) =>
                  let t :=
                    {| config.ID := task.generateID env;
                       config.Description := task.Description opts;
                       config.Worktree := wtPath;
                       config.Branch := branch;
                       config.RepoPath := repo;
                       config.Connector := task.Connector opts;
                       config.TicketKey := task.TicketKey opts;
                       config.Created := Os.now env |} in
                  match config.AddTask env Y t (c, w4) with
                  | (Ok _, s) => (Ok t, s)
                  | (Err e, s) => (Err (ErrTaskNotSaved e), s)
                  end
              end
          end
      end
  end.
Proof.
  unfold task.Start, worktree.RepoName, worktree.BranchExists, worktree.Create,
    worktree.git_or.
  unfold_monad. cbn [fst snd].
  destruct (Os.git env (Os.GitShowToplevel _) w) as [[out|] w1]; [|done].
  cbn [fst snd is_ok]. rewrite computed_branch_eq.
  destruct (Os.git env (Os.GitVerify _ _) w1) as [[v|] w2]; [done|].
  cbn [fst snd is_ok].
  destruct (Os.do_MkdirAll env _ w2) as [[[]|e] w3]; [|done].
  cbn [fst snd].
  destruct (Os.git env (Os.GitWorktreeAdd _ _ _) w3) as [[o|] w4]; [|done].
  cbn [fst snd].
  by destruct (config.AddTask env Y _ (c, w4)) as [[[]|e] s].
Qed.

(** Every git command is logged with its outcome, and none touches the
    home directory, the files or the repositories. *)
Lemma git_log c w o w' :
  Os.git env c w = (o, w') ->
  Os.trace w' = Os.trace w ++ [(c, is_some o)] /\
  Os.home w' = Os.home w /\ Os.files w' = Os.files w /\
  Os.toplevel w' = Os.toplevel w.
Proof.
  unfold Os.git. destruct (Os.fails env c); [by intros [= <- <-]|].
  destruct c; repeat case_match; by intros [= <- <-].
Qed.

Lemma git_show_toplevel repo w o w' :
  Os.git env (Os.GitShowToplevel repo) w = (o, w') -> same_resources w w'.
Proof.
  unfold Os.git. repeat case_match; by intros [= <- <-].
Qed.

Lemma git_verify repo branch w o w' :
  Os.git env (Os.GitVerify repo branch) w = (o, w') -> same_resources w w'.
Proof.
  unfold Os.git. repeat case_match; by intros [= <- <-].
Qed.

Lemma same_resources_trans w1 w2 w3 :
  same_resources w1 w2 -> same_resources w2 w3 -> same_resources w1 w3.
Proof. unfold same_resources. intuition congruence. Qed.

Lemma RepoName_ok repo w name w1 :
  worktree.RepoName U env repo w = (Ok name, w1) ->
  exists out, Os.git env (Os.GitShowToplevel repo) w = (Some out, w1) /\
    name = Go.Base (Go.TrimSpace U out).
Proof.
  unfold worktree.RepoName, worktree.git_or. unfold_monad.
  destruct (Os.git env _ w) as [[out|] w']; [|done].
  intros [= <- <-]. by exists out.
Qed.

Lemma BranchExists_reports b repo branch w w2 :
  worktree.BranchExists env repo branch w = (Ok b, w2) ->
  exists o, Os.git env (Os.GitVerify repo branch) w = (o, w2) /\ b = is_some o.
Proof.
  unfold worktree.BranchExists, worktree.git_or. unfold_monad.
  destruct (Os.git env _ w) as [[out|] w']; intros [= <- <-]; eauto.
Qed.

Lemma new_calls_app w w' evs :
  Os.trace w' = Os.trace w ++ evs -> new_calls w w' = evs.
Proof. unfold new_calls. intros ->. by rewrite drop_app_length. Qed.

Lemma MkdirAll_log p w r w' :
  Os.do_MkdirAll env p w = (r, w') ->
  Os.trace w' = Os.trace w ++ [(Os.MkdirAll p, is_ok r)] /\
  Os.home w' = Os.home w /\ Os.files w' = Os.files w /\
  Os.toplevel w' = Os.toplevel w /\ Os.branches w' = Os.branches w /\
  Os.worktrees w' = Os.worktrees w.
Proof.
  unfold Os.do_MkdirAll. cbv zeta.
  destruct (Os.fails env _); by intros [= <- <-].
Qed.

Lemma WriteFile_log p data w r w' :
  Os.do_WriteFile env p data w = (r, w') ->
  Os.trace w' = Os.trace w ++ [(Os.WriteFile p data, is_ok r)] /\
  Os.home w' = Os.home w /\
  Os.toplevel w' = Os.toplevel w /\ Os.branches w' = Os.branches w /\
  Os.worktrees w' = Os.worktrees w.
Proof.
  unfold Os.do_WriteFile. cbv zeta.
  destruct (Os.write_fault_at env _); by intros [= <- <-].
Qed.

(** [Save] calls the file system only, and leaves the home directory and
    the state of the version-control tool as they are. *)
Lemma Save_world c w :
  let w' := world_after (config.Save env Y (c, w)) in
  Os.home w' = Os.home w /\ Os.toplevel w' = Os.toplevel w /\
  Os.branches w' = Os.branches w /\ Os.worktrees w' = Os.worktrees w /\
  exists evs, Os.trace w' = Os.trace w ++ evs /\
    Forall (fun e => is_fs_call e.1 = true) evs.
Proof.
  unfold world_after. rewrite Save_unfold.
  destruct (if String.eqb (config.path c) "" then _ else _) as [c1|e].
  2:{ cbn. split_and!; try done. exists []. by rewrite app_nil_r. }
  cbv zeta. destruct (Os.fails env _).
  { cbn. split_and!; try done. eexists [_]. split; [done|]. by repeat constructor. }
  destruct (config.Marshal Y c) as [data|].
  2:{ cbn. split_and!; try done. eexists [_]. split; [done|]. by repeat constructor. }
  destruct (Os.do_WriteFile env _ data _) as [r w2] eqn:Ew.
  apply WriteFile_log in Ew as (Ht & Hh & Htl & Hb & Hwt). cbn [fst snd].
  rewrite Ht, Hh, Htl, Hb, Hwt. cbn. split_and!; try done.
  eexists [_; _]. rewrite <-app_assoc. split; [done|]. by repeat constructor.
Qed.

Lemma fs_calls_no_add (evs : list (Os.call * bool)) r p b ok :
  Forall (fun e => is_fs_call e.1 = true) evs ->
  (Os.GitWorktreeAdd r p b, ok) ∉ evs.
Proof.
  intros Hfs Hin. rewrite Forall_forall in Hfs. by apply Hfs in Hin.
Qed.

(** The calls [Start] makes once the repository has resolved: every
    creation of a working copy is for the repository of the request, at the
    directory of the description, on the computed branch. *)
Lemma Start_calls opts c w out w1 r p b ok :
  Os.git env (Os.GitShowToplevel (task.RepoPath opts)) w = (Some out, w1) ->
  (Os.GitWorktreeAdd r p b, ok)
    ∈ new_calls w (world_after (task.Start U env Y opts (c, w))) ->
  r = task.RepoPath opts /\
  p = Go.Join [config.WorktreesBase c; Go.Base (Go.TrimSpace U out);
               worktree.SanitizeBranchName U (task.Description opts)] /\
  b = computed_branch U (config.BranchPrefix c) opts.
Proof.
  intros Hout. unfold world_after. rewrite Start_unfold. cbv zeta. rewrite Hout.
  apply git_log in Hout as (Ht1 & _).
  destruct (Os.git env (Os.GitVerify _ _) w1) as [o2 w2] eqn:E2.
  apply git_log in E2 as (Ht2 & _).
  destruct o2 as [v|]; cbn [fst snd].
  { rewrite (new_calls_app w w2 [_; _]) by (by rewrite Ht2, Ht1, <-app_assoc).
    intros Hin. in_trace Hin. }
  destruct (Os.do_MkdirAll env _ w2) as [r3 w3] eqn:E3.
  apply MkdirAll_log in E3 as (Ht3 & _).
  destruct r3 as [[]|e3]; cbn [fst snd].
  2:{ rewrite (new_calls_app w w3 [_; _; _])
        by (by rewrite Ht3, Ht2, Ht1, <-!app_assoc).
      intros Hin. in_trace Hin. }
  destruct (Os.git env (Os.GitWorktreeAdd _ _ _) w3) as [o4 w4] eqn:E4.
  apply git_log in E4 as (Ht4 & _).
  destruct o4 as [v|]; cbn [fst snd].
  2:{ rewrite (new_calls_app w w4 [_; _; _; _])
        by (by rewrite Ht4, Ht3, Ht2, Ht1, <-!app_assoc).
      intros Hin. in_trace Hin. done. }
  rewrite AddTask_unfold.
  match goal with |- context [config.Save env Y (?c', w4)] =>
    destruct (Save_world c' w4) as (_ & _ & _ & _ & evs & Ht5 & Hfs);
    unfold world_after in Ht5;
    destruct (config.Save env Y (c', w4)) as [[[]|e5] [c5 w5]]
  end; cbn [fst snd] in *.
  all: rewrite (new_calls_app w w5 ([_; _; _; _] ++ evs))
         by (by rewrite Ht5, Ht4, Ht3, Ht2, Ht1, <-!app_assoc).
  all: intros [Hin|Hin]%elem_of_app; [|by apply fs_calls_no_add in Hin].
  all: in_trace Hin; done.
Qed.

(** The task a successful [Start] returns. *)
Lemma Start_ok opts c w out w1 t s :
  Os.git env (Os.GitShowToplevel (task.RepoPath opts)) w = (Some out, w1) ->
  task.Start U env Y opts (c, w) = (Ok t, s) ->
  config.Worktree t
  = Go.Join [config.WorktreesBase c; Go.Base (Go.TrimSpace U out);
             worktree.SanitizeBranchName U (task.Description opts)] /\
  config.Branch t = computed_branch U (config.BranchPrefix c) opts /\
  config.Description t = task.Description opts /\
  config.Tasks s.1 = config.Tasks c ++ [t].
Proof.
  intros Hout. rewrite Start_unfold. cbv zeta. rewrite Hout.
  destruct (Os.git env (Os.GitVerify _ _) w1) as [[v|] w2]; [done|].
  destruct (Os.do_MkdirAll env _ w2) as [[[]|e3] w3]; [|done].
  destruct (Os.git env (Os.GitWorktreeAdd _ _ _) w3) as [[v|] w4]; [|done].
  match goal with |- context [config.AddTask env Y ?t' (c, w4)] =>
    pose proof (AddTask_tasks env Y t' c w4) as Htasks;
    unfold config_after in Htasks;
    destruct (config.AddTask env Y t' (c, w4)) as [[[]|e5] s5]
  end; [|done].
  by intros [= <- <-].
Qed.

End Lifecycle.

(** C5.  For every Start request whose repository resolves and whose
    computed branch name [BranchExists] reports as existing, [Start] fails
    with the collision error that names the branch; the registry is
    unchanged, the resources (files, directories, branches, working copies)
    are unchanged, and the only calls made are the two probes: the
    working-copy creation is not invoked. *)
Theorem Start_refuses_existing_branch (U : Unicode) (env : Os.Env)
    (Y : Yaml.Codec) (opts : task.StartOptions) (c : config.Config)
    (w w1 w2 : Os.World) (name : string) :
  let repo := task.RepoPath opts in
  let branch := computed_branch U (config.BranchPrefix c) opts in
  worktree.RepoName U env repo w = (Ok name, w1) ->
  worktree.BranchExists env repo branch w1 = (Ok true, w2) ->
  task.Start U env Y opts (c, w) = (Err (ErrBranchExists branch), (c, w2)) /\
  same_resources w w2 /\
  Os.trace w2
  = Os.trace w ++ [(Os.GitShowToplevel repo, true); (Os.GitVerify repo branch, true)].
Proof.
  intros repo branch (out & Hout & ->)%RepoName_ok (o & Ho & Hb)%BranchExists_reports.
  destruct o as [v|]; [|done]. clear Hb.
  rewrite Start_unfold. fold repo. cbv zeta. rewrite Hout. fold branch.
  rewrite Ho. split; [done|].
  pose proof (git_show_toplevel env _ _ _ _ Hout) as Hr1.
  pose proof (git_verify env _ _ _ _ _ Ho) as Hr2.
  apply git_log in Hout as (Ht1 & _). apply git_log in Ho as (Ht2 & _).
  split; [by eapply same_resources_trans|].
  rewrite Ht2, Ht1. by rewrite <-app_assoc.
Qed.

Lemma Start_refuses_existing_branch_witness :
  let r1 := worktree.RepoName ascii_only Sample.env "/src/app" Sample.world1 in
  let r2 :=
    worktree.BranchExists Sample.env "/src/app"
      "feature/add-user-authentication" r1.2 in
  task.Start ascii_only Sample.env TextCodec.codec Sample.opts1
    (Sample.cfg, Sample.world1)
  = (Err (ErrBranchExists "feature/add-user-authentication"),
     (Sample.cfg, r2.2)) /\
  same_resources Sample.world1 r2.2 /\
  Os.trace r2.2
  = Os.trace Sample.world1 ++
    [(Os.GitShowToplevel "/src/app", true);
     (Os.GitVerify "/src/app" "feature/add-user-authentication", true)].
Proof.
  intros r1 r2.
  apply (Start_refuses_existing_branch ascii_only Sample.env TextCodec.codec
           Sample.opts1 Sample.cfg Sample.world1 r1.2 r2.2 "app").
  - vm_compute. reflexivity.
  - vm_compute. reflexivity.
Defined.

(** C10.  For every Start request whose repository resolves, with or
    without a ticket: the worktree path of the task a successful [Start]
    returns, and the target of every working-copy creation [Start] invokes,
    is [WorktreesBase] joined with the repository name and the sanitized
    description.  Neither the ticket key nor the branch prefix enters the
    path: any other request against a repository of the same name whose
    description has the same slug, whatever its ticket key, ticket title,
    connector and branch prefix, targets the same directory. *)
Theorem Start_worktree_path (U : Unicode) (env : Os.Env) (Y : Yaml.Codec)
    (opts : task.StartOptions) (c : config.Config) (w w1 : Os.World)
    (name : string) :
  worktree.RepoName U env (task.RepoPath opts) w = (Ok name, w1) ->
  let dir :=
    Go.Join [config.WorktreesBase c; name;
             worktree.SanitizeBranchName U (task.Description opts)] in
  (forall t s,
     task.Start U env Y opts (c, w) = (Ok t, s) -> config.Worktree t = dir) /\
  (forall r p b ok,
     (Os.GitWorktreeAdd r p b, ok)
       ∈ new_calls w (world_after (task.Start U env Y opts (c, w))) ->
     p = dir) /\
  (forall opts' c' w' w1',
     worktree.RepoName U env (task.RepoPath opts') w' = (Ok name, w1') ->
     config.WorktreesBase c' = config.WorktreesBase c ->
     worktree.SanitizeBranchName U (task.Description opts')
     = worktree.SanitizeBranchName U (task.Description opts) ->
     forall r p b ok,
       (Os.GitWorktreeAdd r p b, ok)
         ∈ new_calls w' (world_after (task.Start U env Y opts' (c', w'))) ->
       p = dir).
Proof.
  intros (out & Hout & ->)%RepoName_ok dir. split; [|split].
  - intros t s Hs. by destruct (Start_ok U env Y _ _ _ _ _ _ _ Hout Hs) as [-> _].
  - intros r p b ok Hin.
    by destruct (Start_calls U env Y _ _ _ _ _ _ _ _ _ Hout Hin) as (_ & -> & _).
  - intros opts' c' w' w1' (out' & Hout' & Hname)%RepoName_ok Hbase Hslug r p b ok Hin.
    destruct (Start_calls U env Y _ _ _ _ _ _ _ _ _ Hout' Hin) as (_ & -> & _).
    unfold dir. by rewrite Hbase, Hslug, Hname.
Qed.

Lemma Start_worktree_path_witness :
  (forall t s,
     Sample.start Sample.opts1 (Sample.cfg, Sample.world) = (Ok t, s) ->
     config.Worktree t = "/home/dev/worktrees/app/add-user-authentication") /\
  config.Worktree
    (match (Sample.start Sample.opts1 (Sample.cfg, Sample.world)).1 with
     | Ok t => t
     | Err _ => Sample.task1
     end)
  = "/home/dev/worktrees/app/add-user-authentication".
Proof.
  split; [|reflexivity].
  apply (Start_worktree_path ascii_only Sample.env TextCodec.codec
           Sample.opts1 Sample.cfg Sample.world
           (worktree.RepoName ascii_only Sample.env "/src/app" Sample.world).2
           "app").
  vm_compute. reflexivity.
Defined.

(** C6, as the code has it.  [SanitizeBranchName] returns the empty slug
    for the empty input and has no error to report; and neither [Start] nor
    anything before it inspects the slug.  For every Start request whose
    description sanitizes to the empty slug, once the repository resolves,
    the computed branch is reported as not existing and the parent directory
    can be made, [Start] invokes the creation of the working copy, at the
    directory [WorktreesBase] joined with the repository name alone, on the
    branch computed from the empty slug. *)
Theorem Start_accepts_empty_slug (U : Unicode) (env : Os.Env) (Y : Yaml.Codec)
    (opts : task.StartOptions) (c : config.Config) (w w1 w2 : Os.World)
    (name : string) :
  let repo := task.RepoPath opts in
  let branch := computed_branch U (config.BranchPrefix c) opts in
  let dir := Go.Join [config.WorktreesBase c; name; ""] in
  worktree.SanitizeBranchName U (task.Description opts) = "" ->
  worktree.RepoName U env repo w = (Ok name, w1) ->
  worktree.BranchExists env repo branch w1 = (Ok false, w2) ->
  Os.fails env (Os.MkdirAll (Go.Dir dir)) = false ->
  worktree.SanitizeBranchName U "" = "" /\
  exists ok,
    (Os.GitWorktreeAdd repo dir branch, ok)
      ∈ new_calls w (world_after (task.Start U env Y opts (c, w))).
Proof.
  intros repo branch dir Hslug (out & Hout & ->)%RepoName_ok
    (o & Ho & Hb)%BranchExists_reports Hmk.
  split; [reflexivity|]. destruct o as [v|]; [done|]. clear Hb.
  unfold world_after. rewrite Start_unfold. cbv zeta. fold repo.
  rewrite Hout. fold branch. rewrite Ho, Hslug. fold dir.
  apply git_log in Hout as (Ht1 & _). apply git_log in Ho as (Ht2 & _).
  unfold Os.do_MkdirAll. cbv zeta. rewrite Hmk.
  set (w3 := Os.log _ true _).
  assert (Ht3 : Os.trace w3 = Os.trace w2 ++ [(Os.MkdirAll (Go.Dir dir), true)])
    by done.
  destruct (Os.git env (Os.GitWorktreeAdd _ _ _) w3) as [o4 w4] eqn:E4.
  apply git_log in E4 as (Ht4 & _). exists (is_some o4).
  destruct o4 as [v|]; cbn [fst snd].
  2:{ rewrite (new_calls_app w w4 [_; _; _; _])
        by (by rewrite Ht4, Ht3, Ht2, Ht1, <-!app_assoc).
      do 3 apply list_elem_of_further. apply list_elem_of_here. }
  rewrite AddTask_unfold.
  match goal with |- context [config.Save env Y (?c', w4)] =>
    destruct (Save_world env Y c' w4) as (_ & _ & _ & _ & evs & Ht5 & _);
    unfold world_after in Ht5;
    destruct (config.Save env Y (c', w4)) as [[[]|e5] [c5 w5]]
  end; cbn [fst snd] in *.
  all: rewrite (new_calls_app w w5 ([_; _; _; _] ++ evs))
         by (by rewrite Ht5, Ht4, Ht3, Ht2, Ht1, <-!app_assoc).
  all: apply elem_of_app; left.
  all: do 3 apply list_elem_of_further; apply list_elem_of_here.
Qed.

Lemma Start_accepts_empty_slug_witness :
  worktree.SanitizeBranchName ascii_only "" = "" /\
  exists ok,
    (Os.GitWorktreeAdd "/src/app" "/home/dev/worktrees/app" "feature/proj-1-", ok)
      ∈ new_calls Sample.world
          (world_after (Sample.start Sample.opts_ticket (Sample.cfg, Sample.world))).
Proof.
  set (r1 := worktree.RepoName ascii_only Sample.env "/src/app" Sample.world).
  set (r2 := worktree.BranchExists Sample.env "/src/app" "feature/proj-1-" r1.2).
  apply (Start_accepts_empty_slug ascii_only Sample.env TextCodec.codec
           Sample.opts_ticket Sample.cfg Sample.world r1.2 r2.2 "app").
  - reflexivity.
  - vm_compute. reflexivity.
  - vm_compute. reflexivity.
  - reflexivity.
Defined.

(** C6 as the specification words it fails: the request made for a ticket
    whose summary is ["???"] is not rejected.  The description sanitizes to
    the empty slug, and [Start] creates the branch and the working copy and
    registers the task. *)
Lemma Start_with_empty_slug_succeeds :
  worktree.SanitizeBranchName ascii_only (task.Description Sample.opts_ticket)
    = "" /\
  let '(r, (c', w')) :=
    Sample.start Sample.opts_ticket (Sample.cfg, Sample.world) in
  exists t,
    r = Ok t /\
    config.Branch t = "feature/proj-1-" /\
    config.Worktree t = "/home/dev/worktrees/app" /\
    config.Tasks c' = [t] /\
    Os.worktrees w' !! "/home/dev/worktrees/app"
      = Some ("/src/app", "feature/proj-1-") /\
    ("/src/app", "feature/proj-1-") ∈ Os.branches w'.
Proof.
  split; [reflexivity|].
  set (x := Sample.start _ _). vm_compute in x. subst x. cbv beta iota.
  eexists. split_and!; reflexivity.
Qed.

(** ** Finish *)

Lemma find_slot_Some key x l i t :
  config.find_slot key x l = Some (i, t) -> l !! i = Some t /\ key t = x.
Proof.
  revert i; induction l as [|a l IH]; intros i; cbn; [done|].
  destruct (String.eqb (key a) x) eqn:E.
  - intros [= <- <-]. by apply String.eqb_eq in E.
  - destruct (config.find_slot key x l) as [[j u]|]; [|done].
    intros [= <- <-]. by apply IH.
Qed.

Lemma find_slot_None key x l :
  x ∉ key <$> l -> config.find_slot key x l = None.
Proof.
  induction l as [|a l IH]; cbn; [done|]. intros Hx.
  apply not_elem_of_cons in Hx as [Hne Hx].
  destruct (String.eqb (key a) x) eqn:E.
  - by apply String.eqb_eq in E.
  - by rewrite IH.
Qed.

(** In a registry without duplicate keys, the slot found is the only one
    with the key. *)
Lemma find_slot_delete key x l i t :
  NoDup (key <$> l) ->
  config.find_slot key x l = Some (i, t) ->
  config.find_slot key x (delete i l) = None.
Proof.
  revert i t; induction l as [|a l IH]; intros i t; cbn; [done|].
  intros [Ha Hnd]%NoDup_cons.
  destruct (String.eqb (key a) x) eqn:E.
  - intros [= <- <-]. apply String.eqb_eq in E as <-. cbn.
    by apply find_slot_None.
  - destruct (config.find_slot key x l) as [[j u]|] eqn:Ef; [|done].
    intros [= <- <-]. change (delete (S j) (a :: l)) with (a :: delete j l).
    cbn [config.find_slot]. rewrite E. by rewrite (IH j u Hnd eq_refl).
Qed.

Section Finish.
Context (U : Unicode) (env : Os.Env) (Y : Yaml.Codec).

(** [Finish] step by step. *)
Lemma Finish_unfold id c w :
  task.Finish env Y id (c, w) =
  match config.FindTask c id with
  | Err e => (Err e, (c, w))
  | Ok (i, t) =>
      let repo := config.RepoPath t in
      match Os.git env (Os.GitWorktreeRemove repo (config.Worktree t)) w with
      | (None, w1) => (Err (ErrFinishRemove ErrRemoveWorktree), (c, w1))
      | (Some _, w1) =>
          let w2 :=
            match Os.git env (Os.GitBranchDelete repo (config.Branch t)) w1 with
            | (Some _, w2) => w2
            | (None, w2) =>
                Os.log (Os.Warning (ErrDeleteBranch (config.Branch t))) true w2
            end in
          match config.RemoveTask env Y id (c, w2) with
          | (Ok _, s) => (Ok (task.slot_after_removal (config.Tasks c) i t), s)
          | (Err e, s) => (Err e, s)
          end
      end
  end.
Proof.
  unfold task.Finish, worktree.Remove, worktree.DeleteBranch, worktree.git_or,
    Os.warn.
  unfold_monad. cbn [fst snd].
  destruct (config.FindTask c id) as [[i t]|e]; [|done].
  destruct (Os.git env (Os.GitWorktreeRemove _ _) w) as [[o1|] w1]; [|done].
  cbn [fst snd].
  destruct (Os.git env (Os.GitBranchDelete _ _) w1) as [[o2|] w2];
    cbn [fst snd];
    by destruct (config.RemoveTask env Y id _) as [[[]|e] s].
Qed.

Lemma git_worktree_remove repo p w o w' :
  Os.git env (Os.GitWorktreeRemove repo p) w = (Some o, w') ->
  Os.worktrees w' = delete p (Os.worktrees w).
Proof.
  unfold Os.git. repeat case_match; by intros [= <- <-].
Qed.

Lemma git_branch_delete repo b w o w' :
  Os.git env (Os.GitBranchDelete repo b) w = (o, w') ->
  Os.worktrees w' = Os.worktrees w.
Proof.
  unfold Os.git. repeat case_match; by intros [= <- <-].
Qed.

(** The registry part of [Save] depends on the home directory and on the
    files only, and of the environment on the faults of the file system. *)
Lemma Save_frame env' c w w' :
  (forall p, Os.fails env' (Os.MkdirAll p) = Os.fails env (Os.MkdirAll p)) ->
  (forall p, Os.write_fault_at env' p = Os.write_fault_at env p) ->
  Os.home w' = Os.home w -> Os.files w' = Os.files w ->
  let x := config.Save env Y (c, w) in
  let x' := config.Save env' Y (c, w') in
  x'.1 = x.1 /\ config_after x' = config_after x /\
  Os.files (world_after x') = Os.files (world_after x).
Proof.
  intros Hmk Hwf Hh Hf. cbv zeta. unfold config_after, world_after.
  rewrite !Save_unfold, Hh.
  destruct (if String.eqb (config.path c) "" then _ else _) as [c1|e]; [|done].
  cbv zeta. rewrite Hmk. destruct (Os.fails env _); [done|].
  destruct (config.Marshal Y c) as [data|]; [|done].
  unfold Os.do_WriteFile. cbv zeta. rewrite Hwf.
  destruct (Os.write_fault_at env _); cbn; by rewrite ?Hf.
Qed.

Lemma RemoveTask_frame env' id c w w' :
  (forall p, Os.fails env' (Os.MkdirAll p) = Os.fails env (Os.MkdirAll p)) ->
  (forall p, Os.write_fault_at env' p = Os.write_fault_at env p) ->
  Os.home w' = Os.home w -> Os.files w' = Os.files w ->
  let x := config.RemoveTask env Y id (c, w) in
  let x' := config.RemoveTask env' Y id (c, w') in
  x'.1 = x.1 /\ config_after x' = config_after x /\
  Os.files (world_after x') = Os.files (world_after x).
Proof.
  intros Hmk Hwf Hh Hf. cbv zeta. rewrite !RemoveTask_unfold.
  destruct (config.find_slot _ _ _) as [[i t]|]; [|done].
  by apply Save_frame.
Qed.

Lemma RemoveTask_world id c w :
  let w' := world_after (config.RemoveTask env Y id (c, w)) in
  Os.home w' = Os.home w /\ Os.worktrees w' = Os.worktrees w /\
  exists evs, Os.trace w' = Os.trace w ++ evs.
Proof.
  cbv zeta. rewrite RemoveTask_unfold.
  destruct (config.find_slot _ _ _) as [[i t]|].
  - match goal with |- context [config.Save env Y (?c', w)] =>
      destruct (Save_world env Y c' w) as (? & _ & _ & ? & evs & ? & _)
    end.
    split_and!; [done|done|by exists evs].
  - split_and!; [done|done|]. exists []. by rewrite app_nil_r.
Qed.

(** The best-effort deletion of the branch, with the warning when it
    fails: the working copies, the files and the home directory stay. *)
Lemma delete_branch_step repo b w1 :
  let w2 :=
    match Os.git env (Os.GitBranchDelete repo b) w1 with
    | (Some _, w2) => w2
    | (None, w2) => Os.log (Os.Warning (ErrDeleteBranch b)) true w2
    end in
  Os.home w2 = Os.home w1 /\ Os.files w2 = Os.files w1 /\
  Os.worktrees w2 = Os.worktrees w1 /\
  exists evs, Os.trace w2 = Os.trace w1 ++ evs /\
    Forall (fun e => is_fs_call e.1 = false) evs.
Proof.
  cbv zeta.
  destruct (Os.git env _ w1) as [o w2] eqn:E.
  pose proof (git_branch_delete _ _ _ _ _ E) as Hwt.
  apply git_log in E as (Ht & Hh & Hf & _).
  destruct o; cbn; split_and!; try done.
  - eexists [_]. split; [done|]. by repeat constructor.
  - eexists [_; _]. rewrite Ht, <-app_assoc. split; [done|]. by repeat constructor.
Qed.

Lemma git_failing_delete_other c w :
  (forall r b, c <> Os.GitBranchDelete r b) ->
  Os.git (failing_branch_delete env) c w = Os.git env c w.
Proof.
  intros Hc. unfold Os.git. destruct c; try done. by destruct (Hc repo branch).
Qed.

End Finish.

Lemma FindTask_Ok c id i t :
  config.FindTask c id = Ok (i, t) ->
  config.find_slot config.ID id (config.Tasks c) = Some (i, t).
Proof.
  unfold config.FindTask. by destruct (config.find_slot _ _ _); intros [= ->].
Qed.

(** After a successful [Finish]: the working copy of the task is gone, the
    slot of the task is dropped from the registry, the id is no longer found
    when no other task has it, and the registry file holds the registry
    without the task. *)
Lemma Finish_success env Y id c w t' :
  let x := task.Finish env Y id (c, w) in
  x.1 = Ok t' ->
  exists i t data,
    config.FindTask c id = Ok (i, t) /\
    Os.worktrees (world_after x) !! config.Worktree t = None /\
    config.Tasks (config_after x) = delete i (config.Tasks c) /\
    (NoDup (config.ID <$> config.Tasks c) ->
     config.FindTask (config_after x) id = Err (ErrTaskNotFound id)) /\
    config.Marshal Y (config_after x) = Some data /\
    Os.files (world_after x) !! config.path (config_after x) = Some data.
Proof.
  cbv zeta. unfold config_after, world_after. rewrite Finish_unfold.
  destruct (config.FindTask c id) as [[i t]|e] eqn:Ef; [|by cbn].
  apply FindTask_Ok in Ef. cbv zeta.
  destruct (Os.git env (Os.GitWorktreeRemove _ _) w) as [[o1|] w1] eqn:E1;
    [|by cbn].
  apply git_worktree_remove in E1.
  destruct (delete_branch_step env (config.RepoPath t) (config.Branch t) w1)
    as (_ & _ & Hwt2 & _).
  set (w2 := match Os.git env (Os.GitBranchDelete _ _) w1 with
             | (Some _, w2) => w2 | (None, w2) => _ end) in *.
  rewrite RemoveTask_unfold, Ef.
  match goal with |- context [config.Save env Y (?c', w2)] =>
    destruct (Save_world env Y c' w2) as (_ & _ & _ & Hwt3 & _);
    unfold world_after in Hwt3;
    destruct (config.Save env Y (c', w2)) as [[[]|e] [c3 w3]] eqn:Es
  end; [|by cbn].
  intros _. cbn [fst snd] in *.
  apply Save_ok in Es as (data & Hm & Hfiles & _ & Hc3 & _).
  assert (Htasks : config.Tasks c3 = delete i (config.Tasks c)).
  { rewrite Hc3. cbn [config.Tasks config.set_path config.set_Tasks].
    by rewrite Nat.add_1_r, <-delete_take_drop. }
  exists i, t, data. split_and!.
  - done.
  - by rewrite Hwt3, Hwt2, E1, lookup_delete_eq.
  - done.
  - intros Hnd. unfold config.FindTask.
    by rewrite Htasks, (find_slot_delete _ _ _ _ _ Hnd Ef).
  - rewrite Hc3. exact Hm.
  - by rewrite Hfiles, lookup_insert_eq.
Qed.

(** Forcing the deletion of the branch to fail changes neither the
    result of [Finish] nor the registry nor the working copies. *)
Lemma Finish_delete_nonfatal env Y id c w :
  let x := task.Finish env Y id (c, w) in
  let x' := task.Finish (failing_branch_delete env) Y id (c, w) in
  x'.1 = x.1 /\ config_after x' = config_after x /\
  Os.files (world_after x') = Os.files (world_after x) /\
  Os.worktrees (world_after x') = Os.worktrees (world_after x).
Proof.
  cbv zeta. rewrite !Finish_unfold.
  destruct (config.FindTask c id) as [[i t]|e] eqn:Ef; [|done]. cbv zeta.
  rewrite git_failing_delete_other by done.
  destruct (Os.git env (Os.GitWorktreeRemove _ _) w) as [[o1|] w1] eqn:E1; [|done].
  destruct (delete_branch_step env (config.RepoPath t) (config.Branch t) w1)
    as (Hh2 & Hf2 & Hwt2 & _).
  destruct (delete_branch_step (failing_branch_delete env)
              (config.RepoPath t) (config.Branch t) w1)
    as (Hh2' & Hf2' & Hwt2' & _).
  set (w2 := match Os.git env (Os.GitBranchDelete _ _) w1 with
             | (Some _, w2) => w2 | (None, w2) => _ end) in *.
  set (w2' := match Os.git (failing_branch_delete env) _ w1 with
              | (Some _, w2) => w2 | (None, w2) => _ end) in *.
  destruct (RemoveTask_frame env Y (failing_branch_delete env) id c w2 w2')
    as (Hr & Hc & Hf); [done|done|congruence|congruence|].
  destruct (RemoveTask_world env Y id c w2) as (_ & Hwt3 & _).
  destruct (RemoveTask_world (failing_branch_delete env) Y id c w2')
    as (_ & Hwt3' & _).
  unfold config_after, world_after in *.
  destruct (config.RemoveTask env Y id (c, w2)) as [[[]|e3] [c3 w3]],
    (config.RemoveTask (failing_branch_delete env) Y id (c, w2'))
      as [[[]|e3'] [c3' w3']];
    cbn [fst snd] in *; simplify_eq; split_and!; congruence.
Qed.

(** Whenever [Finish] has touched the registry, in memory or on disk, its
    first call removed the working copy, with success. *)
Lemma Finish_order env Y id c w :
  let x := task.Finish env Y id (c, w) in
  config_after x <> c \/ Os.files (world_after x) <> Os.files w \/
  (exists p d ok, (Os.WriteFile p d, ok) ∈ new_calls w (world_after x)) ->
  exists i t rest,
    config.FindTask c id = Ok (i, t) /\
    new_calls w (world_after x)
    = (Os.GitWorktreeRemove (config.RepoPath t) (config.Worktree t), true)
        :: rest /\
    Os.worktrees (world_after x) !! config.Worktree t = None.
Proof.
  cbv zeta. unfold config_after, world_after. rewrite Finish_unfold.
  destruct (config.FindTask c id) as [[i t]|e] eqn:Ef.
  2:{ cbn [fst snd]. rewrite (new_calls_app w w []) by by rewrite app_nil_r.
      intros [H|[H|(p & d & ok & H)]]; [done|done|by apply elem_of_nil in H]. }
  cbv zeta.
  destruct (Os.git env (Os.GitWorktreeRemove _ _) w) as [[o1|] w1] eqn:E1.
  2:{ cbn [fst snd]. apply git_log in E1 as (Ht1 & _ & Hf1 & _).
      rewrite (new_calls_app w w1 [_]) by exact Ht1.
      intros [H|[H|(p & d & ok & H)]]; [done|done|in_trace H]. }
  pose proof (git_worktree_remove env _ _ _ _ _ E1) as Hwt1.
  apply git_log in E1 as (Ht1 & _).
  destruct (delete_branch_step env (config.RepoPath t) (config.Branch t) w1)
    as (_ & _ & Hwt2 & evs2 & Ht2 & _).
  set (w2 := match Os.git env (Os.GitBranchDelete _ _) w1 with
             | (Some _, w2) => w2 | (None, w2) => _ end) in *.
  destruct (RemoveTask_world env Y id c w2) as (_ & Hwt3 & evs3 & Ht3).
  unfold world_after in *.
  intros _. exists i, t, (evs2 ++ evs3).
  destruct (config.RemoveTask env Y id (c, w2)) as [[[]|e3] [c3 w3]];
    cbn [fst snd] in *.
  all: split_and!; [done| |by rewrite Hwt3, Hwt2, Hwt1, lookup_delete_eq].
  all: apply new_calls_app; by rewrite Ht3, Ht2, Ht1, <-!app_assoc.
Qed.

(** C4.  For every id: after a successful [Finish] the working copy of the
    task has been removed, the record of the task is dropped from the
    registry, in memory and in the registry file, and a lookup of the id
    returns NotFound (the id is that of one task: ids are unique in the
    registry).  A failure of the branch deletion is not fatal: forcing it
    changes neither the result of [Finish] nor the registry, in memory or on
    disk, nor the working copies.  And the registry is never touched before
    the working copy is gone: if the registry in memory or the files differ
    afterwards, or a file was written at all, then the first call [Finish]
    made was the removal of the working copy, it succeeded, and the working
    copy is absent. *)
Theorem Finish_removes_then_unregisters (env : Os.Env) (Y : Yaml.Codec)
    (id : string) (c : config.Config) (w : Os.World) :
  let x := task.Finish env Y id (c, w) in
  let x' := task.Finish (failing_branch_delete env) Y id (c, w) in
  (forall t',
     x.1 = Ok t' ->
     exists i t data,
       config.FindTask c id = Ok (i, t) /\
       Os.worktrees (world_after x) !! config.Worktree t = None /\
       config.Tasks (config_after x) = delete i (config.Tasks c) /\
       (NoDup (config.ID <$> config.Tasks c) ->
        config.FindTask (config_after x) id = Err (ErrTaskNotFound id)) /\
       config.Marshal Y (config_after x) = Some data /\
       Os.files (world_after x) !! config.path (config_after x) = Some data) /\
  (x'.1 = x.1 /\ config_after x' = config_after x /\
   Os.files (world_after x') = Os.files (world_after x) /\
   Os.worktrees (world_after x') = Os.worktrees (world_after x)) /\
  (config_after x <> c \/ Os.files (world_after x) <> Os.files w \/
   (exists p d ok, (Os.WriteFile p d, ok) ∈ new_calls w (world_after x)) ->
   exists i t rest,
     config.FindTask c id = Ok (i, t) /\
     new_calls w (world_after x)
     = (Os.GitWorktreeRemove (config.RepoPath t) (config.Worktree t), true)
         :: rest /\
     Os.worktrees (world_after x) !! config.Worktree t = None).
Proof.
  cbv zeta. split; [|split].
  - intros t'. apply Finish_success.
  - apply Finish_delete_nonfatal.
  - apply Finish_order.
Qed.

(** A run of [Finish] in which the deletion of the branch fails. *)
Lemma Finish_removes_then_unregisters_witness :
  let env := failing_branch_delete Sample.env in
  let x := task.Finish env TextCodec.codec "wt-7778797a"
             (Sample.cfg1, Sample.world1) in
  x.1 = Ok Sample.task1 /\
  (Os.GitBranchDelete "/src/app" "feature/add-user-authentication", false)
    ∈ new_calls Sample.world1 (world_after x) /\
  exists i t data,
    config.FindTask Sample.cfg1 "wt-7778797a" = Ok (i, t) /\
    Os.worktrees (world_after x) !! config.Worktree t = None /\
    config.Tasks (config_after x) = [] /\
    config.FindTask (config_after x) "wt-7778797a"
      = Err (ErrTaskNotFound "wt-7778797a") /\
    config.Marshal TextCodec.codec (config_after x) = Some data /\
    Os.files (world_after x) !! config.path (config_after x) = Some data.
Proof.
  intros env x.
  assert (Hx : x.1 = Ok Sample.task1) by (vm_compute; reflexivity).
  split; [exact Hx|]. split.
  { vm_compute. do 1 apply list_elem_of_further. apply list_elem_of_here. }
  destruct (Finish_removes_then_unregisters env TextCodec.codec "wt-7778797a"
              Sample.cfg1 Sample.world1) as [Hok _].
  destruct (Hok Sample.task1 Hx) as (i & t & data & Hf & Hwt & Ht & Hnf & Hm & Hd).
  exists i, t, data.
  split_and!; [exact Hf|exact Hwt| |apply Hnf, NoDup_singleton|exact Hm|exact Hd].
  transitivity (delete i (config.Tasks Sample.cfg1)); [exact Ht|].
  vm_compute in Hf. by injection Hf as <- <-.
Defined.

(** The task [Finish] returns is read through the pointer [FindTask] gave,
    after the removal has shifted the slice: it is the task now in the slot.
    With two tasks registered, finishing the first returns the record of the
    second. *)
Lemma Finish_result env Y id c w t' :
  (task.Finish env Y id (c, w)).1 = Ok t' ->
  exists i t,
    config.FindTask c id = Ok (i, t) /\
    t' = task.slot_after_removal (config.Tasks c) i t.
Proof.
  rewrite Finish_unfold.
  destruct (config.FindTask c id) as [[i t]|e]; [|by cbn]. cbv zeta.
  destruct (Os.git env (Os.GitWorktreeRemove _ _) w) as [[o1|] w1]; [|by cbn].
  destruct (config.RemoveTask env Y id _) as [[[]|e] s]; [|by cbn].
  intros [= <-]. by exists i, t.
Qed.

Example Finish_returns_the_slot :
  let x := task.Finish Sample.env TextCodec.codec "wt-7778797a"
             (Sample.cfg2, Sample.world2) in
  x.1 = Ok Sample.task2 /\ config.Tasks (config_after x) = [Sample.task2].
Proof. vm_compute. by split. Qed.

(** ** More on strings *)

Lemma append_nil b : "" +:+ b = b.
Proof. reflexivity. Qed.

Lemma append_cons c a b : String c a +:+ b = String c (a +:+ b).
Proof. reflexivity. Qed.

Lemma length_app a b :
  String.length (a +:+ b) = String.length a + String.length b.
Proof.
  induction a as [|c a IH]; [done|].
  rewrite append_cons. simpl. by rewrite IH.
Qed.

Lemma last_byte_app a b :
  b <> "" -> Go.last_byte (a +:+ b) = Go.last_byte b.
Proof.
  intros Hb. induction a as [|c a IH]; [done|].
  change (String c a +:+ b) with (String c (a +:+ b)).
  destruct (a +:+ b) as [|d r] eqn:E.
  - destruct a as [|e a]; [|discriminate E]. by rewrite append_nil in E.
  - rewrite last_byte_cons. exact IH.
Qed.

Lemma all_bytes_app p a b :
  Go.all_bytes p (a +:+ b) = Go.all_bytes p a && Go.all_bytes p b.
Proof.
  induction a as [|c a IH]; [done|].
  rewrite append_cons. simpl. by rewrite IH, andb_assoc.
Qed.

Lemma all_bytes_impl (p q : ascii -> bool) s :
  (forall c, p c = true -> q c = true) ->
  Go.all_bytes p s = true -> Go.all_bytes q s = true.
Proof.
  intros Hpq. induction s as [|c s IH]; simpl; [done|].
  intros [Hc Hs]%andb_true_iff. by rewrite (Hpq c Hc), IH.
Qed.

Lemma all_bytes_trim_left p q s :
  Go.all_bytes p s = true -> Go.all_bytes p (Go.trim_left q s) = true.
Proof.
  induction s as [|c s IH]; simpl; [done|].
  intros H. destruct (q c); [|done].
  apply andb_true_iff in H as [_ H]. auto.
Qed.

Lemma all_bytes_trim_right p q s :
  Go.all_bytes p s = true -> Go.all_bytes p (Go.trim_right q s) = true.
Proof.
  induction s as [|c s IH]; simpl; [done|].
  intros [Hc Hs]%andb_true_iff. specialize (IH Hs).
  destruct (Go.trim_right q s) as [|d r].
  - destruct (q c); simpl; [done|]. by rewrite Hc.
  - cbn [Go.all_bytes] in *. by rewrite Hc.
Qed.

Lemma map_bytes_trim_left (f : ascii -> ascii) q s :
  (forall c, q (f c) = q c) ->
  Go.trim_left q (Go.map_bytes f s) = Go.map_bytes f (Go.trim_left q s).
Proof.
  intros Hq. induction s as [|c s IH]; simpl; [done|].
  rewrite Hq. by destruct (q c).
Qed.

Lemma map_bytes_trim_right (f : ascii -> ascii) q s :
  (forall c, q (f c) = q c) ->
  Go.trim_right q (Go.map_bytes f s) = Go.map_bytes f (Go.trim_right q s).
Proof.
  intros Hq. induction s as [|c s IH]; simpl; [done|].
  rewrite IH, Hq. destruct (Go.trim_right q s); simpl; [|done].
  by destruct (q c).
Qed.

Lemma all_bytes_first p s c :
  Go.all_bytes p s = true -> Go.first_byte s = Some c -> p c = true.
Proof.
  destruct s as [|a s]; simpl; [done|].
  intros [Ha _]%andb_true_iff [= <-]. done.
Qed.

Lemma all_bytes_last p s c :
  Go.all_bytes p s = true -> Go.last_byte s = Some c -> p c = true.
Proof.
  induction s as [|a s IH]; [done|].
  cbn [Go.all_bytes]. intros [Ha Hs]%andb_true_iff.
  destruct s as [|b s]; [by intros [= <-]|].
  rewrite last_byte_cons. by apply IH.
Qed.

(** ** More on branch names *)

Lemma slug_alphabet h s :
  slug_from h s ->
  Go.all_bytes is_slug_byte s = true /\ no_double_hyphen s = true.
Proof.
  revert h; induction s as [|c s IH]; intros h; [done|].
  cbn [slug_from Go.all_bytes no_double_hyphen]. unfold is_slug_byte at 1.
  destruct (hyphen c) eqn:E.
  - intros [_ Hs]. destruct (IH _ Hs) as [Ha Hn]. rewrite Ha, orb_true_r.
    split; [done|]. destruct s as [|b s]; [done|].
    cbn [slug_from] in Hs. destruct (hyphen b); [by destruct Hs|].
    by rewrite Hn.
  - intros [Hc Hs]. destruct (IH _ Hs) as [Ha Hn]. rewrite Hc, Ha.
    split; [done|]. destruct s as [|b s]; [done|]. by rewrite Hn.
Qed.

(** X1.  Whatever the description, the slug is made of the bytes [a-z],
    [0-9] and the hyphen only, and has no two hyphens in a row. *)
Theorem SanitizeBranchName_alphabet (U : Unicode) (x : string) :
  let r := worktree.SanitizeBranchName U x in
  Go.all_bytes is_slug_byte r = true /\ no_double_hyphen r = true.
Proof.
  destruct (SanitizeBranchName_slug U x) as (Hs & _ & _).
  by eapply slug_alphabet.
Qed.

Lemma length_cap60 s : String.length (cap60 s) <= 60.
Proof.
  unfold cap60. destruct (Nat.leb_spec (String.length s) 60); [done|].
  etrans; [apply length_trim_right|apply length_slice_to].
Qed.

Lemma length_with_prefix prefix name :
  String.length (with_prefix prefix name)
  <= String.length prefix + 1 + String.length name.
Proof.
  destruct prefix as [|c p]; [simpl; lia|].
  unfold with_prefix. rewrite !length_app. simpl. lia.
Qed.

(** X2.  The names of the branches are bounded: for every prefix,
    description, ticket key and summary, the name without prefix has at
    most 60 bytes, and the name with the prefix has at most 61 bytes more
    than the prefix. *)
Theorem branch_names_bounded (U : Unicode)
    (prefix description ticketKey summary : string) :
  String.length (worktree.BranchName U "" description) <= 60 /\
  String.length (worktree.BranchNameFromTicket U "" ticketKey summary) <= 60 /\
  String.length (worktree.BranchName U prefix description)
    <= String.length prefix + 61 /\
  String.length (worktree.BranchNameFromTicket U prefix ticketKey summary)
    <= String.length prefix + 61.
Proof.
  unfold worktree.BranchName, worktree.BranchNameFromTicket. cbv zeta.
  rewrite !cap60_ltb, !with_prefix_eqb.
  destruct (SanitizeBranchName_slug U description) as (_ & _ & Hd).
  set (name := cap60 _). pose proof (length_cap60 (Go.ToLower U ticketKey +:+ "-"
    +:+ worktree.SanitizeBranchName U summary)) as Hn. fold name in Hn.
  pose proof (length_with_prefix prefix name).
  pose proof (length_with_prefix prefix (worktree.SanitizeBranchName U description)).
  cbn [with_prefix]. split_and!; lia.
Qed.

Lemma lower_byte_space c : is_ascii_space (lower_byte c) = is_ascii_space c.
Proof.
  unfold lower_byte. destruct (is_upper c) eqn:E; [|done].
  unfold is_ascii_space, is_upper, byte_val in *.
  rewrite N_ascii_embedding by (byte_cases; lia).
  byte_cases; lia.
Qed.

Lemma lower_byte_ascii c : is_ascii c = true -> is_ascii (lower_byte c) = true.
Proof.
  unfold lower_byte. destruct (is_upper c) eqn:E; [|done].
  unfold is_ascii, is_upper, byte_val in *. intros _.
  rewrite N_ascii_embedding by (byte_cases; lia).
  byte_cases; lia.
Qed.

Lemma all_bytes_map_lower s :
  Go.all_bytes is_ascii s = true ->
  Go.all_bytes is_ascii (Go.map_bytes lower_byte s) = true.
Proof.
  induction s as [|c s IH]; simpl; [done|].
  intros [Hc Hs]%andb_true_iff. by rewrite lower_byte_ascii, IH.
Qed.

Section Case.
Context (U : Unicode).

(** On ASCII input [TrimSpace] is the trimming of the ASCII white space. *)
Lemma TrimSpace_ascii s :
  Go.all_bytes is_ascii s = true ->
  Go.TrimSpace U s
  = Go.trim_right is_ascii_space (Go.trim_left is_ascii_space s).
Proof.
  intros Hs. unfold Go.TrimSpace.
  pose proof (all_bytes_trim_left _ is_ascii_space _ Hs) as Ht.
  set (t := Go.trim_left is_ascii_space s) in *.
  destruct (Go.first_byte t) as [c|] eqn:Ec.
  - rewrite (all_bytes_first _ _ _ Ht Ec). unfold Go.trim_space_stop.
    pose proof (all_bytes_trim_right _ is_ascii_space _ Ht) as Hr.
    destruct (Go.last_byte _) as [d|] eqn:Ed; [|done].
    by rewrite (all_bytes_last _ _ _ Hr Ed).
  - by destruct t.
Qed.

(** The lower-cased, trimmed form of an ASCII description. *)
Lemma lowered_ascii s :
  Go.all_bytes is_ascii s = true ->
  Go.ToLower U (Go.TrimSpace U s)
  = Go.trim_right is_ascii_space
      (Go.trim_left is_ascii_space (Go.map_bytes lower_byte s)).
Proof.
  intros Hs. rewrite (TrimSpace_ascii _ Hs). unfold Go.ToLower.
  rewrite all_bytes_trim_right by by apply all_bytes_trim_left.
  rewrite <-map_bytes_trim_right by apply lower_byte_space.
  by rewrite <-map_bytes_trim_left by apply lower_byte_space.
Qed.

End Case.

(** X3.  The slug does not depend on the case of the ASCII letters: two
    ASCII descriptions that are equal once lower-cased byte by byte get the
    same slug (and so the same branch and the same directory). *)
Theorem SanitizeBranchName_ignores_case (U : Unicode) (x y : string) :
  Go.all_bytes is_ascii x = true ->
  Go.all_bytes is_ascii y = true ->
  Go.map_bytes lower_byte x = Go.map_bytes lower_byte y ->
  worktree.SanitizeBranchName U x = worktree.SanitizeBranchName U y.
Proof.
  intros Hx Hy Hxy. unfold worktree.SanitizeBranchName.
  by rewrite (lowered_ascii U x Hx), (lowered_ascii U y Hy), Hxy.
Qed.

Lemma SanitizeBranchName_ignores_case_witness :
  worktree.SanitizeBranchName ascii_only "Add LOGIN page"
  = worktree.SanitizeBranchName ascii_only "add login Page".
Proof.
  apply (SanitizeBranchName_ignores_case ascii_only
           "Add LOGIN page" "add login Page"); reflexivity.
Defined.

Lemma last_byte_with_prefix prefix name :
  Go.last_byte (with_prefix prefix name) = Some "-"%char
  <-> Go.last_byte name = Some "-"%char.
Proof.
  destruct prefix as [|c p]; [done|]. unfold with_prefix.
  destruct name as [|d n].
  - rewrite last_byte_app by done. done.
  - rewrite last_byte_app by (by rewrite append_cons).
    by rewrite last_byte_app.
Qed.

(** X4.  A ticket branch may end with a hyphen, which a description branch
    never does: for every prefix, ticket key and summary, the name
    [BranchNameFromTicket] returns ends with a hyphen exactly when the
    summary has no letter and no digit left after sanitizing and the
    lower-cased key has less than 60 bytes. *)
Theorem BranchNameFromTicket_trailing_hyphen (U : Unicode)
    (prefix ticketKey summary : string) :
  Go.last_byte (worktree.BranchNameFromTicket U prefix ticketKey summary)
    = Some "-"%char
  <-> worktree.SanitizeBranchName U summary = "" /\
      String.length (Go.ToLower U ticketKey) < 60.
Proof.
  unfold worktree.BranchNameFromTicket. cbv zeta.
  rewrite with_prefix_eqb, last_byte_with_prefix.
  destruct (SanitizeBranchName_slug U summary) as (_ & Hl & _).
  set (slug := worktree.SanitizeBranchName U summary) in *.
  set (key := Go.ToLower U ticketKey).
  assert (Hlen : String.length (key +:+ "-" +:+ slug)
                 = String.length key + 1 + String.length slug).
  { rewrite !length_app. simpl. lia. }
  destruct (Nat.ltb_spec 60 (String.length (key +:+ "-" +:+ slug))) as [Hgt|Hle].
  - split.
    + intros H. unfold Go.TrimRight in H. by apply trim_right_last in H.
    + intros [E Hk]. rewrite Hlen, E in Hgt. simpl in Hgt. lia.
  - rewrite Hlen in Hle. destruct slug as [|d r] eqn:Es.
    + rewrite last_byte_app by done. simpl in Hle. split; [|done].
      intros _. split; [done|lia].
    + rewrite last_byte_app by done.
      change ("-" +:+ String d r) with (String "-" (String d r)).
      rewrite last_byte_cons. split; [done|]. by intros [? _].
Qed.

(** ** The listing of the working copies *)

Lemma Split_nonempty s sep : Str.Split s sep <> [].
Proof.
  destruct s as [|c s]; simpl; [done|].
  destruct (is_byte sep c); [done|]. by destruct (Str.Split s sep).
Qed.

Lemma Split_app a b sep :
  Str.Split (a +:+ String sep b) sep = Str.Split a sep ++ Str.Split b sep.
Proof.
  induction a as [|c a IH].
  - rewrite append_nil. simpl. unfold is_byte. by rewrite Ascii.eqb_refl.
  - rewrite append_cons. simpl. rewrite IH.
    destruct (is_byte sep c); [done|].
    pose proof (Split_nonempty a sep). by destruct (Str.Split a sep).
Qed.

Lemma Split_line s sep :
  Go.all_bytes (fun c => negb (is_byte sep c)) s = true ->
  Str.Split s sep = [s].
Proof.
  induction s as [|c s IH]; simpl; [done|].
  intros [Hc Hs]%andb_true_iff. apply negb_true_iff in Hc. rewrite Hc.
  by rewrite IH.
Qed.

Lemma Split_no_sep s sep :
  Forall (fun x => Go.all_bytes (fun c => negb (is_byte sep c)) x = true)
    (Str.Split s sep).
Proof.
  induction s as [|c s IH]; simpl; [by repeat constructor|].
  destruct (is_byte sep c) eqn:E; [by constructor|].
  destruct (Str.Split s sep) as [|x xs]; [repeat constructor; simpl; by rewrite E|].
  apply Forall_cons in IH as [Hx Hxs]. constructor; [|done].
  simpl. by rewrite E.
Qed.

Lemma Split_unlines ls :
  Forall (fun l => no_newline l = true) ls ->
  Str.Split (unlines ls) newline = ls ++ [""].
Proof.
  induction 1 as [|l ls Hl _ IH]; [done|].
  cbn [unlines]. rewrite Split_app, IH. by rewrite (Split_line l newline Hl).
Qed.

Lemma HasPrefix_app p s : Str.HasPrefix (p +:+ s) p = true.
Proof.
  induction p as [|c p IH]; [done|].
  rewrite append_cons. simpl. by rewrite Ascii.eqb_refl.
Qed.

Lemma slice_from_app p s : Str.slice_from (String.length p) (p +:+ s) = s.
Proof. induction p as [|c p IH]; [by destruct s|]. by rewrite append_cons. Qed.

Lemma TrimPrefix_app p s : Str.TrimPrefix (p +:+ s) p = s.
Proof. unfold Str.TrimPrefix. by rewrite HasPrefix_app, slice_from_app. Qed.

Lemma first_byte_app a b :
  a <> "" -> Go.first_byte (a +:+ b) = Go.first_byte a.
Proof. by destruct a. Qed.

Section Listing.
Context (U : Unicode).

Lemma TrimSpace_id s c d :
  Go.first_byte s = Some c -> is_ascii c = true -> is_ascii_space c = false ->
  Go.last_byte s = Some d -> is_ascii d = true -> is_ascii_space d = false ->
  Go.TrimSpace U s = s.
Proof.
  intros Hc Hac Hsc Hd Had Hsd. unfold Go.TrimSpace.
  rewrite trim_left_id by (intros ?; rewrite Hc; by intros [= <-]).
  rewrite Hc, Hac. unfold Go.trim_space_stop.
  rewrite trim_right_id by (intros ?; rewrite Hd; by intros [= <-]).
  by rewrite Hd, Had.
Qed.

(** A line made of a tag and a value is read as it is. *)
Lemma TrimSpace_tagged tag v c :
  Go.first_byte tag = Some c -> is_ascii c = true -> is_ascii_space c = false ->
  line_value v -> Go.TrimSpace U (tag +:+ v) = tag +:+ v.
Proof.
  intros Hc Hac Hsc (_ & d & Hd & Had & Hsd).
  apply (TrimSpace_id _ c d); try done.
  - rewrite first_byte_app; [done|]. by destruct tag.
  - rewrite last_byte_app; [done|]. by destruct v.
Qed.

Lemma parse_line_paths st line :
  Forall (fun i => worktree_info.Path i <> "") st.1 ->
  Forall (fun i => worktree_info.Path i <> "") (worktree_info.parse_line U st line).1.
Proof.
  destruct st as [worktrees current]. unfold worktree_info.parse_line.
  cbn [fst]. intros H.
  destruct (String.eqb (Go.TrimSpace U line) "").
  - destruct (String.eqb (worktree_info.Path current) "") eqn:E; cbn; [done|].
    apply Forall_app. split; [done|]. constructor; [|done].
    by apply String.eqb_neq.
  - by repeat case_match.
Qed.

Lemma foldl_parse_line_paths lines st :
  Forall (fun i => worktree_info.Path i <> "") st.1 ->
  Forall (fun i => worktree_info.Path i <> "")
    (foldl (worktree_info.parse_line U) st lines).1.
Proof.
  revert st; induction lines as [|l lines IH]; intros st H; [done|].
  cbn [foldl]. by apply IH, parse_line_paths.
Qed.

Lemma parse_line_unknown st line :
  known_line (Go.TrimSpace U line) = false ->
  worktree_info.parse_line U st line = st.
Proof.
  destruct st as [worktrees current]. unfold known_line, worktree_info.parse_line.
  intros H. repeat (apply orb_false_iff in H as [H ?]).
  by repeat match goal with H : _ = false |- _ => rewrite H; clear H end.
Qed.

Lemma parse_line_blank acc cur :
  worktree_info.Path cur <> "" ->
  worktree_info.parse_line U (acc, cur) "" = (acc ++ [cur], worktree_info.zero).
Proof.
  intros H%String.eqb_neq. unfold worktree_info.parse_line.
  change (Go.TrimSpace U "") with "". cbn [String.eqb]. by rewrite H.
Qed.

Lemma parse_line_worktree acc cur v :
  line_value v ->
  worktree_info.parse_line U (acc, cur) ("worktree " +:+ v)
  = (acc, worktree_info.set_Path v cur).
Proof.
  intros Hv. unfold worktree_info.parse_line.
  rewrite (TrimSpace_tagged "worktree " v "w") by done.
  change (String.eqb ("worktree " +:+ v) "") with false. cbv iota.
  by rewrite HasPrefix_app, TrimPrefix_app.
Qed.

Lemma parse_line_HEAD acc cur v :
  line_value v ->
  worktree_info.parse_line U (acc, cur) ("HEAD " +:+ v)
  = (acc, worktree_info.set_HEAD v cur).
Proof.
  intros Hv. unfold worktree_info.parse_line.
  rewrite (TrimSpace_tagged "HEAD " v "H") by done.
  change (String.eqb ("HEAD " +:+ v) "") with false.
  change (Str.HasPrefix ("HEAD " +:+ v) "worktree ") with false. cbv iota.
  by rewrite HasPrefix_app, TrimPrefix_app.
Qed.

Lemma parse_line_branch acc cur v :
  line_value v ->
  worktree_info.parse_line U (acc, cur) ("branch " +:+ v)
  = (acc, worktree_info.set_Branch v cur).
Proof.
  intros Hv. unfold worktree_info.parse_line.
  rewrite (TrimSpace_tagged "branch " v "b") by done.
  change (String.eqb ("branch " +:+ v) "") with false.
  change (Str.HasPrefix ("branch " +:+ v) "worktree ") with false.
  change (Str.HasPrefix ("branch " +:+ v) "HEAD ") with false. cbv iota.
  by rewrite HasPrefix_app, TrimPrefix_app.
Qed.

Lemma parse_line_bare acc cur :
  worktree_info.parse_line U (acc, cur) "bare"
  = (acc, worktree_info.set_Bare true cur).
Proof. reflexivity. Qed.

Lemma line_value_nonempty v : line_value v -> v <> "".
Proof. intros (_ & c & Hc & _) ->. done. Qed.

Lemma no_newline_tagged tag v :
  no_newline tag = true -> line_value v -> no_newline (tag +:+ v) = true.
Proof.
  intros Ht [Hv _]. unfold no_newline in *. by rewrite all_bytes_app, Ht, Hv.
Qed.

Lemma parse_block acc i :
  listed i ->
  foldl (worktree_info.parse_line U) (acc, worktree_info.zero) (porcelain_block i)
  = (acc ++ [i], worktree_info.zero).
Proof.
  destruct i as [p h b bare]. unfold listed, porcelain_block.
  cbn [worktree_info.Path worktree_info.HEAD worktree_info.Branch worktree_info.Bare].
  intros (Hp & Hh & Hb).
  pose proof (line_value_nonempty _ Hp) as Hne.
  rewrite !foldl_app. cbn [foldl]. rewrite parse_line_worktree by done.
  destruct (String.eqb h "") eqn:Eh;
    [apply String.eqb_eq in Eh as ->
    |apply String.eqb_neq in Eh; destruct Hh as [?|Hh]; [done|];
     cbn [foldl]; rewrite parse_line_HEAD by done];
  (destruct (String.eqb b "") eqn:Eb;
    [apply String.eqb_eq in Eb as ->
    |apply String.eqb_neq in Eb; destruct Hb as [?|Hb]; [done|];
     cbn [foldl]; rewrite parse_line_branch by done]);
  destruct bare; cbn [foldl]; rewrite ?parse_line_bare;
  by rewrite parse_line_blank.
Qed.

Lemma parse_blocks l acc :
  Forall listed l ->
  foldl (worktree_info.parse_line U) (acc, worktree_info.zero)
    (concat (porcelain_block <$> l))
  = (acc ++ l, worktree_info.zero).
Proof.
  intros H. revert acc. induction H as [|i l Hi _ IH]; intros acc.
  - by rewrite app_nil_r.
  - rewrite fmap_cons. cbn [concat]. rewrite foldl_app, parse_block by done.
    by rewrite IH, <-app_assoc.
Qed.

Lemma block_lines i :
  listed i -> Forall (fun l => no_newline l = true) (porcelain_block i).
Proof.
  intros (Hp & Hh & Hb). unfold porcelain_block.
  repeat apply Forall_app_2.
  - constructor; [|done]. by apply no_newline_tagged.
  - destruct (String.eqb _ "") eqn:E; [done|].
    apply String.eqb_neq in E. destruct Hh as [?|Hh]; [done|].
    constructor; [|done]. by apply no_newline_tagged.
  - destruct (String.eqb _ "") eqn:E; [done|].
    apply String.eqb_neq in E. destruct Hb as [?|Hb]; [done|].
    constructor; [|done]. by apply no_newline_tagged.
  - destruct (worktree_info.Bare i); by repeat constructor.
  - by repeat constructor.
Qed.

End Listing.

(** X5.  Every record [parseWorktreeList] returns has a path: whatever the
    text, no record with an empty [Path] is in the result. *)
Theorem parseWorktreeList_paths (U : Unicode) (output : string) :
  Forall (fun i => worktree_info.Path i <> "")
    (worktree_info.parseWorktreeList U output).
Proof.
  unfold worktree_info.parseWorktreeList.
  pose proof (foldl_parse_line_paths U (Str.Split output "010")
                ([], worktree_info.zero) (Forall_nil_2 _)) as H.
  destruct (foldl _ _ _) as [worktrees current]. cbn [fst] in H.
  unfold worktree_info.flush.
  destruct (String.eqb (worktree_info.Path current) "") eqn:E; cbn; [done|].
  apply Forall_app. split; [done|]. constructor; [|done].
  by apply String.eqb_neq.
Qed.

(** X6.  A line that is none of [worktree ..], [HEAD ..], [branch ..],
    [bare] and the empty line is skipped: the listing with such a line, at
    the start or between two lines, gives the records of the listing
    without it. *)
Theorem parseWorktreeList_skips_unknown (U : Unicode) (a b line : string) :
  no_newline line = true ->
  known_line (Go.TrimSpace U line) = false ->
  worktree_info.parseWorktreeList U (line +:+ String newline b)
  = worktree_info.parseWorktreeList U b /\
  worktree_info.parseWorktreeList U
    (a +:+ String newline (line +:+ String newline b))
  = worktree_info.parseWorktreeList U (a +:+ String newline b).
Proof.
  intros Hl Hk. unfold worktree_info.parseWorktreeList.
  change "010"%char with newline.
  rewrite !Split_app, (Split_line line newline Hl), !foldl_app.
  cbn [foldl]. by rewrite !parse_line_unknown.
Qed.

Lemma parseWorktreeList_skips_unknown_witness :
  worktree_info.parseWorktreeList ascii_only
    ("worktree /src/app" +:+ String newline
       ("detached" +:+ String newline
          ("HEAD 0a1b2c" +:+ String newline "")))
  = [ {| worktree_info.Path := "/src/app"; worktree_info.HEAD := "0a1b2c";
         worktree_info.Branch := ""; worktree_info.Bare := false |} ].
Proof.
  etransitivity.
  - apply (parseWorktreeList_skips_unknown ascii_only "worktree /src/app"
             ("HEAD 0a1b2c" +:+ String newline "") "detached"); reflexivity.
  - reflexivity.
Defined.

(** X7.  Reading a listing gives back the records it was written from, in
    their order: for every list of records whose path has no newline and
    ends with an ASCII byte that is not white space, and whose [HEAD] and
    branch are empty or such values too, [parseWorktreeList] of the blocks
    of the records is the list. *)
Theorem parseWorktreeList_porcelain (U : Unicode)
    (l : list worktree_info.WorktreeInfo) :
  Forall listed l ->
  worktree_info.parseWorktreeList U (porcelain l) = l.
Proof.
  intros Hl. unfold worktree_info.parseWorktreeList, porcelain.
  change "010"%char with newline. rewrite Split_unlines.
  2:{ apply Forall_concat, Forall_fmap. eapply Forall_impl; [exact Hl|].
      apply block_lines. }
  rewrite foldl_app, parse_blocks by done. reflexivity.
Qed.

Lemma parseWorktreeList_porcelain_witness :
  let main := {| worktree_info.Path := "/src/app";
                 worktree_info.HEAD := "0a1b2c";
                 worktree_info.Branch := "refs/heads/main";
                 worktree_info.Bare := false |} in
  let store := {| worktree_info.Path := "/srv/git/app.git";
                  worktree_info.HEAD := "";
                  worktree_info.Branch := "";
                  worktree_info.Bare := true |} in
  worktree_info.parseWorktreeList ascii_only (porcelain [main; store])
  = [main; store].
Proof.
  intros main store.
  apply (parseWorktreeList_porcelain ascii_only [main; store]).
  assert (Hv : forall s c,
            no_newline s = true -> Go.last_byte s = Some c ->
            is_ascii c = true -> is_ascii_space c = false -> line_value s).
  { intros s c H1 H2 H3 H4. split; [exact H1|]. by exists c. }
  apply Forall_cons; split; [|apply Forall_cons; split; [|apply Forall_nil_2]].
  - split; [|split; right].
    + by apply (Hv _ "p"%char).
    + by apply (Hv _ "c"%char).
    + by apply (Hv _ "n"%char).
  - split; [|split; by left]. by apply (Hv _ "t"%char).
Defined.

(** X8.  [DefaultBranch] never returns a name with a slash in it; it is
    ["main"] when the command fails, and otherwise what follows the last
    slash of the trimmed output. *)
Theorem DefaultBranch_last_component (U : Unicode) (G : worktree_info.Git)
    (repoPath : string) :
  let b := worktree_info.DefaultBranch U G repoPath in
  no_slash b = true /\
  (worktree_info.symbolic_ref G repoPath = None -> b = "main") /\
  (forall out dir name,
     worktree_info.symbolic_ref G repoPath = Some out ->
     Go.TrimSpace U out = dir +:+ String "/" name ->
     no_slash name = true ->
     b = name).
Proof.
  cbv zeta. unfold worktree_info.DefaultBranch.
  destruct (worktree_info.symbolic_ref G repoPath) as [out|]; [|done].
  cbv zeta. split_and!; [|done|].
  - pose proof (Split_no_sep (Go.TrimSpace U out) "/") as H.
    pose proof (Split_nonempty (Go.TrimSpace U out) "/") as Hne.
    rewrite (app_removelast_last "" Hne) in H.
    apply Forall_app in H as [_ H]. apply Forall_inv in H. exact H.
  - intros out' dir name [= <-] -> Hn.
    by rewrite Split_app, (Split_line name "/" Hn), last_last.
Qed.

Lemma DefaultBranch_last_component_witness :
  let G := {| worktree_info.worktree_list := fun _ => None;
              worktree_info.symbolic_ref := fun _ =>
                Some ("refs/remotes/origin/develop" +:+ String newline "") |} in
  worktree_info.DefaultBranch ascii_only G "/src/app" = "develop".
Proof.
  intros G.
  destruct (DefaultBranch_last_component ascii_only G "/src/app") as (_ & _ & H).
  apply (H ("refs/remotes/origin/develop" +:+ String newline "")
           "refs/remotes/origin" "develop"); reflexivity.
Defined.

(** ** More on the registry *)

Lemma find_slot_first key x l i t :
  config.find_slot key x l = Some (i, t) ->
  forall j u, j < i -> l !! j = Some u -> key u <> x.
Proof.
  revert i; induction l as [|a l IH]; intros i; cbn; [done|].
  destruct (String.eqb (key a) x) eqn:E.
  - intros [= <- <-] j u Hj. lia.
  - destruct (config.find_slot key x l) as [[k v]|] eqn:Ef; [|done].
    intros [= <- <-] j u Hj. destruct j as [|j]; cbn.
    + intros [= <-]. by apply String.eqb_neq.
    + intros Hu. eapply (IH k); [done| |exact Hu]. lia.
Qed.

Lemma find_slot_None_inv key x l :
  config.find_slot key x l = None -> x ∉ key <$> l.
Proof.
  induction l as [|a l IH]; cbn; [intros _; apply not_elem_of_nil|].
  destruct (String.eqb (key a) x) eqn:E; [done|].
  destruct (config.find_slot key x l) as [[k v]|]; [done|]. intros _.
  apply not_elem_of_cons. split; [|by apply IH].
  apply String.eqb_neq in E. congruence.
Qed.

Lemma find_slot_snoc key x l t :
  x ∉ key <$> l -> key t = x ->
  config.find_slot key x (l ++ [t]) = Some (length l, t).
Proof.
  intros Hx Ht. induction l as [|a l IH]; cbn.
  - apply String.eqb_eq in Ht. by rewrite Ht.
  - rewrite fmap_cons in Hx. apply not_elem_of_cons in Hx as [Hne Hx].
    destruct (String.eqb (key a) x) eqn:E; [by apply String.eqb_eq in E|].
    by rewrite (IH Hx).
Qed.

Lemma find_slot_spec key x l :
  match config.find_slot key x l with
  | Some (i, t) =>
      l !! i = Some t /\ key t = x /\
      forall j u, j < i -> l !! j = Some u -> key u <> x
  | None => x ∉ key <$> l
  end.
Proof.
  destruct (config.find_slot key x l) as [[i t]|] eqn:E.
  - destruct (find_slot_Some _ _ _ _ _ E). split_and!; try done.
    by eapply find_slot_first.
  - by apply find_slot_None_inv.
Qed.

(** X9.  [FindTask] and [FindTaskByWorktree] return the first task of the
    registry with the id (the worktree path): the task found is in the slot
    returned, it has the key asked for, compared byte by byte, and no task
    before it has; the lookup fails, with the error that names the key,
    exactly when no task of the registry has the key. *)
Theorem FindTask_first_match (c : config.Config) (id dir : string) :
  match config.FindTask c id with
  | Ok (i, t) =>
      config.Tasks c !! i = Some t /\ config.ID t = id /\
      forall j u, j < i -> config.Tasks c !! j = Some u -> config.ID u <> id
  | Err e =>
      e = ErrTaskNotFound id /\ id ∉ config.ID <$> config.Tasks c
  end /\
  match config.FindTaskByWorktree c dir with
  | Ok (i, t) =>
      config.Tasks c !! i = Some t /\ config.Worktree t = dir /\
      forall j u, j < i -> config.Tasks c !! j = Some u ->
                  config.Worktree u <> dir
  | Err e =>
      e = ErrNoTaskForWorktree dir /\
      dir ∉ config.Worktree <$> config.Tasks c
  end.
Proof.
  unfold config.FindTask, config.FindTaskByWorktree.
  pose proof (find_slot_spec config.ID id (config.Tasks c)) as H1.
  pose proof (find_slot_spec config.Worktree dir (config.Tasks c)) as H2.
  destruct (config.find_slot config.ID _ _) as [[i t]|],
    (config.find_slot config.Worktree _ _) as [[j u]|]; done.
Qed.

(** X10.  A task added under an id that no task of the registry has is
    found under that id afterwards, in the last slot, whether or not the
    registry could be saved. *)
Theorem AddTask_then_FindTask (env : Os.Env) (Y : Yaml.Codec)
    (t : config.Task) (c : config.Config) (w : Os.World) :
  config.ID t ∉ config.ID <$> config.Tasks c ->
  config.FindTask (config_after (config.AddTask env Y t (c, w))) (config.ID t)
  = Ok (length (config.Tasks c), t).
Proof.
  intros Hfresh. unfold config.FindTask.
  by rewrite AddTask_tasks, find_slot_snoc.
Qed.

Lemma AddTask_then_FindTask_witness :
  config.FindTask
    (config_after
       (config.AddTask (Sample.env_disk_full 0) TextCodec.codec Sample.task2
          (Sample.cfg1, Sample.world1)))
    "wt-00c0ffee"
  = Ok (1, Sample.task2).
Proof.
  apply (AddTask_then_FindTask (Sample.env_disk_full 0) TextCodec.codec
           Sample.task2 Sample.cfg1 Sample.world1).
  apply (bool_decide_unpack _). by vm_compute.
Defined.

Lemma delete_snoc {A} (l : list A) (x : A) : delete (length l) (l ++ [x]) = l.
Proof.
  induction l as [|a l IH]; [done|].
  change (delete (length (a :: l)) ((a :: l) ++ [x]))
    with (a :: delete (length l) (l ++ [x])).
  by rewrite IH.
Qed.

(** X11.  Adding a task under a fresh id and removing that id again gives
    back the list of tasks there was: the same tasks in the same order. *)
Theorem AddTask_then_RemoveTask (env : Os.Env) (Y : Yaml.Codec)
    (t : config.Task) (c : config.Config) (w : Os.World) :
  config.ID t ∉ config.ID <$> config.Tasks c ->
  let added := config.AddTask env Y t (c, w) in
  let removed :=
    config.RemoveTask env Y (config.ID t)
      (config_after added, world_after added) in
  config.Tasks (config_after removed) = config.Tasks c.
Proof.
  intros Hfresh added removed. subst removed.
  rewrite RemoveTask_tasks. subst added.
  rewrite AddTask_tasks, find_slot_snoc by done.
  apply delete_snoc.
Qed.

Lemma AddTask_then_RemoveTask_witness :
  let added :=
    config.AddTask Sample.env TextCodec.codec Sample.task2
      (Sample.cfg1, Sample.world1) in
  let removed :=
    config.RemoveTask Sample.env TextCodec.codec "wt-00c0ffee"
      (config_after added, world_after added) in
  config.Tasks (config_after removed) = [Sample.task1].
Proof.
  apply (AddTask_then_RemoveTask Sample.env TextCodec.codec
           Sample.task2 Sample.cfg1 Sample.world1).
  apply (bool_decide_unpack _). by vm_compute.
Defined.

Lemma Remove_unfold env Y id c w :
  task.Remove env Y id (c, w) =
  match config.FindTask c id with
  | Err e => (Err e, (c, w))
  | Ok (i, t) =>
      match Os.git env (Os.GitWorktreeRemove (config.RepoPath t)
                          (config.Worktree t)) w with
      | (None, w1) => (Err (ErrFinishRemove ErrRemoveWorktree), (c, w1))
      | (Some _, w1) =>
          match config.RemoveTask env Y id (c, w1) with
          | (Ok _, s) => (Ok (task.slot_after_removal (config.Tasks c) i t), s)
          | (Err e, s) => (Err e, s)
          end
      end
  end.
Proof.
  unfold task.Remove, worktree.Remove, worktree.git_or.
  unfold_monad. cbn [fst snd].
  destruct (config.FindTask c id) as [[i t]|e]; [|done].
  destruct (Os.git env (Os.GitWorktreeRemove _ _) w) as [[o1|] w1]; [|done].
  cbn [fst snd].
  by destruct (config.RemoveTask env Y id _) as [[[]|e] s].
Qed.

(** X12.  An id that no task of the registry has is refused before
    anything is done: [RemoveTask], [Finish] and [Remove] return the error
    that names the id, and the registry, the resources and the trace of
    calls are what they were. *)
Theorem unknown_id_changes_nothing (env : Os.Env) (Y : Yaml.Codec)
    (id : string) (c : config.Config) (w : Os.World) :
  id ∉ config.ID <$> config.Tasks c ->
  config.RemoveTask env Y id (c, w) = (Err (ErrTaskNotFound id), (c, w)) /\
  task.Finish env Y id (c, w) = (Err (ErrTaskNotFound id), (c, w)) /\
  task.Remove env Y id (c, w) = (Err (ErrTaskNotFound id), (c, w)).
Proof.
  intros Hid. apply (find_slot_None config.ID) in Hid.
  rewrite RemoveTask_unfold, Finish_unfold, Remove_unfold.
  unfold config.FindTask. by rewrite Hid.
Qed.

Lemma unknown_id_changes_nothing_witness :
  config.RemoveTask Sample.env TextCodec.codec "wt-00000000"
    (Sample.cfg1, Sample.world1)
  = (Err (ErrTaskNotFound "wt-00000000"), (Sample.cfg1, Sample.world1)) /\
  task.Finish Sample.env TextCodec.codec "wt-00000000"
    (Sample.cfg1, Sample.world1)
  = (Err (ErrTaskNotFound "wt-00000000"), (Sample.cfg1, Sample.world1)) /\
  task.Remove Sample.env TextCodec.codec "wt-00000000"
    (Sample.cfg1, Sample.world1)
  = (Err (ErrTaskNotFound "wt-00000000"), (Sample.cfg1, Sample.world1)).
Proof.
  apply (unknown_id_changes_nothing Sample.env TextCodec.codec "wt-00000000"
           Sample.cfg1 Sample.world1).
  apply (bool_decide_unpack _). by vm_compute.
Defined.

(** X13.  Without a registry file [Load] returns the default settings (the
    worktrees under the home directory, the branch [main], the prefix
    [feature], no agent, no connector, no task) with the path of the
    registry file, and creates nothing: the resources are what they
    were. *)
Theorem Load_without_file (env : Os.Env) (Y : Yaml.Codec) (w : Os.World)
    (h : string) :
  Os.home w = Some h ->
  Os.files w !! registry_file h = None ->
  Os.fails env (Os.ReadFile (registry_file h)) = false ->
  exists w',
    config.Load env Y w
    = (Ok {| config.WorktreesBase := Go.Join [h; "worktrees"];
             config.DefaultBranch := "main";
             config.BranchPrefix := "feature";
             config.DefaultAgent := "";
             config.AgentAliases := ∅;
             config.Connectors := ∅;
             config.Tasks := [];
             config.path := registry_file h |}, w') /\
    same_resources w w'.
Proof.
  intros Hh Hf Hr.
  unfold config.Load, config.ConfigDir, config.DefaultConfig, Os.UserHomeDir,
    Os.do_ReadFile.
  unfold_monad. rewrite Hh. cbn [fst snd]. rewrite Hh. cbn [fst snd].
  fold (registry_file h). rewrite Hr, Hf. cbn [fst snd].
  eexists. split; [reflexivity|]. by repeat split.
Qed.

Lemma Load_without_file_witness :
  exists w',
    config.Load Sample.env TextCodec.codec Sample.world
    = (Ok (config.set_path "/home/dev/.wt/config.yaml" Sample.cfg), w') /\
    same_resources Sample.world w'.
Proof.
  apply (Load_without_file Sample.env TextCodec.codec Sample.world "/home/dev");
    reflexivity.
Defined.

(** ** More on the lifecycle *)

Section Calls.
Context (env : Os.Env).

(** A git command that fails changes nothing. *)
Lemma git_None c w w' :
  Os.git env c w = (None, w') -> same_resources w w'.
Proof.
  unfold Os.git. destruct (Os.fails env c); [by intros [= <-]|].
  destruct c; repeat case_match; by intros [= <-].
Qed.

Lemma git_show_toplevel_Some repo w out w1 :
  Os.git env (Os.GitShowToplevel repo) w = (Some out, w1) <->
  Os.fails env (Os.GitShowToplevel repo) = false /\
  Os.toplevel w !! repo = Some out /\
  w1 = Os.log (Os.GitShowToplevel repo) true w.
Proof.
  unfold Os.git. destruct (Os.fails env _).
  - split; [done|]. by intros [? _].
  - destruct (Os.toplevel w !! repo) as [o|].
    + split; [by intros [= <- <-]|]. by intros (_ & [= <-] & ->).
    + split; [done|]. by intros (_ & ? & _).
Qed.

Lemma git_worktree_add r p b w o w' :
  Os.git env (Os.GitWorktreeAdd r p b) w = (Some o, w') ->
  Os.fails env (Os.GitWorktreeAdd r p b) = false /\
  Os.worktrees w' = <[p := (r, b)]> (Os.worktrees w) /\
  Os.branches w' = {[(r, b)]} ∪ Os.branches w.
Proof.
  unfold Os.git. destruct (Os.fails env _); [done|].
  destruct (_ || _); [done|]. by intros [= <- <-].
Qed.

Lemma MkdirAll_Ok p w w' :
  Os.do_MkdirAll env p w = (Ok tt, w') ->
  Os.fails env (Os.MkdirAll p) = false.
Proof. unfold Os.do_MkdirAll. cbv zeta. by destruct (Os.fails env _). Qed.

End Calls.

Section Started.
Context (U : Unicode) (env : Os.Env) (Y : Yaml.Codec).

(** What has happened when [Start] has got as far as registering the
    task. *)
Lemma Start_created opts c w r c' w' :
  task.Start U env Y opts (c, w) = (r, (c', w')) ->
  (forall e, r = Err e -> exists cause, e = ErrTaskNotSaved cause) ->
  let repo := task.RepoPath opts in
  let branch := computed_branch U (config.BranchPrefix c) opts in
  exists out w1 w2 w3 o w4 r5,
    let wtPath :=
      Go.Join [config.WorktreesBase c; Go.Base (Go.TrimSpace U out);
               worktree.SanitizeBranchName U (task.Description opts)] in
    let t :=
      {| config.ID := task.generateID env;
         config.Description := task.Description opts;
         config.Worktree := wtPath;
         config.Branch := branch;
         config.RepoPath := repo;
         config.Connector := task.Connector opts;
         config.TicketKey := task.TicketKey opts;
         config.Created := Os.now env |} in
    Os.git env (Os.GitShowToplevel repo) w = (Some out, w1) /\
    Os.git env (Os.GitVerify repo branch) w1 = (None, w2) /\
    Os.do_MkdirAll env (Go.Dir wtPath) w2 = (Ok tt, w3) /\
    Os.git env (Os.GitWorktreeAdd repo wtPath branch) w3 = (Some o, w4) /\
    config.AddTask env Y t (c, w4) = (r5, (c', w')) /\
    r = match r5 with Ok _ => Ok t | Err e => Err (ErrTaskNotSaved e) end.
Proof.
  intros Hs Hr repo branch. rewrite Start_unfold in Hs.
  fold repo branch in Hs. cbv zeta in Hs.
  destruct (Os.git env (Os.GitShowToplevel repo) w) as [[out|] w1] eqn:E1.
  2:{ injection Hs as <- _. by destruct (Hr _ eq_refl). }
  destruct (Os.git env (Os.GitVerify repo branch) w1) as [[v|] w2] eqn:E2.
  1:{ injection Hs as <- _. by destruct (Hr _ eq_refl). }
  destruct (Os.do_MkdirAll env _ w2) as [[[]|e3] w3] eqn:E3.
  2:{ injection Hs as <- _. by destruct (Hr _ eq_refl). }
  destruct (Os.git env (Os.GitWorktreeAdd _ _ _) w3) as [[o|] w4] eqn:E4.
  2:{ injection Hs as <- _. by destruct (Hr _ eq_refl). }
  destruct (config.AddTask env Y _ (c, w4)) as [r5 s] eqn:E5.
  exists out, w1, w2, w3, o, w4, r5. cbv zeta.
  destruct r5 as [[]|e5]; injection Hs as <- <-; by split_and!.
Qed.

(** The state of the version-control tool once the working copy has been
    created and the registry saved, whatever the outcome of the saving. *)
Lemma created_world w w1 w2 w3 w4 repo branch wtPath out o t c r5 c' w' :
  Os.git env (Os.GitShowToplevel repo) w = (Some out, w1) ->
  Os.git env (Os.GitVerify repo branch) w1 = (None, w2) ->
  Os.do_MkdirAll env (Go.Dir wtPath) w2 = (Ok tt, w3) ->
  Os.git env (Os.GitWorktreeAdd repo wtPath branch) w3 = (Some o, w4) ->
  config.AddTask env Y t (c, w4) = (r5, (c', w')) ->
  Os.toplevel w' = Os.toplevel w /\
  Os.worktrees w' = <[wtPath := (repo, branch)]> (Os.worktrees w) /\
  Os.branches w' = {[(repo, branch)]} ∪ Os.branches w /\
  config.Tasks c' = config.Tasks c ++ [t] /\
  config.BranchPrefix c' = config.BranchPrefix c /\
  config.WorktreesBase c' = config.WorktreesBase c.
Proof.
  intros E1 E2 E3 E4 E5.
  pose proof (git_show_toplevel env _ _ _ _ E1) as (_ & _ & _ & T1 & B1 & W1).
  pose proof (git_None env _ _ _ E2) as (_ & _ & _ & T2 & B2 & W2).
  apply MkdirAll_log in E3 as (_ & _ & _ & T3 & B3 & W3).
  pose proof (git_worktree_add env _ _ _ _ _ _ E4) as (_ & W4 & B4).
  apply git_log in E4 as (_ & _ & _ & T4).
  pose proof (AddTask_tasks env Y t c w4) as Ht.
  rewrite AddTask_unfold in E5.
  match type of E5 with config.Save env Y (?c0, w4) = _ =>
    destruct (Save_world env Y c0 w4) as (_ & T5 & B5 & W5 & _);
    destruct (Save_config env Y c0 w4) as [p Hc]
  end.
  rewrite AddTask_unfold in Ht.
  unfold world_after, config_after in *. rewrite E5 in *. cbn [fst snd] in *.
  split_and!.
  - congruence.
  - rewrite W5, W4. congruence.
  - rewrite B5, B4. congruence.
  - done.
  - by rewrite Hc.
  - by rewrite Hc.
Qed.

End Started.

(** X14.  After a successful [Start] the task is in the registry, in
    memory and in the registry file, behind the tasks there were; the
    working copy exists at the path of the task, bound to the repository
    and to the branch of the task; the branch exists; and when the id drawn
    is that of no earlier task, [FindTask] finds the task under its id. *)
Theorem Start_registers (U : Unicode) (env : Os.Env) (Y : Yaml.Codec)
    (opts : task.StartOptions) (c c' : config.Config) (w w' : Os.World)
    (t : config.Task) :
  task.Start U env Y opts (c, w) = (Ok t, (c', w')) ->
  config.Tasks c' = config.Tasks c ++ [t] /\
  config.ID t = task.generateID env /\
  Os.worktrees w' !! config.Worktree t
    = Some (task.RepoPath opts, config.Branch t) /\
  (task.RepoPath opts, config.Branch t) ∈ Os.branches w' /\
  (exists data,
     config.Marshal Y c' = Some data /\
     Os.files w' !! config.path c' = Some data) /\
  (config.ID t ∉ config.ID <$> config.Tasks c ->
   config.FindTask c' (config.ID t) = Ok (length (config.Tasks c), t)).
Proof.
  intros Hs.
  destruct (Start_created U env Y opts c w _ c' w' Hs)
    as (out & w1 & w2 & w3 & o & w4 & r5 & E1 & E2 & E3 & E4 & E5 & Hr);
    [done|].
  destruct r5 as [[]|e5]; [|done]. injection Hr as ->.
  destruct (created_world env Y _ _ _ _ _ _ _ _ _ _ _ _ _ _ _ E1 E2 E3 E4 E5)
    as (_ & Hw & Hb & Ht & _ & _).
  rewrite AddTask_unfold in E5.
  apply Save_ok in E5 as (data & Hm & Hf & _ & Hc & _).
  split_and!.
  - done.
  - done.
  - cbn [config.Worktree config.Branch]. by rewrite Hw, lookup_insert_eq.
  - cbn [config.Branch]. rewrite Hb. apply elem_of_union_l.
    by apply elem_of_singleton.
  - exists data. split; [by rewrite Hc|]. by rewrite Hf, lookup_insert_eq.
  - intros Hfresh. unfold config.FindTask. by rewrite Ht, find_slot_snoc.
Qed.

Lemma Start_registers_witness :
  let x := Sample.start Sample.opts1 (Sample.cfg, Sample.world) in
  config.Tasks (config_after x) = [Sample.task1] /\
  Os.worktrees (world_after x)
    !! "/home/dev/worktrees/app/add-user-authentication"
    = Some ("/src/app", "feature/add-user-authentication") /\
  config.FindTask (config_after x) "wt-7778797a" = Ok (0, Sample.task1).
Proof.
  intros x.
  assert (Hx : x = (Ok Sample.task1, (config_after x, world_after x)))
    by (vm_compute; reflexivity).
  destruct (Start_registers ascii_only Sample.env TextCodec.codec Sample.opts1
              Sample.cfg (config_after x) Sample.world (world_after x)
              Sample.task1 Hx) as (Ht & _ & Hw & _ & _ & Hf).
  split; [exact Ht|]. split; [exact Hw|]. apply Hf. apply not_elem_of_nil.
Defined.

(** X15.  When [Start] fails before the task is registered (the path is no
    repository, the branch exists, the parent directory or the working copy
    cannot be created), the registry is what it was, and so are the files,
    the branches and the working copies. *)
Theorem Start_failure_keeps_registry (U : Unicode) (env : Os.Env)
    (Y : Yaml.Codec) (opts : task.StartOptions) (c c' : config.Config)
    (w w' : Os.World) (e : error) :
  task.Start U env Y opts (c, w) = (Err e, (c', w')) ->
  (forall cause, e <> ErrTaskNotSaved cause) ->
  c' = c /\ Os.files w' = Os.files w /\
  Os.branches w' = Os.branches w /\ Os.worktrees w' = Os.worktrees w.
Proof.
  intros Hs He. rewrite Start_unfold in Hs. cbv zeta in Hs.
  destruct (Os.git env (Os.GitShowToplevel _) w) as [[out|] w1] eqn:E1.
  2:{ injection Hs as _ <- <-.
      by destruct (git_None env _ _ _ E1) as (_ & ? & _ & _ & ? & ?). }
  pose proof (git_show_toplevel env _ _ _ _ E1) as (_ & F1 & _ & _ & B1 & W1).
  destruct (Os.git env (Os.GitVerify _ _) w1) as [[v|] w2] eqn:E2.
  1:{ injection Hs as _ <- <-.
      destruct (git_verify env _ _ _ _ _ E2) as (_ & ? & _ & _ & ? & ?).
      split_and!; congruence. }
  destruct (git_None env _ _ _ E2) as (_ & F2 & _ & _ & B2 & W2).
  destruct (Os.do_MkdirAll env _ w2) as [r3 w3] eqn:E3.
  apply MkdirAll_log in E3 as (_ & _ & F3 & _ & B3 & W3).
  destruct r3 as [[]|e3].
  2:{ injection Hs as _ <- <-. split_and!; congruence. }
  destruct (Os.git env (Os.GitWorktreeAdd _ _ _) w3) as [[o|] w4] eqn:E4.
  2:{ injection Hs as _ <- <-.
      destruct (git_None env _ _ _ E4) as (_ & ? & _ & _ & ? & ?).
      split_and!; congruence. }
  destruct (config.AddTask env Y _ (c, w4)) as [[[]|e5] s]; [done|].
  injection Hs as <- _. by destruct (He e5).
Qed.

Lemma Start_failure_keeps_registry_witness :
  let x := Sample.start Sample.opts1 (Sample.cfg1, Sample.world1) in
  x.1 = Err (ErrBranchExists "feature/add-user-authentication") /\
  config_after x = Sample.cfg1 /\
  Os.files (world_after x) = Os.files Sample.world1 /\
  Os.branches (world_after x) = Os.branches Sample.world1 /\
  Os.worktrees (world_after x) = Os.worktrees Sample.world1.
Proof.
  intros x.
  assert (Hx : x = (Err (ErrBranchExists "feature/add-user-authentication"),
                    (config_after x, world_after x)))
    by (vm_compute; reflexivity).
  split; [by rewrite Hx|].
  apply (Start_failure_keeps_registry ascii_only Sample.env TextCodec.codec
           Sample.opts1 Sample.cfg1 (config_after x) Sample.world1
           (world_after x) _ Hx).
  discriminate.
Defined.

(** X16.  When [Start] fails because the registry could not be saved, the
    working copy and the branch have been created and stay: the working
    copy is bound to the repository and the branch computed for the
    request, the branch exists, and the task is in the registry in
    memory. *)
Theorem Start_unsaved_leaves_working_copy (U : Unicode) (env : Os.Env)
    (Y : Yaml.Codec) (opts : task.StartOptions) (c c' : config.Config)
    (w w' : Os.World) (cause : error) :
  task.Start U env Y opts (c, w) = (Err (ErrTaskNotSaved cause), (c', w')) ->
  let branch := computed_branch U (config.BranchPrefix c) opts in
  exists t,
    config.Tasks c' = config.Tasks c ++ [t] /\
    config.Branch t = branch /\
    Os.worktrees w' !! config.Worktree t = Some (task.RepoPath opts, branch) /\
    (task.RepoPath opts, branch) ∈ Os.branches w'.
Proof.
  intros Hs branch.
  destruct (Start_created U env Y opts c w _ c' w' Hs)
    as (out & w1 & w2 & w3 & o & w4 & r5 & E1 & E2 & E3 & E4 & E5 & Hr).
  { intros e [= <-]. by exists cause. }
  destruct (created_world env Y _ _ _ _ _ _ _ _ _ _ _ _ _ _ _ E1 E2 E3 E4 E5)
    as (_ & Hw & Hb & Ht & _ & _).
  eexists. split_and!; [exact Ht|done| |].
  - cbn [config.Worktree]. by rewrite Hw, lookup_insert_eq.
  - rewrite Hb. apply elem_of_union_l. by apply elem_of_singleton.
Qed.

Lemma Start_unsaved_leaves_working_copy_witness :
  let x := task.Start ascii_only (Sample.env_disk_full 0) TextCodec.codec
             Sample.opts1 (Sample.cfg, Sample.world) in
  x.1 = Err (ErrTaskNotSaved ErrOs) /\
  exists t,
    config.Tasks (config_after x) = config.Tasks Sample.cfg ++ [t] /\
    config.Branch t = "feature/add-user-authentication" /\
    Os.worktrees (world_after x) !! config.Worktree t
      = Some ("/src/app", "feature/add-user-authentication") /\
    ("/src/app", "feature/add-user-authentication")
      ∈ Os.branches (world_after x).
Proof.
  intros x.
  assert (Hx : x = (Err (ErrTaskNotSaved ErrOs), (config_after x, world_after x)))
    by (vm_compute; reflexivity).
  split; [by rewrite Hx|].
  exact (Start_unsaved_leaves_working_copy ascii_only (Sample.env_disk_full 0)
           TextCodec.codec Sample.opts1 Sample.cfg (config_after x)
           Sample.world (world_after x) ErrOs Hx).
Defined.

(** X17.  A request that [Start] has carried out is refused when it is
    made again: the second [Start], on the registry and the resources the
    first one left, fails with the collision error that names the branch of
    the task (or, when the probe of the branch itself fails, at the creation
    of the working copy), and it changes neither the registry nor the files,
    the branches or the working copies. *)
Theorem Start_twice_refused (U : Unicode) (env : Os.Env) (Y : Yaml.Codec)
    (opts : task.StartOptions) (c c' : config.Config) (w w' : Os.World)
    (t : config.Task) :
  task.Start U env Y opts (c, w) = (Ok t, (c', w')) ->
  exists e w'',
    task.Start U env Y opts (c', w') = (Err e, (c', w'')) /\
    (e = ErrBranchExists (config.Branch t) \/ e = ErrCreateWorktree) /\
    (Os.fails env (Os.GitVerify (task.RepoPath opts) (config.Branch t)) = false ->
     e = ErrBranchExists (config.Branch t)) /\
    Os.files w'' = Os.files w' /\ Os.branches w'' = Os.branches w' /\
    Os.worktrees w'' = Os.worktrees w'.
Proof.
  intros Hs.
  destruct (Start_created U env Y opts c w _ c' w' Hs)
    as (out & w1 & w2 & w3 & o & w4 & r5 & E1 & E2 & E3 & E4 & E5 & Hr);
    [done|].
  destruct r5 as [[]|e5]; [|done]. injection Hr as ->.
  destruct (created_world env Y _ _ _ _ _ _ _ _ _ _ _ _ _ _ _ E1 E2 E3 E4 E5)
    as (Htl & _ & Hb & _ & Hp & Hbase).
  apply git_show_toplevel_Some in E1 as (F1 & Hout & _).
  apply MkdirAll_Ok in E3. apply git_worktree_add in E4 as (F4 & _ & _).
  cbn [config.Branch].
  set (repo := task.RepoPath opts) in *.
  set (branch := computed_branch U (config.BranchPrefix c) opts) in *.
  assert (Hin : (repo, branch) ∈ Os.branches w').
  { rewrite Hb. apply elem_of_union_l. by apply elem_of_singleton. }
  rewrite Start_unfold. fold repo. cbv zeta. rewrite Hp, Hbase. fold branch.
  assert (E1' : Os.git env (Os.GitShowToplevel repo) w'
                = (Some out, Os.log (Os.GitShowToplevel repo) true w')).
  { apply git_show_toplevel_Some. by rewrite Htl. }
  rewrite E1'.
  set (w1' := Os.log (Os.GitShowToplevel repo) true w').
  unfold Os.git at 1.
  destruct (Os.fails env (Os.GitVerify repo branch)) eqn:F2.
  - unfold Os.do_MkdirAll. cbv zeta. rewrite E3.
    unfold Os.git. rewrite F4.
    rewrite (bool_decide_eq_true_2 ((repo, branch) ∈ _)) by exact Hin.
    cbn [orb]. eexists _, _. split; [reflexivity|].
    split_and!; [by right|done|done|done|done].
  - rewrite (bool_decide_eq_true_2 ((repo, branch) ∈ _)) by exact Hin.
    eexists _, _. split; [reflexivity|].
    split_and!; [by left|done|done|done|done].
Qed.

Lemma Start_twice_refused_witness :
  let x := Sample.start Sample.opts1 (Sample.cfg, Sample.world) in
  exists e w'',
    Sample.start Sample.opts1 (config_after x, world_after x)
    = (Err e, (config_after x, w'')) /\
    (e = ErrBranchExists "feature/add-user-authentication"
     \/ e = ErrCreateWorktree) /\
    (false = false -> e = ErrBranchExists "feature/add-user-authentication") /\
    Os.files w'' = Os.files (world_after x) /\
    Os.branches w'' = Os.branches (world_after x) /\
    Os.worktrees w'' = Os.worktrees (world_after x).
Proof.
  intros x.
  assert (Hx : x = (Ok Sample.task1, (config_after x, world_after x)))
    by (vm_compute; reflexivity).
  exact (Start_twice_refused ascii_only Sample.env TextCodec.codec Sample.opts1
           Sample.cfg (config_after x) Sample.world (world_after x)
           Sample.task1 Hx).
Defined.

(** ** Remove, and more on Finish *)

Section Removal.
Context (env : Os.Env) (Y : Yaml.Codec).

Lemma git_worktree_remove_branches repo p w o w' :
  Os.git env (Os.GitWorktreeRemove repo p) w = (o, w') ->
  Os.branches w' = Os.branches w /\ Os.files w' = Os.files w.
Proof.
  unfold Os.git. repeat case_match; by intros [= <- <-].
Qed.

Lemma RemoveTask_calls id c w :
  let w' := world_after (config.RemoveTask env Y id (c, w)) in
  Os.branches w' = Os.branches w /\
  exists evs, Os.trace w' = Os.trace w ++ evs /\
    Forall (fun e => is_fs_call e.1 = true) evs.
Proof.
  cbv zeta. rewrite RemoveTask_unfold.
  destruct (config.find_slot _ _ _) as [[i t]|].
  - match goal with |- context [config.Save env Y (?c', w)] =>
      destruct (Save_world env Y c' w) as (_ & _ & ? & _ & evs & ? & ?)
    end.
    split; [done|]. by exists evs.
  - split; [done|]. exists []. by rewrite app_nil_r.
Qed.

Lemma fs_calls_no_delete (evs : list (Os.call * bool)) r b ok :
  Forall (fun e => is_fs_call e.1 = true) evs ->
  (Os.GitBranchDelete r b, ok) ∉ evs.
Proof.
  intros Hfs Hin. rewrite Forall_forall in Hfs. by apply Hfs in Hin.
Qed.

End Removal.

(** X18.  [Remove] keeps the branch: whatever the outcome, the branches
    are what they were and no deletion of a branch is among the calls made.
    And after a successful [Remove] the working copy of the task is gone and
    the slot of the task is dropped from the registry. *)
Theorem Remove_keeps_branch (env : Os.Env) (Y : Yaml.Codec) (id : string)
    (c : config.Config) (w : Os.World) :
  let x := task.Remove env Y id (c, w) in
  Os.branches (world_after x) = Os.branches w /\
  (forall r b ok, (Os.GitBranchDelete r b, ok) ∉ new_calls w (world_after x)) /\
  (forall t',
     x.1 = Ok t' ->
     exists i t,
       config.FindTask c id = Ok (i, t) /\
       Os.worktrees (world_after x) !! config.Worktree t = None /\
       config.Tasks (config_after x) = delete i (config.Tasks c)).
Proof.
  cbv zeta. unfold config_after, world_after. rewrite Remove_unfold.
  destruct (config.FindTask c id) as [[i t]|e] eqn:Ef.
  2:{ cbn [fst snd]. split_and!; [done| |done].
      intros r b ok. rewrite (new_calls_app w w []) by by rewrite app_nil_r.
      apply not_elem_of_nil. }
  apply FindTask_Ok in Ef.
  destruct (Os.git env (Os.GitWorktreeRemove _ _) w) as [o1 w1] eqn:E1.
  pose proof (git_worktree_remove_branches env _ _ _ _ _ E1) as [B1 _].
  pose proof (git_log env _ _ _ _ E1) as (T1 & _).
  destruct o1 as [o1|].
  2:{ cbn [fst snd]. split_and!; [done| |done].
      intros r b ok. rewrite (new_calls_app w w1 [_]) by exact T1.
      intros H. in_trace H. }
  apply git_worktree_remove in E1.
  destruct (RemoveTask_calls env Y id c w1) as (B2 & evs & T2 & Hfs).
  destruct (RemoveTask_world env Y id c w1) as (_ & W2 & _).
  pose proof (RemoveTask_tasks env Y id c w1) as Ht. rewrite Ef in Ht.
  unfold world_after, config_after in *.
  destruct (config.RemoveTask env Y id (c, w1)) as [[[]|e3] [c3 w3]];
    cbn [fst snd] in *.
  all: split_and!; [congruence| |].
  all: try (intros r b ok;
            rewrite (new_calls_app w w3 ([_] ++ evs))
              by (by rewrite T2, T1, <-app_assoc);
            intros [H|H]%elem_of_app;
            [in_trace H|by apply fs_calls_no_delete in H]).
  - intros t' _. exists i, t.
    split_and!; [done| |done]. by rewrite W2, E1, lookup_delete_eq.
  - done.
Qed.

Lemma Remove_keeps_branch_witness :
  let x := task.Remove Sample.env TextCodec.codec "wt-7778797a"
             (Sample.cfg1, Sample.world1) in
  ("/src/app", "feature/add-user-authentication")
    ∈ Os.branches (world_after x) /\
  exists i t,
    config.FindTask Sample.cfg1 "wt-7778797a" = Ok (i, t) /\
    Os.worktrees (world_after x) !! config.Worktree t = None /\
    config.Tasks (config_after x) = delete i (config.Tasks Sample.cfg1).
Proof.
  intros x.
  destruct (Remove_keeps_branch Sample.env TextCodec.codec "wt-7778797a"
              Sample.cfg1 Sample.world1) as (Hb & _ & Hok).
  split.
  - fold x in Hb. rewrite Hb. apply (bool_decide_unpack _). by vm_compute.
  - apply (Hok Sample.task1). by vm_compute.
Defined.

(** X19.  After a successful [Finish] the branch of the task is gone
    whenever its deletion was not made to fail from outside; and no branch
    other than that of the task is ever touched: the branches left are
    those there were, with at most the branch of the task taken away. *)
Theorem Finish_deletes_branch (env : Os.Env) (Y : Yaml.Codec) (id : string)
    (c : config.Config) (w : Os.World) (t' : config.Task) :
  let x := task.Finish env Y id (c, w) in
  x.1 = Ok t' ->
  exists i t,
    config.FindTask c id = Ok (i, t) /\
    let b := (config.RepoPath t, config.Branch t) in
    (Os.fails env (Os.GitBranchDelete (config.RepoPath t) (config.Branch t))
       = false -> b ∉ Os.branches (world_after x)) /\
    (Os.branches (world_after x) = Os.branches w \/
     Os.branches (world_after x) = Os.branches w ∖ {[b]}).
Proof.
  cbv zeta. unfold world_after. rewrite Finish_unfold.
  destruct (config.FindTask c id) as [[i t]|e] eqn:Ef; [|by cbn].
  cbv zeta.
  destruct (Os.git env (Os.GitWorktreeRemove _ _) w) as [o1 w1] eqn:E1.
  pose proof (git_worktree_remove_branches env _ _ _ _ _ E1) as [B1 _].
  destruct o1 as [o1|]; [|by cbn].
  set (w2 := match Os.git env (Os.GitBranchDelete _ _) w1 with
             | (Some _, w2) => w2 | (None, w2) => _ end).
  destruct (RemoveTask_calls env Y id c w2) as (B3 & _).
  unfold world_after in B3.
  destruct (config.RemoveTask env Y id (c, w2)) as [[[]|e3] [c3 w3]];
    [|by cbn].
  cbn [fst snd] in *. intros _. exists i, t. split; [done|].
  rewrite B3. subst w2. unfold Os.git.
  destruct (Os.fails env (Os.GitBranchDelete _ _)) eqn:F.
  { split; [done|]. left. cbn. exact B1. }
  destruct (bool_decide _) eqn:Hd.
  - cbn. rewrite B1. split; [|by right].
    intros _ [_ H]%elem_of_difference. apply H. by apply elem_of_singleton.
  - cbn. rewrite B1. split; [|by left].
    intros _. apply bool_decide_eq_false in Hd. by rewrite B1 in Hd.
Qed.

Lemma Finish_deletes_branch_witness :
  let x := task.Finish Sample.env TextCodec.codec "wt-7778797a"
             (Sample.cfg1, Sample.world1) in
  exists i t,
    config.FindTask Sample.cfg1 "wt-7778797a" = Ok (i, t) /\
    let b := (config.RepoPath t, config.Branch t) in
    (Os.fails Sample.env
       (Os.GitBranchDelete (config.RepoPath t) (config.Branch t)) = false ->
     b ∉ Os.branches (world_after x)) /\
    (Os.branches (world_after x) = Os.branches Sample.world1 \/
     Os.branches (world_after x) = Os.branches Sample.world1 ∖ {[b]}).
Proof.
  apply (Finish_deletes_branch Sample.env TextCodec.codec "wt-7778797a"
           Sample.cfg1 Sample.world1 Sample.task1).
  by vm_compute.
Defined.

(** X20.  When the working copy cannot be removed, [Finish] and [Remove]
    stop there: the error is that of the removal, the registry is what it
    was, and so are the files, the directories, the branches (the branch is
    not deleted) and the working copies; the failed removal is the only
    call made. *)
Theorem removal_failure_stops (env : Os.Env) (Y : Yaml.Codec) (id : string)
    (c : config.Config) (w : Os.World) (i : nat) (t : config.Task) :
  let rm := Os.GitWorktreeRemove (config.RepoPath t) (config.Worktree t) in
  config.FindTask c id = Ok (i, t) ->
  (Os.git env rm w).1 = None ->
  let x := task.Finish env Y id (c, w) in
  let y := task.Remove env Y id (c, w) in
  x.1 = Err (ErrFinishRemove ErrRemoveWorktree) /\ y = x /\
  config_after x = c /\ same_resources w (world_after x) /\
  new_calls w (world_after x) = [(rm, false)].
Proof.
  intros rm Hf Hg. cbv zeta. unfold config_after, world_after.
  rewrite Finish_unfold, Remove_unfold, Hf. cbv zeta. fold rm.
  destruct (Os.git env rm w) as [o w1] eqn:E1. cbn [fst] in Hg. subst o.
  cbn [fst snd]. split_and!; try done.
  - by eapply git_None.
  - apply new_calls_app. by apply git_log in E1 as [-> _].
Qed.

Lemma removal_failure_stops_witness :
  let x := task.Finish Sample.env TextCodec.codec "wt-7778797a"
             (Sample.cfg1, Sample.world) in
  let y := task.Remove Sample.env TextCodec.codec "wt-7778797a"
             (Sample.cfg1, Sample.world) in
  x.1 = Err (ErrFinishRemove ErrRemoveWorktree) /\ y = x /\
  config_after x = Sample.cfg1 /\ same_resources Sample.world (world_after x) /\
  new_calls Sample.world (world_after x)
  = [(Os.GitWorktreeRemove "/src/app"
        "/home/dev/worktrees/app/add-user-authentication", false)].
Proof.
  apply (removal_failure_stops Sample.env TextCodec.codec "wt-7778797a"
           Sample.cfg1 Sample.world 0 Sample.task1); reflexivity.
Defined.

Lemma slot_after_removal_next tasks i t next :
  tasks !! (i + 1) = Some next -> task.slot_after_removal tasks i t = next.
Proof. unfold task.slot_after_removal. by intros ->. Qed.

(** X21.  [Finish] and [Remove] return the pointer [FindTask] gave, which
    points into the array of the registry, and the removal has shifted that
    array in between: when a task follows the one removed, the task
    returned is that following task, and with distinct ids it is not the
    task of the id asked for; only when the task removed is the last one
    is it the task returned. *)
Theorem Finish_returns_following_task (env : Os.Env) (Y : Yaml.Codec)
    (id : string) (c : config.Config) (w : Os.World) (t' : config.Task) :
  (task.Finish env Y id (c, w)).1 = Ok t' \/
  (task.Remove env Y id (c, w)).1 = Ok t' ->
  exists i t,
    config.FindTask c id = Ok (i, t) /\
    (forall next, config.Tasks c !! (i + 1) = Some next -> t' = next) /\
    (config.Tasks c !! (i + 1) = None -> t' = t) /\
    (NoDup (config.ID <$> config.Tasks c) ->
     i + 1 < length (config.Tasks c) -> config.ID t' <> id).
Proof.
  intros H.
  assert (exists i t, config.FindTask c id = Ok (i, t) /\
            t' = task.slot_after_removal (config.Tasks c) i t)
    as (i & t & Hf & ->).
  { destruct H as [H|H]; [by apply Finish_result in H|].
    rewrite Remove_unfold in H.
    destruct (config.FindTask c id) as [[i t]|e]; [|by cbn in H].
    destruct (Os.git env (Os.GitWorktreeRemove _ _) w) as [[o1|] w1];
      [|by cbn in H].
    destruct (config.RemoveTask env Y id _) as [[[]|e] s]; [|by cbn in H].
    injection H as <-. by exists i, t. }
  exists i, t. split; [done|]. unfold task.slot_after_removal.
  apply FindTask_Ok, find_slot_Some in Hf as [Hi Hid].
  split_and!.
  - by intros next ->.
  - by intros ->.
  - intros Hnd Hlen.
    destruct (lookup_lt_is_Some_2 (config.Tasks c) (i + 1) Hlen) as [next Hn].
    rewrite Hn. intros Heq.
    assert (i = i + 1); [|lia].
    apply (NoDup_lookup _ _ _ id Hnd); rewrite list_lookup_fmap.
    + by rewrite Hi; cbn; rewrite Hid.
    + by rewrite Hn; cbn; rewrite Heq.
Qed.

Lemma Finish_returns_following_task_witness :
  let x := task.Finish Sample.env TextCodec.codec "wt-7778797a"
             (Sample.cfg2, Sample.world2) in
  x.1 = Ok Sample.task2 /\
  exists i t,
    config.FindTask Sample.cfg2 "wt-7778797a" = Ok (i, t) /\
    (forall next, config.Tasks Sample.cfg2 !! (i + 1) = Some next ->
                  Sample.task2 = next) /\
    (config.Tasks Sample.cfg2 !! (i + 1) = None -> Sample.task2 = t) /\
    (NoDup (config.ID <$> config.Tasks Sample.cfg2) ->
     i + 1 < length (config.Tasks Sample.cfg2) ->
     config.ID Sample.task2 <> "wt-7778797a").
Proof.
  intros x.
  assert (Hx : x.1 = Ok Sample.task2) by (vm_compute; reflexivity).
  split; [exact Hx|].
  apply (Finish_returns_following_task Sample.env TextCodec.codec "wt-7778797a"
           Sample.cfg2 Sample.world2 Sample.task2).
  left. exact Hx.
Defined.

(** ** The ids of the tasks *)

Lemma length_hex b : String.length (Go.hex b) = 2 * String.length b.
Proof. induction b as [|c b IH]; simpl; [done|]. rewrite IH. lia. Qed.

Lemma length_random_bytes n e : String.length (task.random_bytes n e) = n.
Proof.
  revert e; induction n as [|n IH]; intros e; [done|].
  destruct e; simpl; by rewrite IH.
Qed.

Lemma byte_val_lt c : (byte_val c < 256)%N.
Proof. apply N_ascii_bounded. Qed.

Lemma hex_digit_val n :
  (n < 16)%N ->
  byte_val (Go.hex_digit n) = (if (n <? 10)%N then 48 + n else 87 + n)%N.
Proof.
  intros Hn. unfold Go.hex_digit, byte_val.
  apply N_ascii_embedding. destruct (N.ltb_spec n 10); lia.
Qed.

Lemma hex_digit_is_hex n : (n < 16)%N -> is_hex_digit (Go.hex_digit n) = true.
Proof.
  intros Hn. unfold is_hex_digit. rewrite hex_digit_val by done.
  destruct (N.ltb_spec n 10); byte_cases; lia.
Qed.

Lemma hex_digit_inj n m :
  (n < 16)%N -> (m < 16)%N -> Go.hex_digit n = Go.hex_digit m -> n = m.
Proof.
  intros Hn Hm H. apply (f_equal byte_val) in H.
  rewrite !hex_digit_val in H by done.
  destruct (N.ltb_spec n 10), (N.ltb_spec m 10); lia.
Qed.

Lemma all_hex b : Go.all_bytes is_hex_digit (Go.hex b) = true.
Proof.
  induction b as [|c b IH]; [done|]. cbn [Go.hex Go.all_bytes].
  pose proof (byte_val_lt c).
  rewrite !hex_digit_is_hex, IH; [done| |].
  - by apply N.mod_lt.
  - apply N.Div0.div_lt_upper_bound. lia.
Qed.

Lemma hex_inj b1 b2 : Go.hex b1 = Go.hex b2 -> b1 = b2.
Proof.
  revert b2; induction b1 as [|c1 b1 IH]; intros [|c2 b2]; try done.
  cbn [Go.hex]. intros [= H1 H2 H3].
  pose proof (byte_val_lt c1). pose proof (byte_val_lt c2).
  apply hex_digit_inj in H1;
    [|apply N.Div0.div_lt_upper_bound; lia|apply N.Div0.div_lt_upper_bound; lia].
  apply hex_digit_inj in H2; [|by apply N.mod_lt|by apply N.mod_lt].
  f_equal; [|by apply IH].
  rewrite <-(ascii_N_embedding c1), <-(ascii_N_embedding c2). f_equal.
  unfold byte_val in *.
  rewrite (N.div_mod (N_of_ascii c1) 16), (N.div_mod (N_of_ascii c2) 16) by done.
  by rewrite H1, H2.
Qed.

(** X22.  The id of a task is [wt-] followed by eight digits of [0-9a-f],
    eleven bytes in all, and two ids are equal exactly when the four random
    bytes they were made from are. *)
Theorem generateID_format (env env' : Os.Env) :
  let id := task.generateID env in
  String.length id = 11 /\
  Str.HasPrefix id "wt-" = true /\
  Go.all_bytes is_hex_digit (Str.slice_from 3 id) = true /\
  (task.generateID env = task.generateID env' <->
   task.random_bytes 4 (Os.entropy env) = task.random_bytes 4 (Os.entropy env')).
Proof.
  cbv zeta. unfold task.generateID. split_and!.
  - by rewrite length_app, length_hex, length_random_bytes.
  - apply HasPrefix_app.
  - rewrite (slice_from_app "wt-"). apply all_hex.
  - split; [|by intros ->].
    rewrite !append_cons, !append_nil. intros [= H]. by apply hex_inj.
Qed.

(** ** The arguments of the agent *)

Lemma append_assoc a b c : (a +:+ b) +:+ c = a +:+ (b +:+ c).
Proof.
  induction a as [|x a IH]; [done|]. by rewrite !append_cons, IH.
Qed.

Lemma append_empty_r a : a +:+ "" = a.
Proof. induction a as [|x a IH]; [done|]. by rewrite append_cons, IH. Qed.

Lemma length_pos s : (0 <? String.length s)%nat = negb (String.eqb s "").
Proof. by destruct s. Qed.

Section Scanner.
Context (R : agent.Runes).

Lemma scan_rune_args st r :
  Forall (fun a => a <> "") (agent.args st) ->
  Forall (fun a => a <> "") (agent.args (agent.scan_rune R st r)).
Proof.
  intros H. unfold agent.scan_rune.
  repeat case_match; cbn [agent.args]; try done.
  apply Forall_app. split; [done|]. constructor; [|done].
  by destruct (agent.current st).
Qed.

Lemma foldl_scan_rune_args rs st :
  Forall (fun a => a <> "") (agent.args st) ->
  Forall (fun a => a <> "") (agent.args (foldl (agent.scan_rune R) st rs)).
Proof.
  revert st; induction rs as [|r rs IH]; intros st H; [done|].
  cbn [foldl]. by apply IH, scan_rune_args.
Qed.

Lemma text_app w1 w2 : text R (w1 ++ w2) = text R w1 +:+ text R w2.
Proof.
  induction w1 as [|r w1 IH]; [done|]. cbn [app text foldr].
  fold (text R (w1 ++ w2)). fold (text R w1). by rewrite IH, append_assoc.
Qed.

Lemma text_nonempty w :
  (forall r, agent.WriteRune R r <> "") ->
  String.eqb (text R w) "" = negb (has_runes w).
Proof.
  intros HW. destruct w as [|r w]; [done|]. cbn [text foldr has_runes negb].
  specialize (HW r). by destruct (agent.WriteRune R r).
Qed.

Lemma scan_literals w st :
  Forall (literal st) w ->
  foldl (agent.scan_rune R) st w
  = {| agent.args := agent.args st;
       agent.current := agent.current st +:+ text R w;
       agent.inQuote := agent.inQuote st;
       agent.quoteChar := agent.quoteChar st |}.
Proof.
  revert st; induction w as [|r w IH]; intros st H.
  - cbn. rewrite append_empty_r. by destruct st.
  - apply Forall_cons in H as [Hr Hw]. cbn [foldl].
    assert (Hstep : agent.scan_rune R st r
                    = {| agent.args := agent.args st;
                         agent.current := agent.current st +:+ agent.WriteRune R r;
                         agent.inQuote := agent.inQuote st;
                         agent.quoteChar := agent.quoteChar st |}).
    { unfold agent.scan_rune, literal, is_quote, is_separator in *.
      destruct (agent.inQuote st).
      - apply N.eqb_neq in Hr. rewrite Hr. cbn [negb andb].
        by rewrite !andb_false_r.
      - destruct Hr as [-> ->]. cbn [negb andb].
        by rewrite andb_false_r. }
    rewrite Hstep, IH.
    + cbn [agent.args agent.current agent.inQuote agent.quoteChar text foldr].
      by rewrite append_assoc.
    + unfold literal in *.
      by cbn [agent.args agent.current agent.inQuote agent.quoteChar].
Qed.

(** Reading a word, plain or quoted, outside quotes. *)
Lemma scan_word x acc cur :
  well_written x ->
  foldl (agent.scan_rune R)
    {| agent.args := acc; agent.current := cur;
       agent.inQuote := false; agent.quoteChar := 0 |} (written x)
  = {| agent.args := acc; agent.current := cur +:+ text R (content x);
       agent.inQuote := false; agent.quoteChar := 0 |}.
Proof.
  destruct x as [w|q w]; cbn [well_written written content].
  - intros H. by rewrite scan_literals.
  - intros [Hq Hw]. unfold is_quote in Hq. cbn [foldl]. rewrite foldl_app.
    assert (Hopen : agent.scan_rune R
                      {| agent.args := acc; agent.current := cur;
                         agent.inQuote := false; agent.quoteChar := 0 |} q
                    = {| agent.args := acc; agent.current := cur;
                         agent.inQuote := true; agent.quoteChar := q |}).
    { unfold agent.scan_rune.
      cbn [agent.args agent.current agent.inQuote agent.quoteChar].
      by rewrite Hq. }
    rewrite Hopen, (scan_literals w).
    2:{ apply Forall_forall. intros r Hr. unfold literal.
        cbn [agent.inQuote agent.quoteChar]. intros Heq. by subst r. }
    cbn [foldl agent.args agent.current agent.inQuote agent.quoteChar].
    unfold agent.scan_rune.
    cbn [agent.args agent.current agent.inQuote agent.quoteChar negb].
    by rewrite andb_false_r, N.eqb_refl.
Qed.

Lemma scan_words ws acc :
  (forall r, agent.WriteRune R r <> "") ->
  Forall well_written ws ->
  agent.flush
    (foldl (agent.scan_rune R)
       {| agent.args := acc; agent.current := "";
          agent.inQuote := false; agent.quoteChar := 0 |}
       (spaced (written <$> ws)))
  = acc ++ (text R <$> filter (fun w => has_runes w = true) (content <$> ws)).
Proof.
  intros HW H. revert acc. induction H as [|x ws Hx Hws IH]; intros acc.
  - cbn. by rewrite app_nil_r.
  - rewrite !fmap_cons.
    assert (Hflush : forall c,
              (if (0 <? String.length (text R c))%nat
               then acc ++ [text R c] else acc)
              = acc ++ (text R <$> filter (fun w => has_runes w = true) [c])).
    { intros c. rewrite length_pos, text_nonempty by done.
      destruct c; cbn; by rewrite ?app_nil_r. }
    destruct ws as [|y ws].
    + cbn [spaced fmap list_fmap]. rewrite scan_word by done.
      unfold agent.flush. cbn [agent.args agent.current].
      rewrite append_nil. apply Hflush.
    + change (spaced (written x :: (written <$> y :: ws)))
        with (written x ++ 32%N :: spaced (written <$> y :: ws)).
      rewrite foldl_app, scan_word by done. cbn [foldl].
      unfold agent.scan_rune at 2.
      cbn [agent.args agent.current agent.inQuote agent.quoteChar
           N.eqb Pos.eqb orb negb andb].
      rewrite append_nil, length_pos, text_nonempty by done.
      rewrite filter_cons.
      destruct (has_runes (content x)) eqn:Ex; cbn [negb].
      * rewrite decide_True by done. rewrite IH, fmap_cons.
        by rewrite <-app_assoc.
      * rewrite decide_False by done.
        destruct (content x) eqn:Ec; [|done]. cbn [text foldr].
        by rewrite IH.
Qed.

End Scanner.

(** X23.  [ParseAgentArgs] never returns an empty argument, whatever the
    text: the empty text gives no argument at all, and an argument is only
    kept when at least one byte has been written to it. *)
Theorem ParseAgentArgs_no_empty_argument (R : agent.Runes) (argsStr : string) :
  agent.ParseAgentArgs R "" = [] /\
  Forall (fun a => a <> "") (agent.ParseAgentArgs R argsStr).
Proof.
  split; [done|]. unfold agent.ParseAgentArgs.
  destruct (String.eqb argsStr ""); [done|].
  pose proof (foldl_scan_rune_args R (agent.decode R argsStr) agent.start
                (Forall_nil_2 _)) as H.
  unfold agent.flush. destruct (0 <? _)%nat eqn:E; [|done].
  apply Forall_app. split; [done|]. constructor; [|done].
  by destruct (agent.current _).
Qed.

(** X24.  [ParseAgentArgs] reads back what was written: for a text made of
    words with one space between them, each word either plain (no quote, no
    space) or between two double or two single quotes (and without that
    quote inside: spaces and the other quote are kept), the arguments are
    the contents of the words, in their order, without the quotes; words
    without content (two spaces in a row, an empty pair of quotes) give no
    argument. *)
Theorem ParseAgentArgs_reads_words (R : agent.Runes) (argsStr : string)
    (ws : list word) :
  reads_utf8 R ->
  agent.decode R argsStr = spaced (written <$> ws) ->
  Forall well_written ws ->
  agent.ParseAgentArgs R argsStr
  = text R <$> filter (fun w => has_runes w = true) (content <$> ws).
Proof.
  intros [Hd HW] Hs Hws. unfold agent.ParseAgentArgs.
  pose proof (scan_words R ws [] HW Hws) as H. rewrite <-Hs in H.
  destruct (String.eqb argsStr "") eqn:E; [|exact H].
  apply String.eqb_eq in E. subst argsStr. rewrite Hd in H.
  exact H.
Qed.

Lemma ParseAgentArgs_reads_words_witness :
  agent.ParseAgentArgs ascii_runes
    ("-m " +:+ String dquote ("a b" +:+ String dquote "  ''"))
  = ["-m"; "a b"].
Proof.
  apply (ParseAgentArgs_reads_words ascii_runes _
           [Plain [45; 109]; Quoted 34 [97; 32; 98]; Plain [];
            Quoted 39 []]%N).
  - split; [reflexivity|]. intros r. discriminate.
  - reflexivity.
  - repeat constructor; cbn; try discriminate.
    all: intros H; repeat (apply elem_of_cons in H as [H|H]; [discriminate H|]);
      by apply elem_of_nil in H.
Defined.

(** ** The helpers of the commands *)

Lemma length_slice_to_le n s :
  n <= String.length s -> String.length (Go.slice_to n s) = n.
Proof.
  revert s; induction n as [|n IH]; intros [|c s]; simpl; try done; try lia.
  intros H. rewrite IH; lia.
Qed.

(** X25.  [truncate] never returns more than [max] bytes when [max] is at
    least 3: a string that fits is returned as it is, a longer one gives
    exactly [max] bytes, the first [max - 3] bytes of the string and three
    dots.  With [max] below 3 a longer string makes it panic. *)
Theorem truncate_bounded (s : string) (max : Z) :
  ((3 <= max)%Z ->
   exists r,
     cli.truncate s max = Some r /\
     (Z.of_nat (String.length r) <= max)%Z /\
     ((Z.of_nat (String.length s) <= max)%Z -> r = s) /\
     ((max < Z.of_nat (String.length s))%Z ->
      Z.of_nat (String.length r) = max /\
      r = Go.slice_to (Z.to_nat (max - 3)) s +:+ "...")) /\
  ((max < 3)%Z -> (max < Z.of_nat (String.length s))%Z ->
   cli.truncate s max = None).
Proof.
  unfold cli.truncate. split.
  - intros Hmax. destruct (Z.leb_spec (Z.of_nat (String.length s)) max).
    + exists s. split_and!; [done|lia|done|lia].
    + destruct (Z.ltb_spec (max - 3) 0); [lia|].
      eexists. split; [reflexivity|].
      assert (String.length (Go.slice_to (Z.to_nat (max - 3)) s +:+ "...")
              = Z.to_nat max) as Hlen.
      { rewrite length_app, length_slice_to_le by lia. simpl. lia. }
      rewrite Hlen. split_and!; [lia|lia|]. intros _. split; [lia|done].
  - intros Hmax Hlen.
    destruct (Z.leb_spec (Z.of_nat (String.length s)) max); [lia|].
    by destruct (Z.ltb_spec (max - 3) 0); [|lia].
Qed.

Lemma truncate_bounded_witness :
  exists r,
    cli.truncate "add user authentication to the admin console" 40 = Some r /\
    (Z.of_nat (String.length r) <= 40)%Z /\
    r = "add user authentication to the admin ...".
Proof.
  destruct (truncate_bounded "add user authentication to the admin console" 40)
    as [H _].
  destruct H as (r & Hr & Hle & _ & Hcut); [lia|].
  exists r. split_and!; [exact Hr|exact Hle|].
  apply Hcut. reflexivity.
Defined.

(** ** More on the registry file *)

Lemma Clean_nonempty path : Go.Clean path <> "".
Proof.
  unfold Go.Clean. destruct path as [|c s]; [done|].
  destruct (is_byte "/" c); [by rewrite append_cons|].
  destruct (String.eqb _ "") eqn:E; [done|]. by apply String.eqb_neq.
Qed.

Lemma registry_file_nonempty h : registry_file h <> "".
Proof.
  unfold registry_file. set (x := Go.Join [h; config.configDir]).
  cbn [Go.Join]. destruct (String.eqb x ""); [done|]. apply Clean_nonempty.
Qed.

(** X26.  Saving a registry that has just been saved changes nothing: the
    second [Save] succeeds too, and leaves the registry, the files and the
    directories as the first one left them. *)
Theorem Save_twice (env : Os.Env) (Y : Yaml.Codec)
    (c c1 : config.Config) (w w1 : Os.World) :
  config.Save env Y (c, w) = (Ok tt, (c1, w1)) ->
  exists w2,
    config.Save env Y (c1, w1) = (Ok tt, (c1, w2)) /\
    Os.files w2 = Os.files w1 /\ Os.dirs w2 = Os.dirs w1.
Proof.
  intros Hs. rewrite Save_unfold in Hs.
  assert (exists data,
            config.path c1 <> "" /\
            Os.fails env (Os.MkdirAll (Go.Dir (config.path c1))) = false /\
            config.Marshal Y c1 = Some data /\
            Os.write_fault_at env (config.path c1) = Os.WriteOk /\
            Os.files w1 !! config.path c1 = Some data /\
            Go.Dir (config.path c1) ∈ Os.dirs w1)
    as (data & Hp & Hmk & Hm & Hwf & Hf & Hd).
  { assert (exists c0, (if String.eqb (config.path c) ""
                        then match Os.home w with
                             | Some h => Ok (config.set_path (registry_file h) c)
                             | None => Err (ErrHomeDir ErrOs)
                             end
                        else Ok c) = Ok c0 /\ config.path c0 <> "" /\
                       config.Marshal Y c0 = config.Marshal Y c)
      as (c0 & Hc0 & Hp0 & Hm0).
    { destruct (String.eqb (config.path c) "") eqn:Ep.
      - destruct (Os.home w) as [h|]; [|done]. eexists. split; [done|].
        split; [apply registry_file_nonempty|done].
      - exists c. split; [done|]. split; [by apply String.eqb_neq|done]. }
    rewrite Hc0 in Hs. cbv zeta in Hs.
    destruct (Os.fails env _) eqn:Hmk; [done|].
    destruct (config.Marshal Y c) as [data|] eqn:Hm; [|done].
    unfold Os.do_WriteFile in Hs. cbv zeta in Hs.
    destruct (Os.write_fault_at env _) eqn:Hwf; [|done..].
    injection Hs as <- <-. exists data. cbn.
    split_and!; try done; try congruence.
    - apply lookup_insert_eq.
    - apply elem_of_union_l. by apply elem_of_singleton. }
  rewrite Save_unfold.
  apply String.eqb_neq in Hp. rewrite Hp. cbv zeta. rewrite Hmk, Hm.
  unfold Os.do_WriteFile. cbv zeta. rewrite Hwf.
  eexists. split; [reflexivity|]. cbn. split.
  - by apply insert_id.
  - apply subseteq_union_1_L. by apply singleton_subseteq_l.
Qed.

Lemma Save_twice_witness :
  let x := config.Save Sample.env TextCodec.codec (Sample.cfg1, Sample.world1) in
  exists w2,
    config.Save Sample.env TextCodec.codec (config_after x, world_after x)
    = (Ok tt, (config_after x, w2)) /\
    Os.files w2 = Os.files (world_after x) /\
    Os.dirs w2 = Os.dirs (world_after x).
Proof.
  intros x.
  assert (Hx : x = (Ok tt, (config_after x, world_after x)))
    by (vm_compute; reflexivity).
  exact (Save_twice Sample.env TextCodec.codec Sample.cfg1 (config_after x)
           Sample.world1 (world_after x) Hx).
Defined.

(** X27.  [Load] only reads: whatever its outcome, the files, the
    directories and the state of the version-control tool are what they
    were, and the only call it can make is the reading of a file. *)
Theorem Load_only_reads (env : Os.Env) (Y : Yaml.Codec) (w : Os.World) :
  let w' := (config.Load env Y w).2 in
  same_resources w w' /\
  (new_calls w w' = [] \/
   exists p ok, new_calls w w' = [(Os.ReadFile p, ok)]).
Proof.
  cbv zeta.
  unfold config.Load, config.ConfigDir, config.DefaultConfig, Os.UserHomeDir,
    Os.do_ReadFile.
  unfold_monad. destruct (Os.home w) as [h|]; cbn [fst snd].
  2:{ split; [done|]. left. apply new_calls_app. by rewrite app_nil_r. }
  destruct (Os.home w) as [h'|]; cbn [fst snd].
  all: destruct (Os.fails env _); cbn [fst snd].
  all: try destruct (Os.files w !! _) as [data|]; cbn [fst snd].
  all: try destruct (config.Unmarshal Y _ _); cbn [fst snd].
  all: split; [done|]; right; eexists _, _; by apply new_calls_app.
Qed.

Lemma split_slash_Split s : Go.split_slash s = Str.Split s "/".
Proof.
  induction s as [|c s IH]; [done|]. cbn [Go.split_slash Str.Split].
  by rewrite IH.
Qed.

Lemma Base_nonempty path :
  path <> "" ->
  Go.Base path
  = match List.last (Go.split_slash (Go.trim_right (is_byte "/") path)) "" with
    | EmptyString => "/"
    | e => e
    end.
Proof. by destruct path. Qed.

(** X28.  [RepoName] is the last element of the path git prints: when the
    trimmed output of [rev-parse --show-toplevel] is a directory, a slash
    and a name without slash that is not empty, the name is returned. *)
Theorem RepoName_last_element (U : Unicode) (env : Os.Env)
    (repoPath out dir name : string) (w w1 : Os.World) :
  Os.git env (Os.GitShowToplevel repoPath) w = (Some out, w1) ->
  Go.TrimSpace U out = dir +:+ String "/" name ->
  name <> "" -> no_slash name = true ->
  worktree.RepoName U env repoPath w = (Ok name, w1).
Proof.
  intros Hg Ht Hne Hn.
  unfold worktree.RepoName, worktree.git_or. unfold_monad. rewrite Hg, Ht.
  f_equal. f_equal.
  assert (Hlast : Go.last_byte (dir +:+ String "/" name) = Go.last_byte name).
  { rewrite last_byte_app by done. by destruct name. }
  rewrite Base_nonempty by (by destruct dir).
  rewrite trim_right_id.
  2:{ intros c Hc. rewrite Hlast in Hc.
      apply (all_bytes_last _ _ _ Hn) in Hc. by apply negb_true_iff in Hc. }
  rewrite split_slash_Split, Split_app, (Split_line name "/" Hn), last_last.
  by destruct name.
Qed.

Lemma RepoName_last_element_witness :
  exists w1,
    worktree.RepoName ascii_only Sample.env "/src/app" Sample.world
    = (Ok "app", w1).
Proof.
  eexists.
  apply (RepoName_last_element ascii_only Sample.env "/src/app"
           ("/src/app" +:+ String newline "") "/src" "app");
    first [reflexivity|discriminate].
Defined.

(** X29.  A task that [Start] has registered is there for the next
    command: when [Start] has succeeded on a registry that [Load] or
    [DefaultConfig] made, the text codec gives back the document it was
    handed, and the file can be read, [Load] returns the registry [Start]
    left in memory, with the task behind the tasks there were. *)
Theorem Start_then_Load (U : Unicode) (env : Os.Env) (Y : Yaml.Codec)
    (opts : task.StartOptions) (c c' : config.Config) (w w' : Os.World)
    (t : config.Task) (h data : string) :
  Os.home w = Some h ->
  config.path c = "" \/ config.path c = registry_file h ->
  task.Start U env Y opts (c, w) = (Ok t, (c', w')) ->
  config.Marshal Y c' = Some data ->
  Yaml.parse Y data = Some (config.encode_Config c') ->
  Os.fails env (Os.ReadFile (registry_file h)) = false ->
  exists w'',
    config.Load env Y w' = (Ok c', w'') /\
    config.Tasks c' = config.Tasks c ++ [t].
Proof.
  intros Hh Hpath Hs Hm Hp Hread.
  destruct (Start_created U env Y opts c w _ c' w' Hs)
    as (out & w1 & w2 & w3 & o & w4 & r5 & E1 & E2 & E3 & E4 & E5 & Hr);
    [done|].
  destruct r5 as [[]|e5]; [|done]. injection Hr as ->.
  destruct (created_world env Y _ _ _ _ _ _ _ _ _ _ _ _ _ _ _ E1 E2 E3 E4 E5)
    as (_ & _ & _ & Ht & _ & _).
  assert (Hh4 : Os.home w4 = Some h).
  { apply git_log in E1 as (_ & H1 & _). apply git_log in E2 as (_ & H2 & _).
    apply MkdirAll_log in E3 as (_ & H3 & _). apply git_log in E4 as (_ & H4 & _).
    congruence. }
  rewrite AddTask_unfold in E5.
  apply Save_ok in E5 as (data' & Hm' & Hf & Hh' & Hc & Hp').
  cbn [config.path config.set_Tasks] in Hp'.
  assert (Hpc : config.path c' = registry_file h).
  { destruct (String.eqb (config.path c) "") eqn:E.
    - destruct Hp' as (h' & Hh'' & ->). congruence.
    - apply String.eqb_neq in E. destruct Hpath; congruence. }
  assert (data' = data) as ->.
  { rewrite Hc in Hm. unfold config.Marshal in *.
    rewrite encode_Config_set_path in Hm. congruence. }
  eexists. split; [|exact Ht].
  rewrite (Load_reads env Y w' h data c'); [| congruence | done | | done].
  - by rewrite <-Hpc, set_path_id.
  - by rewrite Hf, Hpc, lookup_insert_eq.
Qed.

Lemma Start_then_Load_witness :
  let x := Sample.start Sample.opts1 (Sample.cfg, Sample.world) in
  exists w'',
    config.Load Sample.env TextCodec.codec (world_after x)
    = (Ok (config_after x), w'') /\
    config.Tasks (config_after x) = config.Tasks Sample.cfg ++ [Sample.task1].
Proof.
  intros x.
  assert (Hx : x = (Ok Sample.task1, (config_after x, world_after x)))
    by (vm_compute; reflexivity).
  apply (Start_then_Load ascii_only Sample.env TextCodec.codec Sample.opts1
           Sample.cfg (config_after x) Sample.world (world_after x)
           Sample.task1 "/home/dev" (Sample.stored (config_after x))).
  - reflexivity.
  - left. reflexivity.
  - exact Hx.
  - vm_compute. reflexivity.
  - vm_compute. reflexivity.
  - reflexivity.
Defined.
